(** * Expense tracker (app.py): store, filter, aggregation and export

    A shallow embedding of [app.py] and of the parts of the Python
    standard library it calls ([csv] with the default excel dialect,
    text files opened in untranslated newline mode, [float], [round], [str] and
    the [.2f] format, [str.lower], [datetime.strftime]).

    Python strings are modelled by [string]; a character is a code point
    below 256.  Python 3.11 is the reference for the library functions.

    The terminal is a list of lines to be typed and a list of what was
    printed; the file system maps paths to contents; the clock is a
    value of the world.  Left out: the texts of prompts and of the
    messages of the actions, and the directories (made before any file
    is opened).  The menu loop of [main] is a recursion on the number of
    turns. *)

From Stdlib Require Import ZArith NArith QArith Qround String Ascii List Bool Lia.
From Stdlib Require Import SpecFloat DecimalString.
From stdpp Require Import base option list strings gmap sorting.

Local Open Scope Z_scope.


(** ** Exceptions and results *)

Inductive exn : Type :=
  | ValueError      (* unpacking a row of the wrong width, float() of garbage *)
  | IndexError      (* r[1] on a row with fewer than two cells *)
  | EOFError        (* input() at the end of standard input *)
  | CsvError        (* _csv.Error *)
  | FileNotFoundError.

Inductive result (A : Type) : Type :=
  | Ok (a : A)
  | Raise (e : exn).
Arguments Ok {A} a.
Arguments Raise {A} e.

Global Instance result_ret : MRet result := fun A a => Ok a.
Global Instance result_bind : MBind result := fun A B f m =>
  match m with Ok a => f a | Raise e => Raise e end.
Global Instance result_fmap : FMap result := fun A B f m =>
  match m with Ok a => Ok (f a) | Raise e => Raise e end.

(** ** Strings *)

Definition CR : ascii := "013"%char.
Definition LF : ascii := "010"%char.
Definition COMMA : ascii := ","%char.
Definition DQUOTE : ascii := "034"%char.

Definition str_of (l : list ascii) : string := string_of_list_ascii l.
Definition chars (s : string) : list ascii := list_ascii_of_string s.

(** [sep.join(l)] *)
Fixpoint str_join (sep : string) (l : list string) : string :=
  match l with
  | [] => ""
  | [s] => s
  | s :: l' => s +:+ sep +:+ str_join sep l'
  end.

(** [str.strip()]: the white space of [str.isspace] below 256. *)
Definition is_space (c : ascii) : bool :=
  let n := N_of_ascii c in
  ((9 <=? n) && (n <=? 13) || (28 <=? n) && (n <=? 32)
   || (n =? 133) || (n =? 160))%N.

Fixpoint lstrip (p : ascii -> bool) (s : string) : string :=
  match s with
  | String c s' => if p c then lstrip p s' else s
  | "" => ""
  end.

(** Drops the characters satisfying [p] at the end; the result is the
    string without them, or [""]. *)
Fixpoint rstrip (p : ascii -> bool) (s : string) : string :=
  match s with
  | "" => ""
  | String c s' =>
      match rstrip p s' with
      | "" => if p c then "" else String c ""
      | t => String c t
      end
  end.

Definition strip_with (p : ascii -> bool) (s : string) : string :=
  rstrip p (lstrip p s).

Definition strip : string -> string := strip_with is_space.

(** [str.lower()] below 256: the letters A-Z, and the capital letters of
    Latin-1 (192-222 without the multiplication sign 215). *)
Definition lower_char (c : ascii) : ascii :=
  let n := N_of_ascii c in
  if ((65 <=? n) && (n <=? 90)
      || (192 <=? n) && (n <=? 222) && negb (n =? 215))%N
  then ascii_of_N (n + 32) else c.

Fixpoint lower (s : string) : string :=
  match s with
  | "" => ""
  | String c s' => String (lower_char c) (lower s')
  end.

(** [s.replace(",", ".")] *)
Fixpoint replace_comma (s : string) : string :=
  match s with
  | "" => ""
  | String c s' => String (if bool_decide (c = COMMA) then "."%char else c) (replace_comma s')
  end.

Fixpoint is_prefix (p s : string) : bool :=
  match p, s with
  | "", _ => true
  | String a p', String b s' => bool_decide (a = b) && is_prefix p' s'
  | String _ _, "" => false
  end.

(** [p in s] *)
Fixpoint contains (p s : string) : bool :=
  is_prefix p s ||
  match s with
  | "" => false
  | String _ s' => contains p s'
  end.

(** [s[:n]] *)
Fixpoint take_str (n : nat) (s : string) : string :=
  match n, s with
  | S n', String c s' => String c (take_str n' s')
  | _, _ => ""
  end.

(** [str(n)] for a natural number, and padding with zeros on the left. *)
Definition dec (n : Z) : string := NilZero.string_of_uint (N.to_uint (Z.to_N n)).

Fixpoint zeros (n : nat) : string :=
  match n with O => "" | S n' => String "0" (zeros n') end.

Definition zfill (w : nat) (s : string) : string :=
  zeros (w - String.length s) +:+ s.

(** ** Floats: IEEE 754 binary64, round to nearest even *)

Module Float.

Definition float : Type := spec_float.
Definition prec : Z := 53.
Definition emax : Z := 1024.

Global Instance float_eq_dec : EqDecision spec_float.
Proof. solve_decision. Defined.

Definition add (x y : float) : float := SFadd prec emax x y.
Definition zero : float := S754_zero false.

Definition pow2 (e : Z) : Q :=
  if (0 <=? e)%Z then inject_Z (2 ^ e) else Qmake 1 (Z.to_pos (2 ^ (- e))).
Definition pow10 (e : Z) : Q :=
  if (0 <=? e)%Z then inject_Z (10 ^ e) else Qmake 1 (Z.to_pos (10 ^ (- e))).

(** The float nearest to the rational [v >= 0], with sign [neg]: the
    quotient is taken with at least 55 bits and the remainder tells on
    which side of the half it lies. *)
Definition of_Q (neg : bool) (v : Q) : float :=
  let a := Qnum v in
  let b := Zpos (Qden v) in
  if (a <=? 0)%Z then S754_zero neg
  else
    let s := Z.max 0 (55 + Zdigits2 b - Zdigits2 a) in
    let n := (a * 2 ^ s)%Z in
    let q := (n / b)%Z in
    let r := (n mod b)%Z in
    let loc := if (r =? 0)%Z then loc_Exact else loc_Inexact (2 * r ?= b)%Z in
    binary_round_aux prec emax neg q (- s) loc.

(** The value of a finite float, without its sign. *)
Definition magnitude (m : positive) (e : Z) : Q := inject_Z (Zpos m) * pow2 e.

(** Rounding a non-negative rational to an integer, ties to even. *)
Definition round_half_even (v : Q) : Z :=
  let f := Qfloor v in
  match Qcompare (v - inject_Z f) (1 # 2) with
  | Lt => f
  | Gt => (f + 1)%Z
  | Eq => if Z.even f then f else (f + 1)%Z
  end.

Definition with_sign (neg : bool) (s : string) : string :=
  if neg then String "-" s else s.

(** [f"{x:.2f}"] *)
Definition format_2f (x : float) : string :=
  match x with
  | S754_nan => "nan"
  | S754_infinity s => with_sign s "inf"
  | S754_zero s => with_sign s "0.00"
  | S754_finite s m e =>
      let i := round_half_even (magnitude m e * inject_Z 100) in
      with_sign s (dec (i / 100) +:+ "." +:+ zfill 2 (dec (i mod 100)))
  end.

(** *** [float(s)] *)

(** The white space [float] strips: a space of [str.isspace] is first made
    a blank, unless it is below 128, and then the C white space goes. *)
Definition is_float_space (c : ascii) : bool :=
  let n := N_of_ascii c in
  ((9 <=? n) && (n <=? 13) || (n =? 32) || (n =? 133) || (n =? 160))%N.

Definition is_digit (c : ascii) : bool :=
  let n := N_of_ascii c in ((48 <=? n) && (n <=? 57))%N.

Definition digit_val (c : ascii) : Z := Z.of_N (N_of_ascii c) - 48.

(** An underscore stands only between two digits. *)
Fixpoint underscores_ok (prev : option ascii) (s : string) : bool :=
  match s with
  | "" => negb (bool_decide (prev = Some "_"%char))
  | String c s' =>
      (if bool_decide (c = "_"%char)
       then match prev with Some p => is_digit p | None => false end
       else negb (bool_decide (prev = Some "_"%char)) || is_digit c)
      && underscores_ok (Some c) s'
  end.

Fixpoint remove_underscores (s : string) : string :=
  match s with
  | "" => ""
  | String c s' =>
      if bool_decide (c = "_"%char) then remove_underscores s'
      else String c (remove_underscores s')
  end.

(** The leading digits of [s] as a number, how many there are, and the rest. *)
Fixpoint digits_from (acc : Z) (n : Z) (s : string) : Z * Z * string :=
  match s with
  | String c s' =>
      if is_digit c then digits_from (10 * acc + digit_val c) (n + 1) s'
      else (acc, n, s)
  | "" => (acc, n, s)
  end.

Definition sign_from (s : string) : bool * string :=
  match s with
  | String "-" s' => (true, s')
  | String "+" s' => (false, s')
  | _ => (false, s)
  end.

(** The exponent part: nothing, or [e] or [E], a sign and digits. *)
Definition exponent_from (s : string) : option Z :=
  match s with
  | "" => Some 0%Z
  | String c s' =>
      if bool_decide (c = "e"%char) || bool_decide (c = "E"%char) then
        let '(neg, s'') := sign_from s' in
        match digits_from 0 0 s'' with
        | (v, n, "") => if (0 <? n)%Z then Some (if neg then (- v)%Z else v) else None
        | _ => None
        end
      else None
  end.

(** A decimal literal without sign: digits, a point and digits, an exponent. *)
Definition decimal_from (s : string) : option (Z * Z) :=
  let '(ip, n1, s1) := digits_from 0 0 s in
  let '(mant, n2, s2) :=
    match s1 with
    | String "." s1' => digits_from ip 0 s1'
    | _ => (ip, 0%Z, s1)
    end in
  if (0 <? n1 + n2)%Z
  then e ← exponent_from s2; Some (mant, (e - n2)%Z)
  else None.

Definition of_str (s : string) : result float :=
  let t := strip_with is_float_space s in
  if bool_decide (t = "") || negb (underscores_ok None t) then Raise ValueError
  else
    let '(neg, u) := sign_from (remove_underscores t) in
    let w := lower u in
    if bool_decide (w = "inf") || bool_decide (w = "infinity") then Ok (S754_infinity neg)
    else if bool_decide (w = "nan") then Ok S754_nan
    else match decimal_from u with
         | Some (mant, e) => Ok (of_Q neg (inject_Z mant * pow10 e))
         | None => Raise ValueError
         end.

(** [round(x, 2)]: the two-digit decimal nearest to [x], read back. *)
Definition round2 (x : float) : float :=
  match x with
  | S754_finite s m e =>
      of_Q s (inject_Z (round_half_even (magnitude m e * inject_Z 100)) * pow10 (-2))
  | _ => x
  end.

(** *** [repr(x)], which is [str(x)]: the shortest digits that read back *)

(** [e] with [10^e <= v < 10^(e+1)], from an estimate that is at most
    one off. *)
Definition decimal_exponent (m : positive) (e : Z) : Z :=
  let v := magnitude m e in
  let est := ((Zpos (digits2_pos m) + e - 1) * 30103 / 100000)%Z in
  let down := fix down (fuel : nat) (k : Z) : Z :=
    match fuel with
    | O => k
    | S fuel' => if Qle_bool (pow10 k) v then k else down fuel' (k - 1)%Z
    end in
  let up := fix up (fuel : nat) (k : Z) : Z :=
    match fuel with
    | O => k
    | S fuel' => if Qle_bool (pow10 (k + 1)) v then up fuel' (k + 1)%Z else k
    end in
  up 3%nat (down 3%nat est).

(** The decimal with [n] digits that reads back as the float and is
    nearest to it, if there is one: its digits and the power of ten of
    the last one. *)
Definition shortest_try (m : positive) (e : Z) (n : Z) : option (Z * Z) :=
  let v := magnitude m e in
  let k := (decimal_exponent m e - (n - 1))%Z in
  let d := Qfloor (v * pow10 (- k)) in
  let reads_back (d' : Z) : bool :=
    bool_decide (of_Q false (inject_Z d' * pow10 k) = S754_finite false m e) in
  let lo_first :=
    Qle_bool (v - inject_Z d * pow10 k) (inject_Z (d + 1) * pow10 k - v) in
  let c1 := if lo_first then d else (d + 1)%Z in
  let c2 := if lo_first then (d + 1)%Z else d in
  if reads_back c1 then Some (c1, k)
  else if reads_back c2 then Some (c2, k)
  else None.

Fixpoint shortest_from (fuel : nat) (m : positive) (e : Z) (n : Z) : Z * Z :=
  match fuel with
  | O => (Qfloor (magnitude m e * pow10 (- (decimal_exponent m e - 16))),
          (decimal_exponent m e - 16)%Z)
  | S fuel' =>
      match shortest_try m e n with
      | Some r => r
      | None => shortest_from fuel' m e (n + 1)%Z
      end
  end.

(** Zeros at the end of the digits go into the power of ten. *)
Fixpoint strip_zeros (fuel : nat) (d k : Z) : Z * Z :=
  match fuel with
  | O => (d, k)
  | S fuel' =>
      if (0 <? d)%Z && (d mod 10 =? 0)%Z then strip_zeros fuel' (d / 10)%Z (k + 1)%Z
      else (d, k)
  end.

(** [format_float_short] with the code [r]: the digits [ds] stand for
    [0.ds * 10^decpt]; an exponent is used when [decpt <= -4] or
    [decpt > 16]. *)
Definition repr_digits (ds : string) (decpt : Z) : string :=
  let n := Z.of_nat (String.length ds) in
  if (decpt <=? -4)%Z || (16 <? decpt)%Z then
    let ex := (decpt - 1)%Z in
    take_str 1 ds
    +:+ (if (1 <? n)%Z then "." +:+ String.substring 1 (String.length ds - 1) ds else "")
    +:+ "e" +:+ (if (ex <? 0)%Z then "-" else "+") +:+ zfill 2 (dec (Z.abs ex))
  else if (decpt <=? 0)%Z then "0." +:+ zeros (Z.to_nat (- decpt)) +:+ ds
  else if (n <=? decpt)%Z then ds +:+ zeros (Z.to_nat (decpt - n)) +:+ ".0"
  else take_str (Z.to_nat decpt) ds +:+ "."
       +:+ String.substring (Z.to_nat decpt) (String.length ds - Z.to_nat decpt) ds.

Definition repr (x : float) : string :=
  match x with
  | S754_nan => "nan"
  | S754_infinity s => with_sign s "inf"
  | S754_zero s => with_sign s "0.0"
  | S754_finite s m e =>
      let '(d0, k0) := shortest_from 17 m e 1 in
      let '(d, k) := strip_zeros 20 d0 k0 in
      let ds := dec d in
      with_sign s (repr_digits ds (Z.of_nat (String.length ds) + k))
  end.

End Float.

(** ** [int(s)] *)

(** [int] takes a sign and digits, with single underscores between
    digits and white space around; more than 4300 digits are refused
    ([sys.get_int_max_str_digits()]). *)
Definition int_of_str (s : string) : result Z :=
  let t := strip_with Float.is_float_space s in
  if bool_decide (t = "") || negb (Float.underscores_ok None t) then Raise ValueError
  else
    let '(neg, u) := Float.sign_from (Float.remove_underscores t) in
    match Float.digits_from 0 0 u with
    | (v, n, "") =>
        if (0 <? n)%Z && (n <=? 4300)%Z then Ok (if neg then (- v)%Z else v)
        else Raise ValueError
    | _ => Raise ValueError
    end.

(** ** Dates: [datetime.date] *)

Module Date.

Record date : Type := mkDate { year : Z; month : Z; day : Z }.

Definition is_leap (y : Z) : bool :=
  (y mod 4 =? 0)%Z && (negb (y mod 100 =? 0)%Z || (y mod 400 =? 0)%Z).

Definition days_in_month (y m : Z) : Z :=
  if (m =? 2)%Z then (if is_leap y then 29 else 28)%Z
  else if (m =? 4)%Z || (m =? 6)%Z || (m =? 9)%Z || (m =? 11)%Z then 30%Z
  else 31%Z.

(** Days before the first of month [m] in a year that is not a leap year. *)
Definition days_before_month_table (m : Z) : Z :=
  nth (Z.to_nat m) [0; 0; 31; 59; 90; 120; 151; 181; 212; 243; 273; 304; 334]%Z 0%Z.

Definition days_before_month (y m : Z) : Z :=
  (days_before_month_table m + (if (2 <? m)%Z && is_leap y then 1 else 0))%Z.

Definition days_before_year (y : Z) : Z :=
  let y' := (y - 1)%Z in (y' * 365 + y' / 4 - y' / 100 + y' / 400)%Z.

Definition ymd_to_ord (y m d : Z) : Z :=
  (days_before_year y + days_before_month y m + d)%Z.

(** 0 is Monday. *)
Definition weekday (y m d : Z) : Z := ((ymd_to_ord y m d + 6) mod 7)%Z.

Definition ord_to_ymd (ordinal : Z) : date :=
  let o := (ordinal - 1)%Z in
  let n400 := (o / 146097)%Z in let n := (o mod 146097)%Z in
  let n100 := (n / 36524)%Z in let n := (n mod 36524)%Z in
  let n4 := (n / 1461)%Z in let n := (n mod 1461)%Z in
  let n1 := (n / 365)%Z in let n := (n mod 365)%Z in
  let y := (n400 * 400 + 1 + n100 * 100 + n4 * 4 + n1)%Z in
  if (n1 =? 4)%Z || (n100 =? 4)%Z then mkDate (y - 1) 12 31
  else
    let leapyear := (n1 =? 3)%Z && (negb (n4 =? 24)%Z || (n100 =? 3)%Z) in
    let m := Z.shiftr (n + 50) 5 in
    let preceding :=
      (days_before_month_table m + (if (2 <? m)%Z && leapyear then 1 else 0))%Z in
    let '(m, preceding) :=
      if (n <? preceding)%Z then ((m - 1)%Z, (preceding - days_in_month y (m - 1))%Z)
      else (m, preceding) in
    mkDate y m (n - preceding + 1).

Definition iso_week1_monday (y : Z) : Z :=
  let first_day := ymd_to_ord y 1 1 in
  let first_weekday := ((first_day + 6) mod 7)%Z in
  let week1_monday := (first_day - first_weekday)%Z in
  if (3 <? first_weekday)%Z then (week1_monday + 7)%Z else week1_monday.

Definition iso_to_ymd (iso_year iso_week iso_day : Z) : option date :=
  if (iso_year <? 1)%Z || (9999 <? iso_year)%Z then None
  else
    let out_of_range :=
      ((iso_week <=? 0)%Z || (53 <=? iso_week)%Z)
      && negb ((iso_week =? 53)%Z
               && let first_weekday := weekday iso_year 1 1 in
                  ((first_weekday =? 3)%Z
                   || (first_weekday =? 2)%Z && is_leap iso_year)) in
    if out_of_range then None
    else if (iso_day <=? 0)%Z || (8 <=? iso_day)%Z then None
    else Some (ord_to_ymd (iso_week1_monday iso_year + (iso_week - 1) * 7 + iso_day - 1)).

(** The constructor's check of its arguments. *)
Definition check_date (d : date) : option date :=
  if (1 <=? year d)%Z && (year d <=? 9999)%Z && (1 <=? month d)%Z && (month d <=? 12)%Z
     && (1 <=? day d)%Z && (day d <=? days_in_month (year d) (month d))%Z
  then Some d else None.

(** Exactly [n] digits. *)
Fixpoint parse_digits (n : nat) (acc : Z) (s : string) : option (Z * string) :=
  match n with
  | O => Some (acc, s)
  | S n' =>
      match s with
      | String c s' =>
          if Float.is_digit c then parse_digits n' (10 * acc + Float.digit_val c)%Z s'
          else None
      | "" => None
      end
  end.

(** The string is read as UTF-8: a character from 128 on takes two bytes. *)
Fixpoint utf8_len (s : string) : Z :=
  match s with
  | "" => 0%Z
  | String c s' => ((if (N_of_ascii c <? 128)%N then 1 else 2) + utf8_len s')%Z
  end.

Definition skip_dash (uses_separator : bool) (s : string) : option string :=
  if uses_separator then
    match s with String "-" s' => Some s' | _ => None end
  else Some s.

(** [parse_isoformat_date]; what follows the date in the string is not
    looked at. *)
Definition parse_isoformat_date (s : string) : option date :=
  '(y, s1) ← parse_digits 4 0 s;
  let uses_separator := match s1 with String "-" _ => true | _ => false end in
  let s2 := match s1 with String "-" s' => s' | _ => s1 end in
  match s2 with
  | String "W" s3 =>
      '(w, s4) ← parse_digits 2 0 s3;
      if (utf8_len s - utf8_len s4 <? utf8_len s)%Z then
        s5 ← skip_dash uses_separator s4;
        '(d, _) ← parse_digits 1 0 s5;
        iso_to_ymd y w d
      else iso_to_ymd y w 1
  | _ =>
      '(m, s3) ← parse_digits 2 0 s2;
      s4 ← skip_dash uses_separator s3;
      '(d, _) ← parse_digits 2 0 s4;
      Some (mkDate y m d)
  end.

(** [date.fromisoformat(s)] *)
Definition fromisoformat (s : string) : result date :=
  let len := utf8_len s in
  if (len =? 7)%Z || (len =? 8)%Z || (len =? 10)%Z then
    match parse_isoformat_date s ≫= check_date with
    | Some d => Ok d
    | None => Raise ValueError
    end
  else Raise ValueError.

(** [d.isoformat()] *)
Definition isoformat (d : date) : string :=
  zfill 4 (dec (year d)) +:+ "-" +:+ zfill 2 (dec (month d)) +:+ "-" +:+ zfill 2 (dec (day d)).

Record datetime : Type := mkDatetime {
  on : date; hour : Z; minute : Z; second : Z; microsecond : Z;
}.

(** [t.strftime("%Y%m%d_%H%M%S")]; the C library writes the year
    without padding. *)
Definition strftime (t : datetime) : string :=
  dec (year (on t)) +:+ zfill 2 (dec (month (on t))) +:+ zfill 2 (dec (day (on t)))
  +:+ "_" +:+ zfill 2 (dec (hour t)) +:+ zfill 2 (dec (minute t)) +:+ zfill 2 (dec (second t)).

End Date.

Module Csv.

(** *** Writer: [csv.writer(f).writerow], excel dialect

    delimiter comma, quotechar the double quote, doublequote on,
    lineterminator CR LF, QUOTE_MINIMAL, no escapechar. *)

(** The characters that make [join_append_data] set [*quoted]. *)
Definition special (c : ascii) : bool :=
  bool_decide (c = COMMA) || bool_decide (c = DQUOTE)
  || bool_decide (c = CR) || bool_decide (c = LF).

Definition needs_quotes (s : string) : bool := existsb special (chars s).

(** The copy phase of [join_append_data]: a quote character is doubled. *)
Fixpoint escape (s : string) : string :=
  match s with
  | "" => ""
  | String c s' =>
      if bool_decide (c = DQUOTE) then String DQUOTE (String DQUOTE (escape s'))
      else String c (escape s')
  end.

Definition join_append (s : string) : string :=
  if needs_quotes s then String DQUOTE (escape s +:+ String DQUOTE "") else s.

Definition lineterminator : string := String CR (String LF "").

(** [writerow]: the record is the joined cells; a record of one empty cell
    is written as two quote characters ([num_fields > 0 && rec_len == 0]). *)
Definition writerow (row : list string) : string :=
  match row with
  | [""] => String DQUOTE (String DQUOTE lineterminator)
  | _ => str_join (String COMMA "") (join_append <$> row) +:+ lineterminator
  end.

Fixpoint writerows (rows : list (list string)) : string :=
  match rows with
  | [] => ""
  | r :: rs => writerow r +:+ writerows rs
  end.

(** *** Text file iteration in untranslated newline mode

    A line ends after [\n], after [\r\n], after a [\r] that no [\n]
    follows, and at the end of the file; line ends are kept.  [cur] is
    the line read so far, last character first. *)
Fixpoint readlines_from (cur : list ascii) (s : string) : list string :=
  match s with
  | "" => match cur with [] => [] | _ => [str_of (reverse cur)] end
  | String c rest =>
      if bool_decide (c = LF) then str_of (reverse (c :: cur)) :: readlines_from [] rest
      else if bool_decide (c = CR) then
        match rest with
        | String c' rest' =>
            if bool_decide (c' = LF)
            then str_of (reverse (c' :: c :: cur)) :: readlines_from [] rest'
            else str_of (reverse (c :: cur)) :: readlines_from [] rest
        | "" => [str_of (reverse (c :: cur))]
        end
      else readlines_from (c :: cur) rest
  end.

Definition readlines (s : string) : list string := readlines_from [] s.

(** *** Reader: [csv.reader], the state machine of [_csv.c]

    The escape states are left out: the excel dialect has no escapechar,
    so they are never entered. *)
Inductive ParserState : Type :=
  | START_RECORD | START_FIELD | IN_FIELD
  | IN_QUOTED_FIELD | QUOTE_IN_QUOTED_FIELD | EAT_CRNL.

Global Instance ParserState_eq_dec : EqDecision ParserState.
Proof. solve_decision. Defined.

(** [csv.field_size_limit()] *)
Definition field_limit : N := 131072.

Record ReaderObj : Type := mkReader {
  state : ParserState;
  field : list ascii;       (* the field being read, last character first *)
  field_len : N;
  fields : list string;     (* the fields of the record, last field first *)
}.

(** [parse_reset] *)
Definition parse_reset : ReaderObj :=
  {| state := START_RECORD; field := []; field_len := 0; fields := [] |}.

Definition set_state (st : ParserState) (r : ReaderObj) : ReaderObj :=
  {| state := st; field := field r; field_len := field_len r; fields := fields r |}.

Definition parse_add_char (r : ReaderObj) (c : ascii) : result ReaderObj :=
  if (field_limit <=? field_len r)%N then Raise CsvError
  else Ok {| state := state r; field := c :: field r;
             field_len := N.succ (field_len r); fields := fields r |}.

Definition parse_save_field (r : ReaderObj) : ReaderObj :=
  {| state := state r; field := []; field_len := 0;
     fields := str_of (reverse (field r)) :: fields r |}.

Definition is_newline (c : ascii) : bool :=
  bool_decide (c = LF) || bool_decide (c = CR).

(** The [START_FIELD] case, also reached by falling through from
    [START_RECORD]. *)
Definition start_field (r : ReaderObj) (c : option ascii) : result ReaderObj :=
  match c with
  | None => Ok (set_state START_RECORD (parse_save_field r))
  | Some c =>
      if is_newline c then Ok (set_state EAT_CRNL (parse_save_field r))
      else if bool_decide (c = DQUOTE) then Ok (set_state IN_QUOTED_FIELD r)
      else if bool_decide (c = COMMA) then Ok (parse_save_field r)
      else set_state IN_FIELD <$> parse_add_char r c
  end.

(** [parse_process_char]; [None] is the [EOL] fed after every line. *)
Definition parse_process_char (r : ReaderObj) (c : option ascii) : result ReaderObj :=
  match state r with
  | START_RECORD =>
      match c with
      | None => Ok r
      | Some c' =>
          if is_newline c' then Ok (set_state EAT_CRNL r)
          else start_field (set_state START_FIELD r) c
      end
  | START_FIELD => start_field r c
  | IN_FIELD =>
      match c with
      | None => Ok (set_state START_RECORD (parse_save_field r))
      | Some c =>
          if is_newline c then Ok (set_state EAT_CRNL (parse_save_field r))
          else if bool_decide (c = COMMA) then Ok (set_state START_FIELD (parse_save_field r))
          else parse_add_char r c
      end
  | IN_QUOTED_FIELD =>
      match c with
      | None => Ok r
      | Some c =>
          if bool_decide (c = DQUOTE) then Ok (set_state QUOTE_IN_QUOTED_FIELD r)
          else parse_add_char r c
      end
  | QUOTE_IN_QUOTED_FIELD =>
      match c with
      | None => Ok (set_state START_RECORD (parse_save_field r))
      | Some c =>
          if bool_decide (c = DQUOTE) then set_state IN_QUOTED_FIELD <$> parse_add_char r c
          else if bool_decide (c = COMMA) then Ok (set_state START_FIELD (parse_save_field r))
          else if is_newline c then Ok (set_state EAT_CRNL (parse_save_field r))
          else set_state IN_FIELD <$> parse_add_char r c
      end
  | EAT_CRNL =>
      match c with
      | None => Ok (set_state START_RECORD r)
      | Some c => if is_newline c then Ok r else Raise CsvError
      end
  end.

(** The characters of one line, then [EOL]. *)
Fixpoint feed_chars (r : ReaderObj) (line : string) : result ReaderObj :=
  match line with
  | "" => Ok r
  | String c rest => r' ← parse_process_char r (Some c); feed_chars r' rest
  end.

Definition feed_line (r : ReaderObj) (line : string) : result ReaderObj :=
  r' ← feed_chars r line; parse_process_char r' None.

(** [Reader_iternext], called until the lines run out: a record is
    complete when the machine is back in [START_RECORD] after a line; at
    the end of the input a record left open inside quotes is closed. *)
Fixpoint read_records (r : ReaderObj) (lines : list string) : result (list (list string)) :=
  match lines with
  | [] =>
      if bool_decide (state r = IN_QUOTED_FIELD) || negb (field_len r =? 0)%N
      then Ok [reverse (fields (parse_save_field r))]
      else Ok []
  | l :: ls =>
      r' ← feed_line r l;
      if bool_decide (state r' = START_RECORD)
      then (reverse (fields r') ::.) <$> read_records parse_reset ls
      else read_records r' ls
  end.

(** [list(csv.reader(f))] on a file with this content. *)
Definition reader (content : string) : result (list (list string)) :=
  read_records parse_reset (readlines content).

End Csv.

(** ** The world of the program: terminal, files and clock *)

(** What [print] writes.  The texts of the messages are not kept, the
    values printed with them are. *)
Inductive printed : Type :=
  | Saved
  | BadDate | BadOptionalDate | BadDateEdit
  | BadAmount | BadAmountEdit
  | NoExpensesToDelete | NoExpensesToEdit | NoExpensesYet | NoMatchingExpenses
  | InvalidIndex | EnterANumber
  | DeletedLast (row : list string)
  | Deleted (row : list string)
  | Updated
  | Text (s : string)
  | Blank
  | OverallTotal (total : string)
  | NothingToExport
  | Exported (n : nat) (path : string).

Record world : Type := mkWorld {
  stdin : list string;            (* the lines still to be typed *)
  stdout : list printed;          (* what was printed, oldest first *)
  files : gmap string string;     (* the content of each file, by path *)
  clock : Date.datetime;          (* what the system clock shows *)
}.

Definition io (A : Type) : Type := world -> world * result A.

Definition ret {A} (a : A) : io A := fun w => (w, Ok a).
Definition raise {A} (e : exn) : io A := fun w => (w, Raise e).
Definition lift {A} (r : result A) : io A := fun w => (w, r).
Definition bind {A B} (m : io A) (k : A -> io B) : io B := fun w =>
  match m w with
  | (w', Ok a) => k a w'
  | (w', Raise e) => (w', Raise e)
  end.

Notation "x <- m ;; k" := (bind m (fun x => k))
  (at level 100, m at next level, right associativity).
Notation "m ;; k" := (bind m (fun _ => k))
  (at level 100, right associativity).

Definition print (p : printed) : io unit := fun w =>
  (mkWorld (stdin w) (stdout w ++ [p]) (files w) (clock w), Ok tt).

(** [input(prompt)]: the next line typed, without its line end.  The
    prompt is not recorded. *)
Definition input : io string := fun w =>
  match stdin w with
  | [] => (w, Raise EOFError)
  | l :: ls => (mkWorld ls (stdout w) (files w) (clock w), Ok l)
  end.

Definition now : io Date.datetime := fun w => (w, Ok (clock w)).

(** [open(path).read()] *)
Definition read_file (path : string) : io string := fun w =>
  match files w !! path with
  | Some content => (w, Ok content)
  | None => (w, Raise FileNotFoundError)
  end.

(** [open(path, "w").write(content)] *)
Definition write_file (path content : string) : io unit := fun w =>
  (mkWorld (stdin w) (stdout w) (<[path := content]> (files w)) (clock w), Ok tt).

(** [open(path, "a").write(content)] *)
Definition append_file (path content : string) : io unit := fun w =>
  (mkWorld (stdin w) (stdout w)
     (<[path := default "" (files w !! path) +:+ content]> (files w)) (clock w), Ok tt).

(** [while True: raw = input(...); try: return body(raw);
    except ValueError: print(msg)].  Every turn takes a line, so the loop
    is a recursion on the lines to come. *)
Fixpoint retry_lines {A} (body : string -> result A) (msg : printed)
    (lines : list string) (out : list printed) : list string * list printed * result A :=
  match lines with
  | [] => ([], out, Raise EOFError)
  | raw :: rest =>
      match body raw with
      | Raise ValueError => retry_lines body msg rest (out ++ [msg])
      | r => (rest, out, r)
      end
  end.

Definition retry {A} (body : string -> result A) (msg : printed) : io A := fun w =>
  let '(rest, out, r) := retry_lines body msg (stdin w) (stdout w) in
  (mkWorld rest out (files w) (clock w), r).

(** ** app.py *)

(** *** Paths and constants *)

Definition CSV_DIR : string := "data".
Definition REPORTS_DIR : string := CSV_DIR +:+ "/" +:+ "reports".
Definition CSV : string := CSV_DIR +:+ "/" +:+ "expenses.csv".
Definition HEADERS : list string := ["Date"; "Amount"; "Category"; "Description"].

(** *** Setup and utilities *)

(** The directories are not modelled: they are made here, before any
    file is opened. *)
Definition ensure_dirs_and_csv : io unit := fun w =>
  let need_header :=
    match files w !! CSV with
    | None => true
    | Some content => bool_decide (content = "")
    end in
  if need_header then write_file CSV (Csv.writerow HEADERS) w else (w, Ok tt).

Definition read_rows (include_header : bool) : io (list (list string)) :=
  ensure_dirs_and_csv ;;
  content <- read_file CSV ;;
  rows <- lift (Csv.reader content) ;;
  ret match rows with
      | r0 :: rest =>
          if negb include_header && bool_decide (r0 = HEADERS) then rest else rows
      | [] => rows
      end.

Definition write_rows (rows : list (list string)) : io unit :=
  write_file CSV (Csv.writerow HEADERS +:+ Csv.writerows rows).

Definition parse_iso_date (s : string) : result Date.date := Date.fromisoformat s.

Definition ask_date (default_today : bool) : io string := fun w =>
  retry (fun line =>
           let raw := strip line in
           if bool_decide (raw = "") && default_today
           then Ok (Date.isoformat (Date.on (clock w)))
           else Date.isoformat <$> parse_iso_date raw)
        BadDate w.

Definition ask_optional_date : io (option string) :=
  retry (fun line =>
           let raw := strip line in
           if bool_decide (raw = "") then Ok None
           else (fun d => Some (Date.isoformat d)) <$> parse_iso_date raw)
        BadOptionalDate.

Definition ask_amount : io Float.float :=
  retry (fun line => Float.round2 <$> Float.of_str (replace_comma (strip line)))
        BadAmount.

(** The value [input_with_default] makes of the line typed. *)
Definition with_default (default line : string) : string :=
  let raw := strip line in if bool_decide (raw = "") then default else raw.

Definition input_with_default (default : string) : io string :=
  line <- input ;; ret (with_default default line).

(** [except Exception] takes every failure of [float]. *)
Definition format_money (x : string) : string :=
  match Float.of_str x with
  | Ok v => Float.format_2f v
  | Raise _ => x
  end.

(** *** Table formatting *)

Definition ljust (w : nat) (s : string) : string :=
  s +:+ str_of (replicate (w - String.length s) " "%char).

(** The widths of the columns of the transposed rows: as many columns
    as the shortest row has. *)
Fixpoint col_widths (all_rows : list (list string)) : list nat :=
  match all_rows with
  | [] => []
  | [r] => String.length <$> r
  | r :: rs => zip_with Nat.max (String.length <$> r) (col_widths rs)
  end.

Definition _format_table_generic (all_rows : list (list string)) : string :=
  match all_rows with
  | [] => ""
  | r0 :: rs =>
      let widths := col_widths all_rows in
      let fmt_row (row : list string) : string :=
        str_join " | " (zip_with (fun c w => ljust w c) row widths) in
      let line := str_join "-+-" ((fun w => str_of (replicate w "-"%char)) <$> widths) in
      str_join (String LF "") (fmt_row r0 :: line :: (fmt_row <$> rs))
  end.

(** [r = r[:]; r[1] = format_money(r[1])] *)
Definition money_row (r : list string) : result (list string) :=
  match r !! 1%nat with
  | Some amt => Ok (<[1%nat := format_money amt]> r)
  | None => Raise IndexError
  end.

Definition format_expense_table (rows : list (list string)) (show_index : bool)
    : result string :=
  match rows with
  | [] => Ok "No expenses yet."
  | _ =>
      let header := (if show_index then ["#"] else []) ++ HEADERS in
      body ← mapM (fun '(idx, r) =>
                     r' ← money_row r;
                     Ok ((if show_index then [dec (Z.of_nat idx)] else []) ++ r'))
                  (zip (seq 0 (length rows)) rows);
      Ok (_format_table_generic (header :: body))
  end.

(** *** Core actions *)

(** The writer applies [str] to the amount, which is a float. *)
Definition add_expense : io unit :=
  date <- ask_date true ;;
  amt <- ask_amount ;;
  c <- input ;;
  let cat := if bool_decide (strip c = "") then "General" else strip c in
  d <- input ;;
  let desc := strip d in
  append_file CSV (Csv.writerow [date; Float.repr amt; cat; desc]) ;;
  print Saved.

Definition delete_last_entry : io unit :=
  rows <- read_rows false ;;
  match last rows with
  | None => print NoExpensesToDelete
  | Some l =>
      write_rows (removelast rows) ;;
      print (DeletedLast l)
  end.

(** [int(input(...).strip())] and the check of the range, under
    [try ... except ValueError]; [None] stands for the early return. *)
Definition ask_index (len : nat) : io (option nat) :=
  line <- input ;;
  match int_of_str (strip line) with
  | Raise ValueError => print EnterANumber ;; ret None
  | Raise e => raise e
  | Ok idx =>
      if (idx <? 0)%Z || (Z.of_nat len <=? idx)%Z
      then print InvalidIndex ;; ret None
      else ret (Some (Z.to_nat idx))
  end.

Definition delete_by_index : io unit :=
  rows <- read_rows false ;;
  match rows with
  | [] => print NoExpensesToDelete
  | _ =>
      table <- lift (format_expense_table rows true) ;;
      print (Text table) ;;
      i <- ask_index (length rows) ;;
      match i with
      | None => ret tt
      | Some idx =>
          match rows !! idx with
          | None => raise IndexError
          | Some deleted =>
              write_rows (delete idx rows) ;;
              print (Deleted deleted)
          end
      end
  end.

Definition edit_by_index : io unit :=
  rows <- read_rows false ;;
  match rows with
  | [] => print NoExpensesToEdit
  | _ =>
      table <- lift (format_expense_table rows true) ;;
      print (Text table) ;;
      i <- ask_index (length rows) ;;
      match i with
      | None => ret tt
      | Some idx =>
          match rows !! idx with
          | None => raise IndexError
          | Some [date; amt; cat; desc] =>
              new_date <- retry (fun line =>
                                   let v := with_default date line in
                                   parse_iso_date v ≫= fun _ => Ok v)
                                BadDateEdit ;;
              new_amt <- retry (fun line =>
                                  let amt_raw := replace_comma (with_default (format_money amt) line) in
                                  (fun x => Float.format_2f (Float.round2 x)) <$> Float.of_str amt_raw)
                               BadAmountEdit ;;
              new_cat <- input_with_default (if bool_decide (cat = "") then "General" else cat) ;;
              new_desc <- input_with_default desc ;;
              write_rows (<[idx := [new_date; new_amt; new_cat; new_desc]]> rows) ;;
              print Updated
          | Some _ => raise ValueError
          end
      end
  end.

(** *** Filters and views *)

(** A criterion that is [None] or the empty string is not truthy. *)
Definition truthy (o : option string) : bool :=
  match o with
  | Some s => negb (bool_decide (s = ""))
  | None => false
  end.

Definition in_range (start_date end_date : option string) (d : string) : bool :=
  let ok_start := match start_date with None => true | Some s => String.leb s d end in
  let ok_end := match end_date with None => true | Some e => String.leb d e end in
  ok_start && ok_end.

Fixpoint filter_rows (rows : list (list string))
    (category start_date end_date text : option string) : result (list (list string)) :=
  match rows with
  | [] => Ok []
  | r :: rest =>
      match r with
      | [d; amt; cat; desc] =>
          if truthy category
             && negb (bool_decide (lower cat = lower (default "" category)))
          then filter_rows rest category start_date end_date text
          else if negb (in_range start_date end_date d)
          then filter_rows rest category start_date end_date text
          else if truthy text
                  && negb (contains (lower (default "" text)) (lower (str_join " " r)))
          then filter_rows rest category start_date end_date text
          else (r ::.) <$> filter_rows rest category start_date end_date text
      | _ => Raise ValueError
      end
  end.

(** [s or None] *)
Definition or_none (s : string) : option string :=
  if bool_decide (s = "") then None else Some s.

Definition view_expenses : io (list (list string)) :=
  rows <- read_rows false ;;
  match rows with
  | [] => print NoExpensesYet ;; ret []
  | _ =>
      yn <- input ;;
      criteria <-
        (if bool_decide (lower (strip yn) = "y") then
           cat_in <- input ;;
           sdate <- ask_optional_date ;;
           edate <- ask_optional_date ;;
           text_in <- input ;;
           ret (or_none (strip cat_in), sdate, edate, or_none (strip text_in))
         else ret (None, None, None, None)) ;;
      let '(cat, sdate, edate, text) := criteria in
      rows <- lift (filter_rows rows cat sdate edate text) ;;
      match rows with
      | [] => print NoMatchingExpenses ;; ret []
      | _ =>
          table <- lift (format_expense_table rows true) ;;
          print (Text table) ;;
          print Blank ;;
          ret rows
      end
  end.

(** *** Summaries *)

(** The loop of the three summaries: [key] picks the group from the date
    and the category.  A row that is not of four cells fails the
    unpacking, outside the [try]. *)
Fixpoint group_totals (key : string -> string -> string)
    (totals : gmap string Float.float) (rows : list (list string))
    : result (gmap string Float.float) :=
  match rows with
  | [] => Ok totals
  | [date; amt; cat; desc] :: rest =>
      let k := key date cat in
      match Float.of_str amt with
      | Ok x =>
          group_totals key
            (<[k := Float.add (default Float.zero (totals !! k)) x]> totals) rest
      | Raise ValueError => group_totals key totals rest
      | Raise e => Raise e
      end
  | _ :: _ => Raise ValueError
  end.

(** The lines of a summary: every key of [sorted(totals)] with its
    total in the [.2f] format. *)
Definition total_lines (totals : gmap string Float.float) : list (list string) :=
  (fun k => [k; Float.format_2f (default Float.zero (totals !! k))])
    <$> merge_sort String.le (map_to_list totals).*1.

Definition summarize (key : string -> string -> string) (header : list string) : io unit :=
  rows <- read_rows false ;;
  match rows with
  | [] => print NoExpensesYet
  | _ =>
      totals <- lift (group_totals key ∅ rows) ;;
      print (Text (_format_table_generic (header :: total_lines totals))) ;;
      print Blank
  end.

(** The key of each summary: [cat], [date] and [(date or "")[:7]]. *)
Definition by_category (date cat : string) : string := cat.
Definition by_date (date cat : string) : string := date.
Definition by_month (date cat : string) : string := take_str 7 date.

Definition summarize_by_category : io unit :=
  summarize by_category ["Category"; "Total"].

Definition summarize_by_date : io unit :=
  summarize by_date ["Date"; "Total"].

Definition summarize_by_month : io unit :=
  summarize by_month ["Month (YYYY-MM)"; "Total"].

Fixpoint grand_total (total : Float.float) (rows : list (list string)) : result Float.float :=
  match rows with
  | [] => Ok total
  | [date; amt; cat; desc] :: rest =>
      match Float.of_str amt with
      | Ok x => grand_total (Float.add total x) rest
      | Raise ValueError => grand_total total rest
      | Raise e => Raise e
      end
  | _ :: _ => Raise ValueError
  end.

Definition show_total : io unit :=
  rows <- read_rows false ;;
  match rows with
  | [] => print NoExpensesYet
  | _ =>
      total <- lift (grand_total Float.zero rows) ;;
      print (OverallTotal (Float.format_2f total))
  end.

(** *** Export *)

Definition export_path (t : Date.datetime) : string :=
  REPORTS_DIR +:+ "/" +:+ Date.strftime t +:+ "_export.csv".

Definition export_rows (rows : list (list string)) : io unit :=
  match rows with
  | [] => print NothingToExport
  | _ =>
      t <- now ;;
      let path := export_path t in
      write_file path (Csv.writerow HEADERS +:+ Csv.writerows rows) ;;
      print (Exported (length rows) path)
  end.

(** *** Main menu *)

Definition MENU : list string :=
  ["1) Add expense";
   "2) View expenses (with optional filters)";
   "3) Summary by category";
   "4) Summary by date";
   "5) Summary by month";
   "6) Show total of all expenses";
   "7) Edit entry by index";
   "8) Delete entry by index";
   "9) Delete last entry (undo)";
   "10) Export last viewed rows";
   "11) Quit"].

Definition TIP : string :=
  "Tip: choose 'View expenses' first to select what to export." +:+ String LF "".

(** The dash of this message is not a character below 256; it stands
    here as the bytes of its UTF-8 form. *)
Definition TRY_AGAIN : string := "Try 1–11." +:+ String LF "".

Fixpoint print_lines (lines : list string) : io unit :=
  match lines with
  | [] => ret tt
  | l :: ls => print (Text l) ;; print_lines ls
  end.

(** One turn of the loop of [main], from the menu to the end of the
    branch taken: [None] stands for [break], [Some last_view] for the
    next turn with that [last_view]. *)
Definition turn (last_view : list (list string)) : io (option (list (list string))) :=
  print_lines MENU ;;
  line <- input ;;
  let choice := strip line in
  if bool_decide (choice = "1") then add_expense ;; ret (Some last_view)
  else if bool_decide (choice = "2") then rows <- view_expenses ;; ret (Some rows)
  else if bool_decide (choice = "3") then summarize_by_category ;; ret (Some last_view)
  else if bool_decide (choice = "4") then summarize_by_date ;; ret (Some last_view)
  else if bool_decide (choice = "5") then summarize_by_month ;; ret (Some last_view)
  else if bool_decide (choice = "6") then show_total ;; ret (Some last_view)
  else if bool_decide (choice = "7") then edit_by_index ;; ret (Some last_view)
  else if bool_decide (choice = "8") then delete_by_index ;; ret (Some last_view)
  else if bool_decide (choice = "9") then delete_last_entry ;; ret (Some last_view)
  else if bool_decide (choice = "10") then
    (match last_view with [] => print (Text TIP) | _ => ret tt end) ;;
    export_rows last_view ;; ret (Some last_view)
  else if bool_decide (choice = "11") then ret None
  else print (Text TRY_AGAIN) ;; ret (Some last_view).

(** [while True]: at most [turns] turns of the loop; [None] when the
    loop has not ended by then.  The clock of the world stands still
    during a run. *)
Fixpoint main_loop (turns : nat) (last_view : list (list string)) (w : world)
    : option (world * result unit) :=
  match turns with
  | O => None
  | S turns' =>
      match turn last_view w with
      | (w', Ok (Some last_view')) => main_loop turns' last_view' w'
      | (w', Ok None) => Some (w', Ok tt)
      | (w', Raise e) => Some (w', Raise e)
      end
  end.

(** Every turn takes a line, so the loop has ended after one turn more
    than there are lines to come. *)
Definition main (w : world) : option (world * result unit) :=
  match ensure_dirs_and_csv w with
  | (w', Ok _) => main_loop (S (length (stdin w'))) [] w'
  | (w', Raise e) => Some (w', Raise e)
  end.

(** * Vocabulary of the statements and proofs *)

Import Csv.

(** ** The reader, character by character *)

Definition starts_with_LF (s : string) : bool :=
  match s with String c _ => bool_decide (c = LF) | "" => false end.

(** Whether a line ends after [c] when [rest] follows. *)
Definition line_ends (c : ascii) (rest : string) : bool :=
  bool_decide (c = LF)
  || bool_decide (c = CR) && negb (starts_with_LF rest)
  || bool_decide (rest = "").

(** What [read_records] does once a line has been fed. *)
Definition after_line (r : ReaderObj) (k : ReaderObj -> result (list (list string)))
    : result (list (list string)) :=
  r' ← parse_process_char r None;
  if bool_decide (state r' = START_RECORD)
  then (reverse (fields r') ::.) <$> k parse_reset
  else k r'.

Fixpoint scan (r : ReaderObj) (s : string) : result (list (list string)) :=
  match s with
  | "" => read_records r []
  | String c rest =>
      r1 ← parse_process_char r (Some c);
      if line_ends c rest then after_line r1 (fun r2 => scan r2 rest)
      else scan r1 rest
  end.

Definition fits (f : string) : Prop := (N.of_nat (String.length f) <= field_limit)%N.

(** A reader that has read the field [f] and has yet to save it; [fs] are
    the fields before it, last first. *)
Definition holds (r : ReaderObj) (f : string) (fs : list string) : Prop :=
  fields r = fs /\ str_of (reverse (field r)) = f
  /\ (state r = IN_FIELD \/ state r = QUOTE_IN_QUOTED_FIELD
      \/ state r = START_FIELD \/ state r = START_RECORD).

(** What follows the first field of a record: for each further field a
    comma and the field, then the line terminator. *)
Fixpoint tail_text (row : list string) : string :=
  match row with
  | [] => lineterminator
  | g :: row' => String COMMA (join_append g +:+ tail_text row')
  end.

Definition reader_inv (r : ReaderObj) : Prop :=
  field_len r = N.of_nat (length (field r))
  /\ (field_len r <= field_limit)%N
  /\ Forall fits (fields r).

(** ** The store *)

Definition with_files (fs : gmap string string) (w : world) : world :=
  mkWorld (stdin w) (stdout w) fs (clock w).

Definition with_stdout (out : list printed) (w : world) : world :=
  mkWorld (stdin w) out (files w) (clock w).

(** The content [write_rows] gives the file. *)
Definition serialize (rows : list (list string)) : string :=
  writerow HEADERS +:+ writerows rows.

(** The file system [read_rows] leaves, and the rows it returns. *)
Definition ensured (fs : gmap string string) : gmap string string :=
  match fs !! CSV with
  | Some (String _ _) => fs
  | _ => <[CSV := writerow HEADERS]> fs
  end.

Definition strip_header (rows : list (list string)) : list (list string) :=
  match rows with
  | r0 :: rest => if bool_decide (r0 = HEADERS) then rest else rows
  | [] => rows
  end.

Definition loaded (fs : gmap string string) : result (list (list string)) :=
  match ensured fs !! CSV with
  | Some content => strip_header <$> reader content
  | None => Raise FileNotFoundError
  end.

(** A long text, and a world to run the examples in. *)
Definition long_text (n : N) : string := str_of (replicate (N.to_nat n) "x"%char).

Definition noon : Date.datetime := Date.mkDatetime (Date.mkDate 2025 1 5) 12 0 0 0.

Definition empty_world : world := mkWorld [] [] ∅ noon.

(** A description with commas, quotes and line ends in it. *)
Definition awkward : string :=
  "a,b " +:+ String DQUOTE ("q" +:+ String DQUOTE (String CR (String LF "z" +:+ String LF ""))).

(** ** The filter *)

(** The criteria as the specification words them: every criterion that is
    given must hold. *)
Definition satisfies_stated (category start_date end_date text : option string)
    (r : list string) : bool :=
  match r with
  | [d; amt; cat; desc] =>
      match category with
      | Some c => bool_decide (lower cat = lower c)
      | None => true
      end
      && match start_date with Some s => String.leb s d | None => true end
      && match end_date with Some e => String.leb d e | None => true end
      && match text with
         | Some t => contains (lower t) (lower (str_join " " r))
         | None => true
         end
  | _ => false
  end.

(** The same, with an empty category counted as no criterion. *)
Definition satisfies (category start_date end_date text : option string)
    (r : list string) : bool :=
  satisfies_stated (category ≫= or_none) start_date end_date text r.

Definition four_cells (r : list string) : Prop := length r = 4%nat.

Definition lunch : list string := ["2025-01-05"; "12.50"; "Food"; "lunch"].
Definition bus_pass : list string := ["2025-01-20"; "40.00"; "Transport"; "bus pass"].
Definition snack : list string := ["2025-02-01"; "9.99"; "Food"; "snack"].
Definition scenario : list (list string) := [lunch; bus_pass; snack].

(** ** The summaries *)

(** Whether the amount of a row can be read as a number. *)
Definition amount_parses (r : list string) : bool :=
  match r with
  | [_; amt; _; _] => match Float.of_str amt with Ok _ => true | Raise _ => false end
  | _ => false
  end.

(** What a summary prints for the rows it read. *)
Definition summary_output (key : string -> string -> string) (header : list string)
    (rows : list (list string)) : result (list printed) :=
  match rows with
  | [] => Ok [NoExpensesYet]
  | _ =>
      totals ← group_totals key ∅ rows;
      Ok [Text (_format_table_generic (header :: total_lines totals)); Blank]
  end.

Definition total_output (rows : list (list string)) : result (list printed) :=
  match rows with
  | [] => Ok [NoExpensesYet]
  | _ => total ← grand_total Float.zero rows; Ok [OverallTotal (Float.format_2f total)]
  end.

(** The scenario of the specification, typed in at the prompts of
    [add_expense]. *)
Definition typed_scenario : list string :=
  ["2025-01-05"; "12.50"; "Food"; "lunch";
   "2025-01-20"; "40.00"; "Transport"; "bus pass";
   "2025-02-01"; "9.99"; "Food"; "snack"].

Definition scenario_world : world :=
  ((ensure_dirs_and_csv ;; add_expense ;; add_expense ;; add_expense)
     (mkWorld typed_scenario [] ∅ noon)).1.

(** ** Deleting and editing *)

(** A row the table of expenses can show: it has an amount to format. *)
Definition two_cells (r : list string) : Prop := (2 <= length r)%nat.

(** The world after [read_rows]. *)
Definition opened (w : world) : world := with_files (ensured (files w)) w.

(** The world after a line was typed. *)
Definition typed (rest : list string) (w : world) : world :=
  mkWorld rest (stdout w) (files w) (clock w).

(** The record [edit_by_index] makes of the old date, category and
    description, the answers to the four prompts and the amount [x] read
    from the second answer, when the date and the amount are accepted at
    once. *)
Definition edited (date cat desc : string) (d c e : string) (x : Float.float)
    : list string :=
  [with_default date d;
   Float.format_2f (Float.round2 x);
   with_default (if bool_decide (cat = "") then "General" else cat) c;
   with_default desc e].

(** The scenario with the answers of one run typed in. *)
Definition scenario_typing (answers : list string) : world :=
  (write_rows scenario (mkWorld answers [] ∅ noon)).1.

(** ** The export *)

(** A time the system clock can show, with a year of four digits. *)
Definition wall_clock (t : Date.datetime) : Prop :=
  1000 <= Date.year (Date.on t) <= 9999
  /\ 1 <= Date.month (Date.on t) <= 12
  /\ 1 <= Date.day (Date.on t) <= 31
  /\ 0 <= Date.hour t <= 23
  /\ 0 <= Date.minute t <= 59
  /\ 0 <= Date.second t <= 59.

(** A time to the second. *)
Definition to_the_second (t : Date.datetime) : list Z :=
  [Date.year (Date.on t); Date.month (Date.on t); Date.day (Date.on t);
   Date.hour t; Date.minute t; Date.second t].

(** The order of times to the second: the first difference decides. *)
Fixpoint lex_compare (k1 k2 : list Z) : comparison :=
  match k1, k2 with
  | [], [] => Eq
  | [], _ :: _ => Lt
  | _ :: _, [] => Gt
  | x :: k1', y :: k2' =>
      match x ?= y with
      | Eq => lex_compare k1' k2'
      | c => c
      end
  end.

(** The two digits of a number below 100. *)
Definition digit (k : Z) : ascii := ascii_of_N (Z.to_N (48 + k)).
Definition two_digits (n : Z) : string :=
  String (digit (n / 10)) (String (digit (n mod 10)) "").

(** ** The prompts *)

(** A line the prompt for an amount does not take. *)
Definition not_an_amount (line : string) : Prop :=
  Float.of_str (replace_comma (strip line)) = Raise ValueError.

(** A line the prompt for a date does not take. *)
Definition not_a_date (line : string) : Prop :=
  strip line <> "" /\ parse_iso_date (strip line) = Raise ValueError.

(** The world after the prompt has turned down [n] lines with the
    message [msg] and taken the next one. *)
Definition answered (n : nat) (msg : printed) (rest : list string) (w : world) : world :=
  mkWorld rest (stdout w ++ replicate n msg) (files w) (clock w).

(** ** Dates *)

(** A date the constructor of [datetime.date] takes. *)
Definition valid_date (d : Date.date) : Prop := Date.check_date d = Some d.

(** ** The store as the program writes it *)

(** The file of the store holds the header and [rows], as [write_rows]
    writes them. *)
Definition stored (rows : list (list string)) (fs : gmap string string) : Prop :=
  fs !! CSV = Some (serialize rows).

(** What [ask_date] makes of a line on the day [t]. *)
Definition date_taken (t : Date.datetime) (line : string) : result string :=
  if bool_decide (strip line = "") then Ok (Date.isoformat (Date.on t))
  else Date.isoformat <$> parse_iso_date (strip line).

(** What [add_expense] makes of the line typed for the category. *)
Definition category_taken (line : string) : string :=
  if bool_decide (strip line = "") then "General" else strip line.

(** The record [add_expense] writes for a date, an amount and the
    lines typed for the category and the description. *)
Definition added (date : string) (x : Float.float) (c d : string) : list string :=
  [date; Float.repr (Float.round2 x); category_taken c; strip d].

(** ** Amounts as [edit_by_index] writes them *)

(** An amount with exactly two digits after the point. *)
Definition two_decimals (s : string) : Prop :=
  exists whole n, 0 <= n < 100 /\ s = whole +:+ "." +:+ two_digits n.

(** ** Tables *)

(** The cells of [row] are there for every column and are no wider than
    the columns. *)
Definition within (row : list string) (widths : list nat) : Prop :=
  forall j w, widths !! j = Some w ->
    exists c, row !! j = Some c /\ (String.length c <= w)%nat.

(** The length of cells of the lengths [lens] joined by a separator of
    length [sep]. *)
Fixpoint join_width (sep : nat) (lens : list nat) : nat :=
  match lens with
  | [] => 0
  | [a] => a
  | a :: rest => a + sep + join_width sep rest
  end.

(** ** Dates in order *)

(** The date [a] is [b] or before it. *)
Definition on_or_before (a b : Date.date) : Prop :=
  Date.year a < Date.year b
  \/ (Date.year a = Date.year b
      /\ (Date.month a < Date.month b
          \/ (Date.month a = Date.month b /\ Date.day a <= Date.day b))).

(** ** The view *)

(** What [ask_optional_date] makes of a line. *)
Definition optional_date_taken (line : string) : result (option string) :=
  if bool_decide (strip line = "") then Ok None
  else (fun d => Some (Date.isoformat d)) <$> parse_iso_date (strip line).

(** ** The groups of a summary *)

(** The row is of the group [k] of the summary by [key]. *)
Definition in_group (key : string -> string -> string) (k : string) (r : list string)
    : Prop :=
  match r with
  | [date; _; cat; _] => key date cat = k
  | _ => False
  end.

Global Instance in_group_dec key k r : Decision (in_group key k r).
Proof. destruct r as [|d [|amt [|cat [|desc [|? ?]]]]]; cbn; apply _. Defined.

(** The key of a line of a summary: its first cell. *)
Definition line_key (line : list string) : string := default "" (head line).

(** ** The menu *)

(** The action takes lines from the input, in their order, and puts
    none back. *)
Definition reads_on {A} (m : io A) : Prop :=
  forall w, stdin (m w).1 `suffix_of` stdin w.

(** The choices of the menu. *)
Definition choices : list string :=
  ["1"; "2"; "3"; "4"; "5"; "6"; "7"; "8"; "9"; "10"; "11"].

(** ** A store the program can work on *)

(** The file of the store holds the header and records of four fields,
    as the program writes them. *)
Definition well_formed (fs : gmap string string) : Prop :=
  exists rows, stored rows fs /\ Forall four_cells rows.

(** Nothing is raised, or the end of the input, or the error of the csv
    reader. *)
Definition harmless {A} (r : result A) : Prop :=
  match r with
  | Ok _ => True
  | Raise e => e = EOFError \/ e = CsvError
  end.

(** The action leaves a well-formed store well-formed and raises
    nothing for the shape of a row. *)
Definition keeps_store {A} (m : io A) : Prop :=
  forall w, well_formed (files w) ->
    well_formed (files (m w).1) /\ harmless (m w).2.

(** * Facts about the library models *)

(** ** Strings *)

Lemma str_app_nil_l (s : string) : "" +:+ s = s.
Proof. reflexivity. Qed.

Lemma str_app_cons (c : ascii) (s t : string) : String c s +:+ t = String c (s +:+ t).
Proof. reflexivity. Qed.

Lemma str_app_nil_r (s : string) : s +:+ "" = s.
Proof. induction s as [|c s IH]; [done|]. by rewrite str_app_cons, IH. Qed.

Lemma str_app_assoc (s t u : string) : (s +:+ t) +:+ u = s +:+ (t +:+ u).
Proof. induction s as [|c s IH]; [done|]. by rewrite !str_app_cons, IH. Qed.

Lemma str_of_app (l k : list ascii) : str_of (l ++ k) = str_of l +:+ str_of k.
Proof. unfold str_of. induction l as [|c l IH]; [done|]. cbn. by rewrite IH. Qed.

Lemma str_of_chars (s : string) : str_of (chars s) = s.
Proof. apply string_of_list_ascii_of_string. Qed.

Lemma length_str_of (l : list ascii) : String.length (str_of l) = length l.
Proof. unfold str_of. induction l as [|c l IH]; [done|]. cbn. by rewrite IH. Qed.

Lemma length_chars (s : string) : length (chars s) = String.length s.
Proof. unfold chars. induction s as [|c s IH]; [done|]. cbn. by rewrite IH. Qed.

Lemma str_of_rev_chars (s : string) : str_of (reverse (reverse (chars s))) = s.
Proof. by rewrite reverse_involutive, str_of_chars. Qed.

Lemma str_of_rev_chars_app (s : string) (buf : list ascii) :
  str_of (reverse (reverse (chars s) ++ buf)) = str_of (reverse buf) +:+ s.
Proof. by rewrite reverse_app, reverse_involutive, str_of_app, str_of_chars. Qed.

(** ** Reading line by line is scanning the characters *)

Lemma feed_chars_snoc r l c :
  feed_chars r (str_of (l ++ [c]))
  = feed_chars r (str_of l) ≫= fun r' => parse_process_char r' (Some c).
Proof.
  unfold str_of. revert r. induction l as [|a l IH]; intros r; cbn.
  - by destruct (parse_process_char r (Some c)).
  - destruct (parse_process_char r (Some a)); cbn; [apply IH|done].
Qed.

Lemma read_records_cons r line ls :
  read_records r (line :: ls)
  = feed_chars r line ≫= fun r' => after_line r' (fun r2 => read_records r2 ls).
Proof.
  cbn. unfold feed_line. destruct (feed_chars r line); cbn; [|done].
  unfold after_line. by destruct (parse_process_char a None).
Qed.

(** Reading the lines of [s], after the part [cur] of the first line, is
    scanning [s] from the state that [cur] leads to. *)
Ltac line_ends_is b :=
  match goal with
  | |- context [line_ends ?c ?rest] =>
      replace (line_ends c rest) with b
        by (unfold line_ends, starts_with_LF;
            repeat (case_bool_decide; simplify_eq/=); done)
  end.

Lemma read_records_scan s : forall cur r,
  read_records r (readlines_from cur s)
  = feed_chars r (str_of (reverse cur)) ≫= fun r' =>
      match s, cur with
      | "", _ :: _ => after_line r' (fun r2 => read_records r2 [])
      | _, _ => scan r' s
      end.
Proof.
  induction s as [|c rest IH]; intros cur r.
  - destruct cur as [|a cur]; [done|].
    change (readlines_from (a :: cur) "") with [str_of (reverse (a :: cur))].
    by rewrite read_records_cons.
  - cbn [readlines_from].
    assert (Hline : forall ls (k : ReaderObj -> result (list (list string))),
      (forall r2, read_records r2 ls = k r2) ->
      read_records r (str_of (reverse (c :: cur)) :: ls)
      = feed_chars r (str_of (reverse cur)) ≫= fun r' =>
          parse_process_char r' (Some c) ≫= fun r1 => after_line r1 k).
    { intros ls k Hk. rewrite read_records_cons. rewrite reverse_cons.
      rewrite feed_chars_snoc.
      destruct (feed_chars r (str_of (reverse cur))) as [r'|]; cbn; [|done].
      destruct (parse_process_char r' (Some c)) as [r1|]; cbn; [|done].
      unfold after_line. destruct (parse_process_char r1 None) as [r2|]; cbn; [|done].
      rewrite !Hk. done. }
    assert (Hnil : forall r2, read_records r2 (readlines_from [] rest) = scan r2 rest).
    { intros r2. rewrite IH. cbn. by destruct rest. }
    assert (Hgoal : forall b,
      line_ends c rest = b ->
      feed_chars r (str_of (reverse cur))
      ≫= (fun r' => parse_process_char r' (Some c) ≫= fun r1 =>
            if b then after_line r1 (fun r2 => scan r2 rest) else scan r1 rest)
      = feed_chars r (str_of (reverse cur)) ≫= fun r' =>
          match String c rest, cur with
          | "", _ :: _ => after_line r' (fun r2 => read_records r2 [])
          | _, _ => scan r' (String c rest)
          end).
    { intros b <-. destruct (feed_chars r (str_of (reverse cur))) as [r'|]; [|done].
      cbn [mbind result_bind scan]. by destruct cur. }
    case_bool_decide as HLF.
    { rewrite (Hline _ (fun r2 => scan r2 rest)) by done.
      apply (Hgoal true). by line_ends_is true. }
    case_bool_decide as HCR.
    + destruct rest as [|c' rest'].
      * rewrite (Hline [] (fun r2 => scan r2 "")) by done.
        apply (Hgoal true). by line_ends_is true.
      * case_bool_decide as HLF'.
        -- specialize (IH (c :: cur) r). cbn [readlines_from] in IH.
           rewrite bool_decide_true in IH by done. rewrite IH.
           rewrite reverse_cons. rewrite feed_chars_snoc.
           rewrite <- (Hgoal false) by (symmetry; by line_ends_is false).
           by destruct (feed_chars r (str_of (reverse cur))).
        -- rewrite (Hline _ (fun r2 => scan r2 (String c' rest'))) by done.
           apply (Hgoal true). by line_ends_is true.
    + destruct rest as [|c' rest'].
      * change (readlines_from (c :: cur) "") with [str_of (reverse (c :: cur))].
        rewrite (Hline [] (fun r2 => scan r2 "")) by done.
        apply (Hgoal true). by line_ends_is true.
      * rewrite IH. rewrite reverse_cons. rewrite feed_chars_snoc.
        rewrite <- (Hgoal false) by (symmetry; by line_ends_is false).
        by destruct (feed_chars r (str_of (reverse cur))).
Qed.

Lemma reader_scan content : reader content = scan parse_reset content.
Proof.
  unfold reader, readlines. rewrite read_records_scan. cbn. by destruct content.
Qed.

(** ** What the reader makes of what the writer wrote *)

Lemma scan_cons r c rest :
  scan r (String c rest)
  = parse_process_char r (Some c) ≫= fun r1 =>
      if line_ends c rest then after_line r1 (fun r2 => scan r2 rest) else scan r1 rest.
Proof. reflexivity. Qed.

Lemma special_false c :
  special c = false ->
  is_newline c = false /\ bool_decide (c = DQUOTE) = false /\ bool_decide (c = COMMA) = false.
Proof.
  unfold special, is_newline. repeat case_bool_decide; simplify_eq/=; done.
Qed.

Lemma line_ends_plain c rest :
  is_newline c = false -> rest <> "" -> line_ends c rest = false.
Proof.
  unfold is_newline, line_ends. intros ??.
  repeat case_bool_decide; simplify_eq/=; done.
Qed.

Lemma parse_add_char_ok r c :
  field_len r = N.of_nat (length (field r)) ->
  (N.of_nat (S (length (field r))) <= field_limit)%N ->
  parse_add_char r c
  = Ok (mkReader (state r) (c :: field r) (N.of_nat (length (c :: field r))) (fields r)).
Proof.
  intros Hlen Hfit. unfold parse_add_char. rewrite Hlen.
  destruct (N.leb_spec field_limit (N.of_nat (length (field r)))); [lia|].
  do 2 f_equal. cbn [length]. lia.
Qed.

(** Characters that need no quotes, inside a field. *)
Lemma scan_plain f : forall buf fs rest,
  needs_quotes f = false ->
  (N.of_nat (length buf + String.length f) <= field_limit)%N ->
  rest <> "" ->
  scan (mkReader IN_FIELD buf (N.of_nat (length buf)) fs) (f +:+ rest)
  = scan (mkReader IN_FIELD (reverse (chars f) ++ buf)
            (N.of_nat (length (reverse (chars f) ++ buf))) fs) rest.
Proof.
  induction f as [|c f IH]; intros buf fs rest Hq Hfit Hrest; [done|].
  unfold needs_quotes in Hq. cbn in Hq. apply orb_false_elim in Hq as [Hc Hq].
  apply special_false in Hc as (Hnl & Hdq & Hco).
  rewrite str_app_cons, scan_cons.
  unfold parse_process_char. cbn [state]. rewrite Hnl, Hco.
  rewrite parse_add_char_ok by (cbn in *; lia). cbn [mbind result_bind state field fields].
  rewrite line_ends_plain; [|done|by destruct f].
  rewrite IH; [|done|cbn in *; lia|done].
  cbn [chars list_ascii_of_string]. by rewrite reverse_cons, <- app_assoc.
Qed.

Lemma step_quoted_close buf n fs :
  parse_process_char (mkReader IN_QUOTED_FIELD buf n fs) (Some DQUOTE)
  = Ok (mkReader QUOTE_IN_QUOTED_FIELD buf n fs).
Proof. reflexivity. Qed.

Lemma step_quoted_char buf fs c :
  c <> DQUOTE ->
  (N.of_nat (S (length buf)) <= field_limit)%N ->
  parse_process_char (mkReader IN_QUOTED_FIELD buf (N.of_nat (length buf)) fs) (Some c)
  = Ok (mkReader IN_QUOTED_FIELD (c :: buf) (N.of_nat (length (c :: buf))) fs).
Proof.
  intros Hc Hfit. unfold parse_process_char. cbn [state].
  rewrite bool_decide_false by done. by rewrite parse_add_char_ok.
Qed.

Lemma step_quoted_quote buf fs :
  (N.of_nat (S (length buf)) <= field_limit)%N ->
  parse_process_char (mkReader QUOTE_IN_QUOTED_FIELD buf (N.of_nat (length buf)) fs)
    (Some DQUOTE)
  = Ok (mkReader IN_QUOTED_FIELD (DQUOTE :: buf) (N.of_nat (length (DQUOTE :: buf))) fs).
Proof.
  intros Hfit. unfold parse_process_char. cbn [state].
  rewrite bool_decide_true by done. by rewrite parse_add_char_ok.
Qed.

(** An end of line inside quotes changes nothing. *)
Lemma after_line_quoted buf n fs k :
  after_line (mkReader IN_QUOTED_FIELD buf n fs) k = k (mkReader IN_QUOTED_FIELD buf n fs).
Proof. reflexivity. Qed.

Lemma if_same {A} (b : bool) (x : A) : (if b then x else x) = x.
Proof. by destruct b. Qed.

(** The inside of a quoted field, up to the closing quote. *)
Lemma scan_quoted f : forall buf fs rest,
  (N.of_nat (length buf + String.length f) <= field_limit)%N ->
  rest <> "" ->
  scan (mkReader IN_QUOTED_FIELD buf (N.of_nat (length buf)) fs)
       (escape f +:+ String DQUOTE rest)
  = scan (mkReader QUOTE_IN_QUOTED_FIELD (reverse (chars f) ++ buf)
            (N.of_nat (length (reverse (chars f) ++ buf))) fs) rest.
Proof.
  induction f as [|c f IH]; intros buf fs rest Hfit Hrest.
  - cbn [escape]. rewrite str_app_nil_l, scan_cons, step_quoted_close.
    cbn [mbind result_bind]. by rewrite line_ends_plain.
  - cbn [escape]. case_bool_decide as Hdq.
    + subst c. rewrite !str_app_cons, scan_cons, step_quoted_close.
      cbn [mbind result_bind]. rewrite line_ends_plain by done.
      rewrite scan_cons, step_quoted_quote by (cbn in *; lia).
      cbn [mbind result_bind].
      rewrite line_ends_plain; [|done|by destruct (escape f)].
      rewrite IH; [|cbn in *; lia|done].
      cbn [chars list_ascii_of_string]. by rewrite reverse_cons, <- app_assoc.
    + rewrite str_app_cons, scan_cons, step_quoted_char by (done || cbn in *; lia).
      cbn [mbind result_bind].
      rewrite after_line_quoted, if_same, IH; [|cbn in *; lia|done].
      cbn [chars list_ascii_of_string]. by rewrite reverse_cons, <- app_assoc.
Qed.

Lemma step_comma r f fs :
  holds r f fs ->
  parse_process_char r (Some COMMA) = Ok (mkReader START_FIELD [] 0 (f :: fs)).
Proof.
  destruct r as [st buf n fs0]. intros (<- & <- & Hst). cbn in Hst.
  destruct Hst as [-> | [-> | [-> | ->]]]; reflexivity.
Qed.

Lemma step_CR r f fs :
  holds r f fs -> state r <> START_RECORD ->
  parse_process_char r (Some CR) = Ok (mkReader EAT_CRNL [] 0 (f :: fs)).
Proof.
  destruct r as [st buf n fs0]. intros (<- & <- & Hst) Hne. cbn in Hst, Hne.
  destruct Hst as [-> | [-> | [-> | ->]]]; done.
Qed.

(** The end of a record: CR, LF and the end of the line. *)
Lemma scan_crlf fs rest :
  scan (mkReader EAT_CRNL [] 0 fs) (String LF rest)
  = (reverse fs ::.) <$> scan parse_reset rest.
Proof.
  rewrite scan_cons. cbn [parse_process_char state is_newline].
  assert (line_ends LF rest = true) as -> by (by unfold line_ends).
  reflexivity.
Qed.

Lemma line_ends_CR_LF rest : line_ends CR (String LF rest) = false.
Proof. reflexivity. Qed.

(** One field, as the writer wrote it, read from the start of a field. *)
Lemma scan_field f st fs rest :
  st = START_RECORD \/ st = START_FIELD ->
  fits f -> rest <> "" ->
  exists r',
    scan (mkReader st [] 0 fs) (join_append f +:+ rest) = scan r' rest
    /\ holds r' f fs
    /\ (state r' = START_RECORD -> st = START_RECORD /\ f = "").
Proof.
  intros Hst Hfit Hrest. unfold join_append, fits in *.
  destruct (needs_quotes f) eqn:Hq.
  - eexists. split; [|split].
    + rewrite str_app_cons, scan_cons.
      assert (parse_process_char (mkReader st [] 0 fs) (Some DQUOTE)
              = Ok (mkReader IN_QUOTED_FIELD [] (N.of_nat (length (@nil ascii))) fs)) as ->
        by (by destruct Hst as [-> | ->]).
      cbn [mbind result_bind]. rewrite line_ends_plain; [|done|by destruct (escape f)].
      rewrite str_app_assoc, str_app_cons, str_app_nil_l.
      rewrite scan_quoted; [reflexivity|cbn; lia|done].
    + split; [done|]. split; [|by right; left].
      cbn [field]. by rewrite app_nil_r, str_of_rev_chars.
    + done.
  - destruct f as [|c f].
    + exists (mkReader st [] 0 fs). split; [done|]. split; [|cbn; by intros ->].
      split; [done|]. split; [done|]. destruct Hst as [-> | ->]; auto.
    + pose proof Hq as Hq'. unfold needs_quotes in Hq'. cbn in Hq'.
      apply orb_false_elim in Hq' as [Hc Hq'].
      apply special_false in Hc as (Hnl & Hdq & Hco).
      eexists. split; [|split].
      * rewrite str_app_cons, scan_cons.
        assert (parse_process_char (mkReader st [] 0 fs) (Some c)
                = Ok (mkReader IN_FIELD [c] (N.of_nat (length [c])) fs)) as ->.
        { destruct Hst as [-> | ->]; unfold parse_process_char, start_field;
            cbn [state set_state]; rewrite ?Hnl, ?Hdq, ?Hco; reflexivity. }
        cbn [mbind result_bind]. rewrite line_ends_plain; [|done|by destruct f].
        rewrite scan_plain; [reflexivity|done|cbn in *; lia|done].
      * split; [done|]. split; [|by left].
        cbn [field]. by rewrite str_of_rev_chars_app.
      * done.
Qed.

Lemma tail_text_nonempty row rest : tail_text row +:+ rest <> "".
Proof. by destruct row. Qed.

Lemma str_app_nonempty_r (s t : string) : t <> "" -> s +:+ t <> "".
Proof. by destruct s. Qed.

Lemma join_tail_text f row :
  str_join (String COMMA "") (join_append <$> (f :: row)) +:+ lineterminator
  = join_append f +:+ tail_text row.
Proof.
  revert f. induction row as [|g row IH]; intros f; [done|].
  change (str_join (String COMMA "") (join_append <$> f :: g :: row))
    with (join_append f +:+ String COMMA "" +:+ str_join (String COMMA "") (join_append <$> g :: row)).
  rewrite !str_app_assoc, IH. reflexivity.
Qed.

Lemma scan_tail row : forall r f fs rest,
  holds r f fs ->
  state r <> START_RECORD \/ row <> [] ->
  Forall fits row ->
  scan r (tail_text row +:+ rest) = (reverse fs ++ f :: row ::.) <$> scan parse_reset rest.
Proof.
  induction row as [|g row IH]; intros r f fs rest Hr Hst Hfit.
  - destruct Hst as [Hst|]; [|done].
    cbn [tail_text]. unfold lineterminator.
    rewrite str_app_cons, scan_cons, (step_CR r f fs) by done.
    cbn [mbind result_bind]. rewrite str_app_cons, line_ends_CR_LF, scan_crlf.
    by rewrite reverse_cons.
  - apply Forall_cons in Hfit as [Hg Hfit].
    cbn [tail_text]. rewrite str_app_cons, scan_cons, (step_comma r f fs) by done.
    cbn [mbind result_bind].
    rewrite str_app_assoc.
    rewrite line_ends_plain;
      [|done|apply str_app_nonempty_r, tail_text_nonempty].
    destruct (scan_field g START_FIELD (f :: fs) (tail_text row +:+ rest))
      as (r' & -> & Hr' & Hst'); [by right|done|apply tail_text_nonempty|].
    rewrite (IH r' g (f :: fs)); [|done| |done].
    + rewrite reverse_cons. by rewrite <- app_assoc.
    + left. intros Hs. by destruct (Hst' Hs).
Qed.

Lemma scan_row row rest :
  Forall fits row ->
  scan parse_reset (writerow row +:+ rest) = (row ::.) <$> scan parse_reset rest.
Proof.
  intros Hfit. destruct row as [|f row].
  - reflexivity.
  - assert (Hcases : (f = "" /\ row = []) \/ (f <> "" \/ row <> [])).
    { destruct f, row; auto. }
    destruct Hcases as [[-> ->] | Hne].
    + change (writerow [""]) with (String DQUOTE (String DQUOTE (tail_text []))).
      rewrite !str_app_cons, scan_cons.
      change (parse_process_char parse_reset (Some DQUOTE))
        with (Ok (mkReader IN_QUOTED_FIELD [] 0 [])).
      cbn [mbind result_bind]. rewrite line_ends_plain by done.
      rewrite scan_cons, step_quoted_close. cbn [mbind result_bind].
      rewrite line_ends_plain by done.
      rewrite (scan_tail [] _ "" []); [done| |by left|done].
      split; [done|]. split; [done|]. by right; left.
    + assert (writerow (f :: row) = join_append f +:+ tail_text row) as ->.
      { rewrite <- join_tail_text. destruct Hne as [Hne|Hne].
        - by destruct f.
        - destruct f, row; done. }
      apply Forall_cons in Hfit as [Hf Hfit].
      rewrite str_app_assoc.
      destruct (scan_field f START_RECORD [] (tail_text row +:+ rest))
        as (r' & Hscan & Hr' & Hst'); [by left|done|apply tail_text_nonempty|].
      unfold parse_reset. rewrite Hscan.
      rewrite (scan_tail row r' f []); [done|done| |done].
      destruct (decide (state r' = START_RECORD)) as [Hs|Hs]; [|by left].
      right. destruct (Hst' Hs) as [_ ->]. by destruct Hne.
Qed.

Lemma scan_rows rows :
  Forall (Forall fits) rows ->
  scan parse_reset (writerows rows) = Ok rows.
Proof.
  induction rows as [|row rows IH]; intros Hfit; [done|].
  apply Forall_cons in Hfit as [Hrow Hfit].
  cbn [writerows]. rewrite scan_row, IH by done. reflexivity.
Qed.

(** Reading back what the writer wrote. *)
Lemma reader_writerows rows :
  Forall (Forall fits) rows -> reader (writerows rows) = Ok rows.
Proof. intros. by rewrite reader_scan, scan_rows. Qed.

(** ** Every field the reader returns is within the limit *)

Lemma reader_inv_reset : reader_inv parse_reset.
Proof. split; [done|]. split; [done|]. constructor. Qed.

Lemma reader_inv_set_state st r : reader_inv r -> reader_inv (set_state st r).
Proof. done. Qed.

Lemma reader_inv_save r : reader_inv r -> reader_inv (parse_save_field r).
Proof.
  intros (Hlen & Hle & Hfs). split; [done|]. split; [done|].
  cbn. constructor; [|done].
  unfold fits. rewrite length_str_of, length_reverse. lia.
Qed.

Lemma reader_inv_add r c r' :
  parse_add_char r c = Ok r' -> reader_inv r -> reader_inv r'.
Proof.
  unfold parse_add_char. intros Hadd (Hlen & Hle & Hfs).
  destruct (N.leb_spec field_limit (field_len r)); [done|].
  injection Hadd as <-. split; [|split]; cbn; [lia|lia|done].
Qed.

Lemma reader_inv_fmap st (m : result ReaderObj) r' :
  set_state st <$> m = Ok r' ->
  (forall r1, m = Ok r1 -> reader_inv r1) -> reader_inv r'.
Proof.
  destruct m as [r1|]; [|done]. intros [= <-] H. by apply reader_inv_set_state, H.
Qed.

Lemma reader_inv_process r c r' :
  parse_process_char r c = Ok r' -> reader_inv r -> reader_inv r'.
Proof.
  intros Hstep Hr. unfold parse_process_char, start_field in Hstep.
  repeat match type of Hstep with
         | context [match ?x with _ => _ end] => destruct x eqn:?
         end;
    try discriminate;
    try (injection Hstep as <-);
    eauto using reader_inv_set_state, reader_inv_save, reader_inv_add,
      reader_inv_fmap.
Qed.

Lemma reader_inv_feed_chars line : forall r r',
  feed_chars r line = Ok r' -> reader_inv r -> reader_inv r'.
Proof.
  induction line as [|c line IH]; intros r r' Hfeed Hr.
  - by injection Hfeed as <-.
  - cbn in Hfeed. destruct (parse_process_char r (Some c)) as [r1|] eqn:Hstep; [|done].
    eauto using reader_inv_process.
Qed.

Lemma read_records_fits lines : forall r rows,
  read_records r lines = Ok rows -> reader_inv r -> Forall (Forall fits) rows.
Proof.
  induction lines as [|line lines IH]; intros r rows Hread Hr.
  - cbn [read_records] in Hread.
    destruct (_ || _); injection Hread as <-; [|constructor].
    constructor; [|constructor].
    apply Forall_reverse. apply (reader_inv_save r Hr).
  - cbn in Hread. unfold feed_line in Hread.
    destruct (feed_chars r line) as [r1|] eqn:Hfeed; [|done].
    cbn in Hread.
    destruct (parse_process_char r1 None) as [r2|] eqn:Hstep; [|done].
    cbn in Hread.
    assert (Hr2 : reader_inv r2)
      by eauto using reader_inv_process, reader_inv_feed_chars.
    case_bool_decide.
    + destruct (read_records parse_reset lines) as [rows'|] eqn:Hrest; [|done].
      injection Hread as <-. constructor.
      * apply Forall_reverse, Hr2.
      * eauto using reader_inv_reset.
    + eauto.
Qed.

Lemma reader_fits content rows :
  reader content = Ok rows -> Forall (Forall fits) rows.
Proof. intros H. eapply read_records_fits; [exact H|apply reader_inv_reset]. Qed.

(** * The store: [read_rows] and [write_rows] *)

Lemma ensured_lookup fs : exists c rest, ensured fs !! CSV = Some (String c rest).
Proof.
  unfold ensured. destruct (fs !! CSV) as [[|c rest]|] eqn:H; eauto;
    rewrite lookup_insert_eq; by eexists _, _.
Qed.

Lemma ensured_idem fs : ensured (ensured fs) = ensured fs.
Proof.
  destruct (ensured_lookup fs) as (c & rest & H).
  unfold ensured at 1. by rewrite H.
Qed.

Lemma read_rows_eq w :
  read_rows false w = (with_files (ensured (files w)) w, loaded (files w)).
Proof.
  destruct w as [i o fs c].
  unfold read_rows, bind, ensure_dirs_and_csv, loaded, ensured, write_file,
    read_file, lift, ret, with_files.
  cbn [files stdin stdout clock negb andb]. set (h := writerow HEADERS).
  destruct (fs !! CSV) as [[|a content]|] eqn:H.
  - rewrite bool_decide_true by done. cbn [files]. rewrite lookup_insert_eq.
    by destruct (reader h) as [[|r0 rest]|].
  - rewrite bool_decide_false by done. cbn [files]. rewrite H.
    by destruct (reader _) as [[|r0 rest]|].
  - cbn [files]. rewrite lookup_insert_eq.
    by destruct (reader h) as [[|r0 rest]|].
Qed.

Lemma loaded_ensured fs : loaded (ensured fs) = loaded fs.
Proof. unfold loaded. by rewrite ensured_idem. Qed.

Lemma loaded_fits fs rows : loaded fs = Ok rows -> Forall (Forall fits) rows.
Proof.
  unfold loaded. destruct (ensured fs !! CSV) as [content|]; [|done].
  destruct (reader content) as [all|] eqn:Hread; [|done].
  intros [= <-]. apply reader_fits in Hread.
  destruct all as [|r0 rest]; [done|]. cbn. case_bool_decide; [|done].
  by apply Forall_cons in Hread as [_ ?].
Qed.

Lemma headers_fit : Forall fits HEADERS.
Proof. repeat constructor; by vm_compute. Qed.

Lemma serialize_writerows rows : serialize rows = writerows (HEADERS :: rows).
Proof. reflexivity. Qed.

Lemma ensured_written fs rows :
  ensured (<[CSV := serialize rows]> fs) = <[CSV := serialize rows]> fs.
Proof. unfold ensured. by rewrite lookup_insert_eq. Qed.

(** What was written is what is loaded. *)
Lemma loaded_written fs rows :
  Forall (Forall fits) rows -> loaded (<[CSV := serialize rows]> fs) = Ok rows.
Proof.
  intros Hfit. unfold loaded. rewrite ensured_written, lookup_insert_eq.
  rewrite serialize_writerows, reader_writerows.
  - cbn. by rewrite bool_decide_true.
  - constructor; [apply headers_fit|done].
Qed.

Lemma write_rows_eq rows w :
  write_rows rows w = (with_files (<[CSV := serialize rows]> (files w)) w, Ok tt).
Proof. reflexivity. Qed.

(** C1, as amended: for every sequence of rows whose fields have at most
    131072 characters each (the field size limit of the csv reader),
    whatever the width of the rows and whatever characters the fields
    hold (commas, quotes, line ends), writing the sequence with
    [write_rows] and reading it with [read_rows] returns the sequence,
    field for field and in the same order. *)
Theorem write_rows_read_rows (w : world) (rows : list (list string)) :
  Forall (Forall fits) rows ->
  (write_rows rows ;; read_rows false) w
  = (with_files (<[CSV := serialize rows]> (files w)) w, Ok rows).
Proof.
  intros Hfit. unfold bind. rewrite write_rows_eq, read_rows_eq.
  cbn [files with_files]. by rewrite ensured_written, loaded_written.
Qed.

Lemma write_rows_read_rows_witness :
  (write_rows [["2025-01-05"; "12.50"; "Food"; awkward]] ;; read_rows false) empty_world
  = (with_files (<[CSV := serialize [["2025-01-05"; "12.50"; "Food"; awkward]]]> ∅)
       empty_world,
     Ok [["2025-01-05"; "12.50"; "Food"; awkward]]).
Proof.
  apply (write_rows_read_rows empty_world [["2025-01-05"; "12.50"; "Food"; awkward]]).
  repeat constructor; vm_compute; discriminate.
Defined.

(** C1 as stated fails: a description of 131073 characters is written,
    and reading it back raises the csv error for a field larger than the
    field limit. *)
Lemma write_rows_read_rows_long_field :
  ((write_rows [["2025-01-05"; "12.50"; "Food"; long_text 131073]] ;; read_rows false)
     empty_world).2
  = Raise CsvError.
Proof. vm_compute. reflexivity. Qed.

(** * The filter *)

Lemma contains_empty s : contains "" s = true.
Proof. by destruct s. Qed.

Lemma lower_empty s : lower s = "" -> s = "".
Proof. by destruct s. Qed.

Lemma four_cells_inv r :
  four_cells r -> exists d amt cat desc, r = [d; amt; cat; desc].
Proof.
  unfold four_cells. destruct r as [|d [|amt [|cat [|desc [|? ?]]]]]; try done.
  by eexists _, _, _, _.
Qed.

Lemma category_criterion cat c :
  negb (truthy c && negb (bool_decide (lower cat = lower (default "" c))))
  = match c ≫= or_none with
    | Some c' => bool_decide (lower cat = lower c')
    | None => true
    end.
Proof.
  destruct c as [c|]; [|done]. cbn [truthy mbind option_bind default]. unfold or_none.
  case_bool_decide; [done|]. cbn [negb andb]. by destruct (bool_decide _).
Qed.

Lemma text_criterion blob t :
  negb (truthy t && negb (contains (lower (default "" t)) blob))
  = match t with
    | Some t' => contains (lower t') blob
    | None => true
    end.
Proof.
  destruct t as [t|]; [|done]. cbn [truthy default].
  case_bool_decide as Ht.
  - subst. cbn [lower negb andb]. by rewrite contains_empty.
  - cbn [negb andb]. by destruct (contains _ _).
Qed.

(** One turn of the loop of [filter_rows] on a row of four cells. *)
Lemma filter_rows_cons r rest c s e t :
  four_cells r ->
  filter_rows (r :: rest) c s e t
  = if satisfies c s e t r then (r ::.) <$> filter_rows rest c s e t
    else filter_rows rest c s e t.
Proof.
  intros (d & amt & cat & desc & ->)%four_cells_inv.
  cbn [filter_rows]. unfold satisfies, satisfies_stated.
  rewrite <- category_criterion, <- text_criterion.
  unfold in_range.
  destruct (truthy c && _), (truthy t && _), s, e; cbn [negb andb];
    repeat (destruct (String.leb _ _); cbn [negb andb]); done.
Qed.

Lemma filter_rows_filter rows c s e t :
  Forall four_cells rows ->
  filter_rows rows c s e t = Ok (filter (fun r => satisfies c s e t r) rows).
Proof.
  induction 1 as [|r rest Hr Hrest IH]; [done|].
  rewrite filter_rows_cons, IH by done.
  rewrite filter_cons. destruct (satisfies c s e t r) eqn:Hsat.
  - by rewrite decide_True by done.
  - by rewrite decide_False by (by intros ?).
Qed.

(** C2, as amended: on records of four fields, for every combination of
    the criteria, [filter_rows] returns a subsequence of its input, in the
    input's order, and a record is in it exactly when it satisfies every
    criterion given: the category, when it is given and not the empty
    string, equal without regard to case; the date not before the start
    and not after the end, as strings; the text a substring, without
    regard to case, of the four fields joined by blanks.  A criterion that
    is absent, and a category that is the empty string, constrain nothing. *)
Theorem filter_rows_subsequence (rows : list (list string))
    (category start_date end_date text : option string) :
  Forall four_cells rows ->
  exists out,
    filter_rows rows category start_date end_date text = Ok out
    /\ out = filter (fun r => satisfies category start_date end_date text r) rows
    /\ sublist out rows
    /\ forall r, r ∈ out <-> r ∈ rows /\ satisfies category start_date end_date text r.
Proof.
  intros Hrows. eexists. split; [by apply filter_rows_filter|].
  split; [done|]. split; [apply sublist_filter|].
  intros r. rewrite list_elem_of_filter. tauto.
Qed.

Lemma filter_rows_subsequence_witness :
  exists out,
    filter_rows scenario (Some "food") (Some "2025-01-10") None (Some "SNACK") = Ok out
    /\ out = filter (fun r => satisfies (Some "food") (Some "2025-01-10") None (Some "SNACK") r)
               scenario
    /\ sublist out scenario
    /\ forall r, r ∈ out
         <-> r ∈ scenario /\ satisfies (Some "food") (Some "2025-01-10") None (Some "SNACK") r.
Proof.
  apply (filter_rows_subsequence scenario (Some "food") (Some "2025-01-10") None (Some "SNACK")).
  repeat constructor.
Defined.

(** C2 as stated fails: with the empty string as category all records come
    out, also a record whose category is not the empty string. *)
Lemma filter_rows_empty_category_keeps_all :
  filter_rows [lunch] (Some "") None None None = Ok [lunch]
  /\ satisfies_stated (Some "") None None None lunch = false.
Proof. by vm_compute. Qed.

(** C10: the empty string as category, or as text, is as good as no
    criterion.  So an empty category selects nothing: when a record with
    an empty category comes out, the category criterion was empty too,
    and all records passed it; and an empty text leaves every record in. *)
Theorem filter_rows_empty_criterion (rows : list (list string))
    (category start_date end_date text : option string) :
  filter_rows rows (Some "") start_date end_date text
  = filter_rows rows None start_date end_date text
  /\ filter_rows rows category start_date end_date (Some "")
     = filter_rows rows category start_date end_date None
  /\ forall c out d amt desc,
       filter_rows rows (Some c) start_date end_date text = Ok out ->
       [d; amt; ""; desc] ∈ out -> c = "".
Proof.
  split; [|split].
  - induction rows as [|r rest IH]; [done|].
    cbn [filter_rows truthy]. rewrite bool_decide_true by done. cbn [negb andb].
    rewrite IH. destruct r as [|d [|amt [|cat [|desc [|? ?]]]]]; done.
  - induction rows as [|r rest IH]; [done|].
    cbn [filter_rows]. rewrite IH.
    destruct r as [|d [|amt [|cat [|desc [|? ?]]]]]; done.
  - intros c. induction rows as [|r rest IH]; intros out d amt desc Hout Hin.
    + injection Hout as <-. by apply elem_of_nil in Hin.
    + cbn [filter_rows] in Hout.
      destruct r as [|d' [|amt' [|cat' [|desc' [|? ?]]]]]; try done.
      destruct (decide (c = "")) as [|Hc]; [done|]. exfalso.
      cbn [truthy default] in Hout. rewrite (bool_decide_false (c = "")) in Hout by done.
      cbn [negb andb] in Hout.
      case_bool_decide as Hcat; cbn [negb] in Hout.
      * repeat match type of Hout with
               | (if ?b then _ else _) = _ => destruct b
               end; eauto.
        destruct (filter_rows rest _ _ _ _) as [out'|] eqn:Hrest; [|done].
        injection Hout as <-. apply elem_of_cons in Hin as [Heq|Hin]; eauto.
        injection Heq as -> -> <- ->. symmetry in Hcat.
        by apply lower_empty in Hcat.
      * eauto.
Qed.

(** C9 as stated fails: a row of three cells breaks the unpacking in the
    loop of [filter_rows], and nothing handles the error. *)
Lemma filter_rows_three_cells :
  filter_rows [["2025-01-05"; "12.50"; "Food"]] None None None None = Raise ValueError.
Proof. reflexivity. Qed.

(** * The summaries *)

Lemma of_str_raises s e : Float.of_str s = Raise e -> e = ValueError.
Proof.
  unfold Float.of_str.
  repeat match goal with
         | |- context [match ?x with _ => _ end] => destruct x
         end; congruence.
Qed.

Lemma group_totals_cons key totals d amt cat desc rest :
  group_totals key totals ([d; amt; cat; desc] :: rest)
  = match Float.of_str amt with
    | Ok x =>
        group_totals key
          (<[key d cat := Float.add (default Float.zero (totals !! key d cat)) x]> totals) rest
    | Raise _ => group_totals key totals rest
    end.
Proof.
  cbn [group_totals]. destruct (Float.of_str amt) as [x|e] eqn:H; [done|].
  by rewrite (of_str_raises _ _ H).
Qed.

Lemma grand_total_cons total d amt cat desc rest :
  grand_total total ([d; amt; cat; desc] :: rest)
  = match Float.of_str amt with
    | Ok x => grand_total (Float.add total x) rest
    | Raise _ => grand_total total rest
    end.
Proof.
  cbn [grand_total]. destruct (Float.of_str amt) as [x|e] eqn:H; [done|].
  by rewrite (of_str_raises _ _ H).
Qed.

Lemma group_totals_sound key rows : forall totals,
  Forall four_cells rows ->
  exists m, group_totals key totals rows = Ok m
            /\ group_totals key totals (filter (fun r => amount_parses r) rows) = Ok m.
Proof.
  induction rows as [|r rest IH]; intros totals Hrows; [by eexists|].
  apply Forall_cons in Hrows as [(d & amt & cat & desc & ->)%four_cells_inv Hrest].
  rewrite filter_cons, group_totals_cons.
  destruct (Float.of_str amt) as [x|e] eqn:Hamt.
  - rewrite decide_True by (unfold amount_parses; by rewrite Hamt).
    rewrite group_totals_cons, Hamt. by apply IH.
  - rewrite decide_False by (unfold amount_parses; rewrite Hamt; by intros ?).
    by apply IH.
Qed.

Lemma grand_total_sound rows : forall total,
  Forall four_cells rows ->
  exists x, grand_total total rows = Ok x
            /\ grand_total total (filter (fun r => amount_parses r) rows) = Ok x.
Proof.
  induction rows as [|r rest IH]; intros total Hrows; [by eexists|].
  apply Forall_cons in Hrows as [(d & amt & cat & desc & ->)%four_cells_inv Hrest].
  rewrite filter_cons, grand_total_cons.
  destruct (Float.of_str amt) as [x|e] eqn:Hamt.
  - rewrite decide_True by (unfold amount_parses; by rewrite Hamt).
    rewrite grand_total_cons, Hamt. by apply IH.
  - rewrite decide_False by (unfold amount_parses; rewrite Hamt; by intros ?).
    by apply IH.
Qed.

(** A row that is not of four cells makes the loops raise. *)
Lemma not_four_cells_inv (rows : list (list string)) :
  ~ Forall four_cells rows ->
  exists good r rest, rows = good ++ r :: rest /\ Forall four_cells good /\ ~ four_cells r.
Proof.
  induction rows as [|r rest IH]; intros Hnot; [by destruct Hnot|].
  destruct (decide (four_cells r)) as [Hr|Hr].
  - destruct IH as (good & r' & rest' & -> & Hgood & Hr').
    { intros Hrest. apply Hnot. by constructor. }
    exists (r :: good), r', rest'. split; [done|]. split; [by constructor|done].
  - exists [], r, rest. split; [done|]. split; [constructor|done].
Qed.

Lemma group_totals_raises key good : forall totals r rest,
  Forall four_cells good -> ~ four_cells r ->
  group_totals key totals (good ++ r :: rest) = Raise ValueError.
Proof.
  induction good as [|g good IH]; intros totals r rest Hgood Hr.
  - destruct r as [|d [|amt [|cat [|desc [|? ?]]]]]; try done.
    all: by destruct Hr.
  - apply Forall_cons in Hgood as [(d & amt & cat & desc & ->)%four_cells_inv Hgood].
    cbn [app]. rewrite group_totals_cons. destruct (Float.of_str amt); by apply IH.
Qed.

Lemma grand_total_raises good : forall total r rest,
  Forall four_cells good -> ~ four_cells r ->
  grand_total total (good ++ r :: rest) = Raise ValueError.
Proof.
  induction good as [|g good IH]; intros total r rest Hgood Hr.
  - destruct r as [|d [|amt [|cat [|desc [|? ?]]]]]; try done.
    all: by destruct Hr.
  - apply Forall_cons in Hgood as [(d & amt & cat & desc & ->)%four_cells_inv Hgood].
    cbn [app]. rewrite grand_total_cons. destruct (Float.of_str amt); by apply IH.
Qed.

Lemma filter_rows_raises good c s e t : forall r rest,
  Forall four_cells good -> ~ four_cells r ->
  filter_rows (good ++ r :: rest) c s e t = Raise ValueError.
Proof.
  induction good as [|g good IH]; intros r rest Hgood Hr.
  - destruct r as [|d [|amt [|cat [|desc [|? ?]]]]]; try done.
    all: by destruct Hr.
  - apply Forall_cons in Hgood as [Hg Hgood].
    cbn [app]. rewrite filter_rows_cons by done.
    rewrite IH by done. by destruct (satisfies _ _ _ _ _).
Qed.

(** What a summary does to the world: it loads the rows and prints. *)
Lemma summarize_eq key header w :
  summarize key header w
  = match loaded (files w) ≫= summary_output key header with
    | Ok out => (with_stdout (stdout w ++ out) (with_files (ensured (files w)) w), Ok tt)
    | Raise e => (with_files (ensured (files w)) w, Raise e)
    end.
Proof.
  unfold summarize, bind. rewrite read_rows_eq.
  destruct (loaded (files w)) as [rows|e]; [|done].
  cbn [mbind result_bind]. destruct rows as [|r rows]; [done|].
  unfold summary_output, lift.
  destruct (group_totals key ∅ (r :: rows)) as [totals|e]; [|done].
  cbn [mbind result_bind]. unfold print, with_stdout, with_files.
  cbn [stdin stdout files clock]. by rewrite <- app_assoc.
Qed.

Lemma show_total_eq w :
  show_total w
  = match loaded (files w) ≫= total_output with
    | Ok out => (with_stdout (stdout w ++ out) (with_files (ensured (files w)) w), Ok tt)
    | Raise e => (with_files (ensured (files w)) w, Raise e)
    end.
Proof.
  unfold show_total, bind. rewrite read_rows_eq.
  destruct (loaded (files w)) as [rows|e]; [|done].
  cbn [mbind result_bind]. destruct rows as [|r rows]; [done|].
  unfold total_output, lift.
  by destruct (grand_total Float.zero (r :: rows)) as [total|e].
Qed.

(** C3: on the store of the scenario, the totals by category are Food
    22.49 and Transport 40.00, the totals by month are 2025-01 52.50 and
    2025-02 9.99, and the grand total is 62.49, all as printed with two
    decimals; the same whether the amounts stand in the file with two
    decimals or as [add_expense] wrote them. *)
Theorem scenario_totals :
  (total_lines <$> group_totals by_category ∅ scenario
   = Ok [["Food"; "22.49"]; ["Transport"; "40.00"]]
   /\ total_lines <$> group_totals by_month ∅ scenario
      = Ok [["2025-01"; "52.50"]; ["2025-02"; "9.99"]]
   /\ Float.format_2f <$> grand_total Float.zero scenario = Ok "62.49")
  /\ (read_rows false scenario_world).2
     = Ok [["2025-01-05"; "12.5"; "Food"; "lunch"];
           ["2025-01-20"; "40.0"; "Transport"; "bus pass"];
           ["2025-02-01"; "9.99"; "Food"; "snack"]]
  /\ stdout (summarize_by_category scenario_world).1
     = [Saved; Saved; Saved;
        Text (_format_table_generic
                [["Category"; "Total"]; ["Food"; "22.49"]; ["Transport"; "40.00"]]);
        Blank]
  /\ stdout (summarize_by_month scenario_world).1
     = [Saved; Saved; Saved;
        Text (_format_table_generic
                [["Month (YYYY-MM)"; "Total"]; ["2025-01"; "52.50"]; ["2025-02"; "9.99"]]);
        Blank]
  /\ stdout (show_total scenario_world).1 = [Saved; Saved; Saved; OverallTotal "62.49"].
Proof. vm_compute. repeat split; reflexivity. Qed.

Lemma read_rows_result w : (read_rows false w).2 = loaded (files w).
Proof. by rewrite read_rows_eq. Qed.

Lemma read_rows_again w out :
  (read_rows false (with_stdout out (read_rows false w).1)).2 = (read_rows false w).2.
Proof. rewrite !read_rows_eq. cbn. apply loaded_ensured. Qed.

(** C6: in a store of records of four fields, a record whose amount does
    not parse is passed over by every aggregation, and nothing is raised:
    the totals by category, by date and by month, and the grand total, are
    those of the records whose amount parses.  The summaries print and
    leave the file as it was loaded, so the record stays in the file and
    in what is loaded next, its amount as it was. *)
Theorem summaries_skip_corrupt_rows (w : world) (rows : list (list string)) :
  (read_rows false w).2 = Ok rows ->
  Forall four_cells rows ->
  (forall key, key ∈ [by_category; by_date; by_month] ->
     exists totals,
       group_totals key ∅ rows = Ok totals
       /\ group_totals key ∅ (filter (fun r => amount_parses r) rows) = Ok totals)
  /\ (exists total,
        grand_total Float.zero rows = Ok total
        /\ grand_total Float.zero (filter (fun r => amount_parses r) rows) = Ok total)
  /\ (forall summary,
        summary ∈ [summarize_by_category; summarize_by_date; summarize_by_month; show_total] ->
        exists out,
          summary w = (with_stdout (stdout w ++ out) (read_rows false w).1, Ok tt)
          /\ (read_rows false (summary w).1).2 = Ok rows).
Proof.
  intros Hread Hrows. split; [|split].
  - intros key _. by apply group_totals_sound.
  - by apply grand_total_sound.
  - assert (Hsum : forall key header, exists out,
              summarize key header w
              = (with_stdout (stdout w ++ out) (read_rows false w).1, Ok tt)).
    { intros key header. rewrite summarize_eq, read_rows_eq.
      rewrite read_rows_result in Hread. rewrite Hread. cbn [mbind result_bind].
      unfold summary_output. destruct rows as [|r rows']; [by eexists|].
      destruct (group_totals_sound key (r :: rows') ∅ Hrows) as (m & -> & _).
      by eexists. }
    assert (Htot : exists out,
              show_total w = (with_stdout (stdout w ++ out) (read_rows false w).1, Ok tt)).
    { rewrite show_total_eq, read_rows_eq.
      rewrite read_rows_result in Hread. rewrite Hread. cbn [mbind result_bind].
      unfold total_output. destruct rows as [|r rows']; [by eexists|].
      destruct (grand_total_sound (r :: rows') Float.zero Hrows) as (x & -> & _).
      by eexists. }
    intros summary Hin.
    assert (Hone : exists out,
              summary w = (with_stdout (stdout w ++ out) (read_rows false w).1, Ok tt)).
    { repeat (apply elem_of_cons in Hin as [-> | Hin]); [apply Hsum..|apply Htot|].
      by apply elem_of_nil in Hin. }
    destruct Hone as (out & Hout). exists out. split; [done|].
    rewrite Hout. cbn [fst]. by rewrite read_rows_again.
Qed.

Lemma summaries_skip_corrupt_rows_witness :
  (forall key, key ∈ [by_category; by_date; by_month] ->
     exists totals,
       group_totals key ∅ [lunch; ["2025-01-06"; "a lot"; "Food"; "dinner"]] = Ok totals
       /\ group_totals key ∅
            (filter (fun r => amount_parses r)
               [lunch; ["2025-01-06"; "a lot"; "Food"; "dinner"]]) = Ok totals)
  /\ (exists total,
        grand_total Float.zero [lunch; ["2025-01-06"; "a lot"; "Food"; "dinner"]] = Ok total
        /\ grand_total Float.zero
             (filter (fun r => amount_parses r)
                [lunch; ["2025-01-06"; "a lot"; "Food"; "dinner"]]) = Ok total)
  /\ (forall summary,
        summary ∈ [summarize_by_category; summarize_by_date; summarize_by_month; show_total] ->
        exists out,
          summary (write_rows [lunch; ["2025-01-06"; "a lot"; "Food"; "dinner"]] empty_world).1
          = (with_stdout
               (stdout (write_rows [lunch; ["2025-01-06"; "a lot"; "Food"; "dinner"]]
                          empty_world).1 ++ out)
               (read_rows false
                  (write_rows [lunch; ["2025-01-06"; "a lot"; "Food"; "dinner"]]
                     empty_world).1).1,
             Ok tt)
          /\ (read_rows false
                (summary (write_rows [lunch; ["2025-01-06"; "a lot"; "Food"; "dinner"]]
                            empty_world).1).1).2
             = Ok [lunch; ["2025-01-06"; "a lot"; "Food"; "dinner"]]).
Proof.
  apply (summaries_skip_corrupt_rows
           (write_rows [lunch; ["2025-01-06"; "a lot"; "Food"; "dinner"]] empty_world).1
           [lunch; ["2025-01-06"; "a lot"; "Food"; "dinner"]]).
  - vm_compute. reflexivity.
  - repeat constructor.
Defined.

(** C9, as amended: on rows of four cells each, filtering and every
    aggregation return a result, whatever the cells hold; on a sequence
    with a row of another width they raise [ValueError] from the
    unpacking of that row, and the program does not handle it. *)
Theorem four_cells_or_value_error (rows : list (list string))
    (category start_date end_date text : option string)
    (key : string -> string -> string) :
  (Forall four_cells rows ->
   (exists out, filter_rows rows category start_date end_date text = Ok out)
   /\ (exists totals, group_totals key ∅ rows = Ok totals)
   /\ (exists total, grand_total Float.zero rows = Ok total))
  /\ (~ Forall four_cells rows ->
      filter_rows rows category start_date end_date text = Raise ValueError
      /\ group_totals key ∅ rows = Raise ValueError
      /\ grand_total Float.zero rows = Raise ValueError).
Proof.
  split.
  - intros Hrows. split; [|split].
    + eexists. by apply filter_rows_filter.
    + destruct (group_totals_sound key rows ∅ Hrows) as (m & ? & _). by exists m.
    + destruct (grand_total_sound rows Float.zero Hrows) as (x & ? & _). by exists x.
  - intros (good & r & rest & -> & Hgood & Hr)%not_four_cells_inv.
    split; [|split].
    + by apply filter_rows_raises.
    + by apply group_totals_raises.
    + by apply grand_total_raises.
Qed.

Lemma four_cells_or_value_error_witness :
  (exists out, filter_rows scenario (Some "food") None None None = Ok out)
  /\ (exists totals, group_totals by_month ∅ scenario = Ok totals)
  /\ (exists total, grand_total Float.zero scenario = Ok total).
Proof.
  destruct (four_cells_or_value_error scenario (Some "food") None None None by_month)
    as [Hfour _].
  apply Hfour. repeat constructor.
Defined.

(** On a row of another width [edit_by_index] fails in the same way, once
    that row is chosen; the file stays as it was. *)
Example edit_by_index_three_cells :
  (edit_by_index
     (write_rows [lunch; ["2025-01-06"; "7.00"; "Food"]] (mkWorld ["1"] [] ∅ noon)).1).2
  = Raise ValueError.
Proof. by vm_compute. Qed.

(** * Deleting and editing by index *)

Lemma mapM_ok {A B} (f : A -> result B) (l : list A) :
  Forall (fun x => exists y, f x = Ok y) l -> exists ys, mapM f l = Ok ys.
Proof.
  induction 1 as [|x l [y Hy] _ [ys IH]]; [by eexists|].
  exists (y :: ys). cbn. rewrite Hy. cbn.
  change (mapM f l) with (mapM f l). by rewrite IH.
Qed.

Lemma money_row_ok r : two_cells r -> exists r', money_row r = Ok r'.
Proof.
  unfold two_cells, money_row. destruct r as [|d [|amt r]]; cbn; [lia..|].
  by eexists.
Qed.

Lemma format_expense_table_ok rows :
  Forall two_cells rows -> exists table, format_expense_table rows true = Ok table.
Proof.
  intros Hrows. unfold format_expense_table. destruct rows as [|r rows]; [by eexists|].
  destruct (mapM_ok
    (fun '(idx, r) => r' ← money_row r; Ok ((if true then [dec (Z.of_nat idx)] else []) ++ r'))
    (zip (seq 0 (length (r :: rows))) (r :: rows))) as [body Hbody].
  - apply Forall_forall. intros [idx r0] Hin.
    apply elem_of_zip_r in Hin.
    destruct (money_row_ok r0) as [r' Hr'].
    { rewrite Forall_forall in Hrows. by apply Hrows. }
    rewrite Hr'. by eexists.
  - rewrite Hbody. by eexists.
Qed.

Lemma ask_index_eq len w :
  ask_index len w
  = match stdin w with
    | [] => (w, Raise EOFError)
    | line :: rest =>
        match int_of_str (strip line) with
        | Ok idx =>
            if (idx <? 0)%Z || (Z.of_nat len <=? idx)%Z
            then (with_stdout (stdout w ++ [InvalidIndex]) (typed rest w), Ok None)
            else (typed rest w, Ok (Some (Z.to_nat idx)))
        | Raise ValueError =>
            (with_stdout (stdout w ++ [EnterANumber]) (typed rest w), Ok None)
        | Raise e => (typed rest w, Raise e)
        end
    end.
Proof.
  unfold ask_index, bind, input. destruct (stdin w) as [|line rest]; [done|].
  destruct (int_of_str (strip line)) as [idx|[]]; try done.
  by destruct (_ || _).
Qed.

Lemma opened_fields w :
  stdin (opened w) = stdin w /\ stdout (opened w) = stdout w
  /\ files (opened w) = ensured (files w) /\ clock (opened w) = clock w.
Proof. done. Qed.

(** Deleting at an index in the range. *)
Lemma delete_by_index_in_range w rows table line rest i removed :
  loaded (files w) = Ok rows ->
  format_expense_table rows true = Ok table ->
  stdin w = line :: rest ->
  int_of_str (strip line) = Ok (Z.of_nat i) ->
  rows !! i = Some removed ->
  delete_by_index w
  = (mkWorld rest (stdout w ++ [Text table; Deleted removed])
       (<[CSV := serialize (delete i rows)]> (ensured (files w))) (clock w),
     Ok tt).
Proof.
  intros Hload Htable Hin Hint Hi.
  unfold delete_by_index, bind. rewrite read_rows_eq, Hload.
  destruct rows as [|r rows']; [done|]. set (rows := r :: rows') in *.
  unfold lift. rewrite Htable. unfold print at 1. cbn [stdin stdout files clock with_files].
  rewrite ask_index_eq. cbn [stdin stdout files clock]. rewrite Hin, Hint.
  apply lookup_lt_Some in Hi as Hlt.
  destruct (Z.ltb_spec (Z.of_nat i) 0); [lia|].
  destruct (Z.leb_spec (Z.of_nat (length rows)) (Z.of_nat i)); [lia|].
  cbn [orb]. rewrite Nat2Z.id, Hi. unfold typed, write_rows, write_file, print.
  cbn [stdin stdout files clock]. by rewrite <- app_assoc.
Qed.

(** Deleting at an index outside the range. *)
Lemma delete_by_index_out_of_range w rows table line rest idx :
  loaded (files w) = Ok rows -> rows <> [] ->
  format_expense_table rows true = Ok table ->
  stdin w = line :: rest ->
  int_of_str (strip line) = Ok idx ->
  (idx < 0 \/ Z.of_nat (length rows) <= idx)%Z ->
  delete_by_index w
  = (mkWorld rest (stdout w ++ [Text table; InvalidIndex]) (ensured (files w)) (clock w),
     Ok tt).
Proof.
  intros Hload Hne Htable Hin Hint Hidx.
  unfold delete_by_index, bind. rewrite read_rows_eq, Hload.
  destruct rows as [|r rows']; [done|]. set (rows := r :: rows') in *.
  unfold lift. rewrite Htable. unfold print at 1. cbn [stdin stdout files clock with_files].
  rewrite ask_index_eq. cbn [stdin stdout files clock]. rewrite Hin, Hint.
  assert ((idx <? 0) || (Z.of_nat (length rows) <=? idx) = true) as ->.
  { apply orb_true_iff. destruct Hidx; [left; by apply Z.ltb_lt|right; by apply Z.leb_le]. }
  unfold typed, with_stdout, ret. cbn [stdin stdout files clock]. by rewrite <- app_assoc.
Qed.

(** C4: in a store of N records, removing at an index i below N leaves
    N-1 records: those before i as they were, those after i one place
    down, in order and unchanged; the record printed as deleted is the one
    that stood at i; and what was removed stays removed in the file. *)
Theorem delete_by_index_shifts (w : world) (rows : list (list string))
    (line : string) (rest : list string) (i : nat) :
  (read_rows false w).2 = Ok rows ->
  Forall two_cells rows ->
  stdin w = line :: rest ->
  int_of_str (strip line) = Ok (Z.of_nat i) ->
  (i < length rows)%nat ->
  exists removed after,
    rows !! i = Some removed
    /\ (delete_by_index w).2 = Ok tt
    /\ last (stdout (delete_by_index w).1) = Some (Deleted removed)
    /\ (read_rows false (delete_by_index w).1).2 = Ok after
    /\ after = delete i rows
    /\ length after = (length rows - 1)%nat
    /\ (forall j, (j < i)%nat -> after !! j = rows !! j)
    /\ (forall j, (i <= j)%nat -> after !! j = rows !! S j).
Proof.
  intros Hread Hrows Hin Hint Hi. rewrite read_rows_result in Hread.
  destruct (lookup_lt_is_Some_2 rows i Hi) as [removed Hremoved].
  destruct (format_expense_table_ok rows Hrows) as [table Htable].
  exists removed, (delete i rows).
  rewrite (delete_by_index_in_range w rows table line rest i removed) by done.
  cbn [fst snd stdout]. split; [done|]. split; [done|]. split.
  { change [Text table; Deleted removed] with ([Text table] ++ [Deleted removed]).
    by rewrite app_assoc, last_snoc. }
  split.
  { rewrite read_rows_result. cbn [files]. apply loaded_written.
    apply loaded_fits in Hread. by apply Forall_delete. }
  split; [done|]. split; [by apply length_delete|].
  split; [intros; by apply list_lookup_delete_lt|intros; by apply list_lookup_delete_ge].
Qed.

Lemma delete_by_index_shifts_witness :
  exists removed after,
    scenario !! 1%nat = Some removed
    /\ (delete_by_index (scenario_typing ["1"])).2 = Ok tt
    /\ last (stdout (delete_by_index (scenario_typing ["1"])).1) = Some (Deleted removed)
    /\ (read_rows false (delete_by_index (scenario_typing ["1"])).1).2 = Ok after
    /\ after = delete 1%nat scenario
    /\ length after = (length scenario - 1)%nat
    /\ (forall j, (j < 1)%nat -> after !! j = scenario !! j)
    /\ (forall j, (1 <= j)%nat -> after !! j = scenario !! S j).
Proof.
  apply (delete_by_index_shifts (scenario_typing ["1"]) scenario "1" [] 1).
  - vm_compute. reflexivity.
  - repeat constructor; vm_compute; lia.
  - reflexivity.
  - vm_compute. reflexivity.
  - vm_compute. lia.
Defined.

(** The scenario of the specification: removing at 1 prints the Transport
    record and leaves the two Food records. *)
Example delete_by_index_scenario :
  last (stdout (delete_by_index (scenario_typing ["1"])).1) = Some (Deleted bus_pass)
  /\ (read_rows false (delete_by_index (scenario_typing ["1"])).1).2 = Ok [lunch; snack].
Proof. by vm_compute. Qed.

(** Editing at an index outside the range. *)
Lemma edit_by_index_out_of_range w rows table line rest idx :
  loaded (files w) = Ok rows -> rows <> [] ->
  format_expense_table rows true = Ok table ->
  stdin w = line :: rest ->
  int_of_str (strip line) = Ok idx ->
  (idx < 0 \/ Z.of_nat (length rows) <= idx)%Z ->
  edit_by_index w
  = (mkWorld rest (stdout w ++ [Text table; InvalidIndex]) (ensured (files w)) (clock w),
     Ok tt).
Proof.
  intros Hload Hne Htable Hin Hint Hidx.
  unfold edit_by_index, bind. rewrite read_rows_eq, Hload.
  destruct rows as [|r rows']; [done|]. set (rows := r :: rows') in *.
  unfold lift. rewrite Htable. unfold print at 1. cbn [stdin stdout files clock with_files].
  rewrite ask_index_eq. cbn [stdin stdout files clock]. rewrite Hin, Hint.
  assert ((idx <? 0) || (Z.of_nat (length rows) <=? idx) = true) as ->.
  { apply orb_true_iff. destruct Hidx; [left; by apply Z.ltb_lt|right; by apply Z.leb_le]. }
  unfold typed, with_stdout, ret. cbn [stdin stdout files clock]. by rewrite <- app_assoc.
Qed.

(** Editing at an index in the range, the date and the amount accepted at
    once. *)
Lemma edit_by_index_in_range w rows table line d a c e rest i date amt cat desc dt x :
  loaded (files w) = Ok rows ->
  format_expense_table rows true = Ok table ->
  stdin w = line :: d :: a :: c :: e :: rest ->
  int_of_str (strip line) = Ok (Z.of_nat i) ->
  rows !! i = Some [date; amt; cat; desc] ->
  parse_iso_date (with_default date d) = Ok dt ->
  Float.of_str (replace_comma (with_default (format_money amt) a)) = Ok x ->
  edit_by_index w
  = (mkWorld rest (stdout w ++ [Text table; Updated])
       (<[CSV := serialize (<[i := edited date cat desc d c e x]> rows)]> (ensured (files w)))
       (clock w),
     Ok tt).
Proof.
  intros Hload Htable Hin Hint Hi Hdate Hamt.
  unfold edit_by_index, bind. rewrite read_rows_eq, Hload.
  destruct rows as [|r rows']; [done|]. set (rows := r :: rows') in *.
  unfold lift. rewrite Htable. unfold print at 1. cbn [stdin stdout files clock with_files].
  rewrite ask_index_eq. cbn [stdin stdout files clock]. rewrite Hin, Hint.
  apply lookup_lt_Some in Hi as Hlt.
  destruct (Z.ltb_spec (Z.of_nat i) 0); [lia|].
  destruct (Z.leb_spec (Z.of_nat (length rows)) (Z.of_nat i)); [lia|].
  cbn [orb]. rewrite Nat2Z.id, Hi.
  unfold retry, typed. cbn [stdin stdout files clock retry_lines].
  rewrite Hdate. cbn [mbind result_bind stdin stdout files clock retry_lines].
  rewrite Hamt. cbn [fmap result_fmap stdin stdout files clock].
  unfold input_with_default, bind, input, ret, write_rows, write_file, print.
  cbn [stdin stdout files clock]. by rewrite <- app_assoc.
Qed.

(** Whatever is typed, [edit_by_index] leaves the files as they were
    loaded, or writes the rows with one position replaced. *)
Lemma edit_by_index_frame w rows :
  loaded (files w) = Ok rows ->
  files (edit_by_index w).1 = ensured (files w)
  \/ exists i new,
       (i < length rows)%nat
       /\ (edit_by_index w).2 = Ok tt
       /\ files (edit_by_index w).1
          = <[CSV := serialize (<[i := new]> rows)]> (ensured (files w)).
Proof.
  intros Hload. remember (edit_by_index w) as run eqn:Hrun.
  unfold edit_by_index, bind in Hrun. rewrite read_rows_eq, Hload in Hrun.
  destruct rows as [|r rows']; [subst run; by left|]. set (rows := r :: rows') in *.
  unfold lift in Hrun.
  destruct (format_expense_table rows true) as [table|]; [|subst run; by left].
  unfold print at 1 in Hrun. cbn [stdin stdout files clock with_files] in Hrun.
  rewrite ask_index_eq in Hrun. cbn [stdin stdout files clock] in Hrun.
  destruct (stdin w) as [|line rest]; [subst run; by left|].
  destruct (int_of_str (strip line)) as [idx|[]]; try (subst run; by left).
  destruct (_ || _) eqn:Hrange; [subst run; by left|].
  apply orb_false_elim in Hrange as [Hneg%Z.ltb_ge Hlen%Z.leb_gt].
  destruct (rows !! Z.to_nat idx) as [[|date [|amt [|cat [|desc [|? ?]]]]]|] eqn:Hi;
    try (subst run; by left).
  unfold retry, typed in Hrun. cbn [stdin stdout files clock] in Hrun.
  destruct (retry_lines _ BadDateEdit rest _) as [[rest1 out1] [new_date|]];
    [|subst run; by left].
  cbn [stdin stdout files clock] in Hrun.
  destruct (retry_lines _ BadAmountEdit rest1 _) as [[rest2 out2] [new_amt|]];
    [|subst run; by left].
  unfold input_with_default, bind, input, ret in Hrun.
  cbn [stdin stdout files clock] in Hrun.
  destruct rest2 as [|c rest3]; [subst run; by left|].
  cbn [stdin stdout files clock] in Hrun.
  destruct rest3 as [|e rest4]; [subst run; by left|].
  subst run. right. eexists (Z.to_nat idx), _. split; [lia|]. by split.
Qed.

Lemma read_rows_files w : files (read_rows false w).1 = ensured (files w).
Proof. by rewrite read_rows_eq. Qed.

Lemma last_two {A} (l : list A) (x y : A) : last (l ++ [x; y]) = Some y.
Proof. change [x; y] with ([x] ++ [y]). by rewrite app_assoc, last_snoc. Qed.

(** On an empty store no index is asked for. *)
Lemma edit_by_index_empty w :
  loaded (files w) = Ok [] ->
  edit_by_index w = (with_stdout (stdout w ++ [NoExpensesToEdit]) (opened w), Ok tt).
Proof. intros Hload. unfold edit_by_index, bind. by rewrite read_rows_eq, Hload. Qed.

Lemma delete_by_index_empty w :
  loaded (files w) = Ok [] ->
  delete_by_index w = (with_stdout (stdout w ++ [NoExpensesToDelete]) (opened w), Ok tt).
Proof. intros Hload. unfold delete_by_index, bind. by rewrite read_rows_eq, Hload. Qed.

(** With an index outside the range the files stay as they were loaded,
    whatever else happens. *)
Lemma out_of_range_keeps_files w rows line rest idx action :
  loaded (files w) = Ok rows ->
  stdin w = line :: rest ->
  int_of_str (strip line) = Ok idx ->
  (idx < 0 \/ Z.of_nat (length rows) <= idx)%Z ->
  action ∈ [edit_by_index; delete_by_index] ->
  files (action w).1 = ensured (files w).
Proof.
  intros Hload Hin Hint Hidx Haction.
  destruct rows as [|r rows'] eqn:Hrows.
  { repeat (apply elem_of_cons in Haction as [-> | Haction]).
    - by rewrite edit_by_index_empty.
    - by rewrite delete_by_index_empty.
    - by apply elem_of_nil in Haction. }
  rewrite <- Hrows in *. assert (Hne : rows <> []) by (by rewrite Hrows).
  destruct (format_expense_table rows true) as [table|e] eqn:Htable.
  - repeat (apply elem_of_cons in Haction as [-> | Haction]).
    + by rewrite (edit_by_index_out_of_range w rows table line rest idx).
    + by rewrite (delete_by_index_out_of_range w rows table line rest idx).
    + by apply elem_of_nil in Haction.
  - repeat (apply elem_of_cons in Haction as [-> | Haction]).
    + unfold edit_by_index, bind. rewrite read_rows_eq, Hload, Hrows.
      rewrite <- Hrows. unfold lift. by rewrite Htable.
    + unfold delete_by_index, bind. rewrite read_rows_eq, Hload, Hrows.
      rewrite <- Hrows. unfold lift. by rewrite Htable.
    + by apply elem_of_nil in Haction.
Qed.

(** C5, as amended: in a store of N records, [edit_by_index] changes the
    file only by writing the records with one position i below N
    replaced: the length and every other position stay as they were, and
    the records load again as written when the new record is within the
    field limit of the reader.  With an index in the range and a date
    and an amount that are accepted at once, it does replace position i,
    by the record made of the answers.  With an index outside the range,
    editing and deleting leave the file and the records loaded from it
    as before; no [IndexError] is raised: they print the invalid index
    message and return (on an empty store they print that there are no
    expenses, and ask for no index). *)
Theorem edit_by_index_replaces_one (w : world) (rows : list (list string)) :
  (read_rows false w).2 = Ok rows ->
  (files (edit_by_index w).1 = files (read_rows false w).1
   \/ exists i new,
        (i < length rows)%nat
        /\ (edit_by_index w).2 = Ok tt
        /\ files (edit_by_index w).1
           = <[CSV := serialize (<[i := new]> rows)]> (files (read_rows false w).1)
        /\ length (<[i := new]> rows) = length rows
        /\ <[i := new]> rows !! i = Some new
        /\ (forall j, j <> i -> <[i := new]> rows !! j = rows !! j)
        /\ (Forall fits new ->
            (read_rows false (edit_by_index w).1).2 = Ok (<[i := new]> rows)))
  /\ (forall line d a c e rest i date amt cat desc dt x,
        Forall two_cells rows ->
        stdin w = line :: d :: a :: c :: e :: rest ->
        int_of_str (strip line) = Ok (Z.of_nat i) ->
        rows !! i = Some [date; amt; cat; desc] ->
        parse_iso_date (with_default date d) = Ok dt ->
        Float.of_str (replace_comma (with_default (format_money amt) a)) = Ok x ->
        (edit_by_index w).2 = Ok tt
        /\ last (stdout (edit_by_index w).1) = Some Updated
        /\ files (edit_by_index w).1
           = <[CSV := serialize (<[i := edited date cat desc d c e x]> rows)]>
               (files (read_rows false w).1))
  /\ (forall line rest idx action,
        stdin w = line :: rest ->
        int_of_str (strip line) = Ok idx ->
        (idx < 0 \/ Z.of_nat (length rows) <= idx)%Z ->
        action ∈ [edit_by_index; delete_by_index] ->
        files (action w).1 = files (read_rows false w).1
        /\ (read_rows false (action w).1).2 = Ok rows
        /\ (Forall two_cells rows -> rows <> [] ->
            (action w).2 = Ok tt /\ last (stdout (action w).1) = Some InvalidIndex))
  /\ (rows = [] ->
      edit_by_index w = (with_stdout (stdout w ++ [NoExpensesToEdit]) (opened w), Ok tt)
      /\ delete_by_index w
         = (with_stdout (stdout w ++ [NoExpensesToDelete]) (opened w), Ok tt)).
Proof.
  intros Hread. rewrite read_rows_result in Hread. rewrite read_rows_files.
  split; [|split; [|split]].
  - destruct (edit_by_index_frame w rows Hread) as [Hsame|(i & new & Hi & Hok & Hfiles)];
      [by left|right].
    exists i, new. split; [done|]. split; [done|]. split; [done|].
    split; [apply length_insert|]. split; [by apply list_lookup_insert_eq|].
    split; [intros j Hj; by apply list_lookup_insert_ne|].
    intros Hnew. rewrite read_rows_result, Hfiles. apply loaded_written.
    apply Forall_insert; [|done]. by apply loaded_fits in Hread.
  - intros line d a c e rest i date amt cat desc dt x Hrows Hin Hint Hi Hdate Hamt.
    destruct (format_expense_table_ok rows Hrows) as [table Htable].
    rewrite (edit_by_index_in_range w rows table line d a c e rest i date amt cat desc dt x)
      by done.
    cbn [fst snd stdout files]. split; [done|]. split; [apply last_two|done].
  - intros line rest idx action Hin Hint Hidx Haction.
    pose proof (out_of_range_keeps_files w rows line rest idx action
                  Hread Hin Hint Hidx Haction) as Hfiles.
    split; [done|]. split.
    { by rewrite read_rows_result, Hfiles, loaded_ensured. }
    intros Hrows Hne.
    destruct (format_expense_table_ok rows Hrows) as [table Htable].
    assert (Hrun : action w
              = (mkWorld rest (stdout w ++ [Text table; InvalidIndex])
                   (ensured (files w)) (clock w), Ok tt)).
    { repeat (apply elem_of_cons in Haction as [-> | Haction]).
      - by apply (edit_by_index_out_of_range w rows table line rest idx).
      - by apply (delete_by_index_out_of_range w rows table line rest idx).
      - by apply elem_of_nil in Haction. }
    rewrite Hrun. cbn [fst snd stdout]. split; [done|apply last_two].
  - intros ->. split; [by apply edit_by_index_empty|by apply delete_by_index_empty].
Qed.

Lemma edit_by_index_replaces_one_witness :
  (read_rows false (scenario_typing ["1"; ""; "41,5"; ""; "monthly pass, zone 1"])).2
  = Ok scenario
  /\ files (edit_by_index
              (scenario_typing ["1"; ""; "41,5"; ""; "monthly pass, zone 1"])).1
     = <[CSV := serialize
                  [lunch;
                   ["2025-01-20"; "41.50"; "Transport"; "monthly pass, zone 1"];
                   snack]]>
         (files (read_rows false
                   (scenario_typing ["1"; ""; "41,5"; ""; "monthly pass, zone 1"])).1).
Proof.
  assert (Hread :
    (read_rows false (scenario_typing ["1"; ""; "41,5"; ""; "monthly pass, zone 1"])).2
    = Ok scenario) by (vm_compute; reflexivity).
  split; [exact Hread|].
  destruct (edit_by_index_replaces_one
              (scenario_typing ["1"; ""; "41,5"; ""; "monthly pass, zone 1"])
              scenario Hread) as (_ & Hdirect & _).
  edestruct (Hdirect "1" "" "41,5" "" "monthly pass, zone 1" [] 1%nat
               "2025-01-20" "40.00" "Transport" "bus pass")
    as (_ & _ & Hfiles).
  - repeat constructor; vm_compute; lia.
  - reflexivity.
  - vm_compute. reflexivity.
  - reflexivity.
  - vm_compute. reflexivity.
  - vm_compute. reflexivity.
  - rewrite Hfiles. vm_compute. reflexivity.
Defined.

(** C5 as stated fails: with an index outside the range, here 3 and -1
    in a store of three records, editing and deleting do not fail with
    [IndexError]; the check of the range prints a message and the
    functions return as usual. *)
Lemma invalid_index_returns_normally :
  (edit_by_index (scenario_typing ["3"])).2 = Ok tt
  /\ last (stdout (edit_by_index (scenario_typing ["3"])).1) = Some InvalidIndex
  /\ (delete_by_index (scenario_typing ["-1"])).2 = Ok tt
  /\ last (stdout (delete_by_index (scenario_typing ["-1"])).1) = Some InvalidIndex.
Proof. by vm_compute. Qed.

(** * The export *)

Lemma below_100_cases (P : Z -> Prop) :
  Forall P (seqZ 0 100) -> forall n, 0 <= n < 100 -> P n.
Proof.
  intros H n Hn. rewrite Forall_forall in H. apply H. apply elem_of_seqZ. lia.
Qed.

Lemma zfill_two_digits n : 0 <= n < 100 -> zfill 2 (dec n) = two_digits n.
Proof.
  revert n. apply below_100_cases. apply (bool_decide_unpack _). by vm_compute.
Qed.

(** A year of four digits is written as its two halves. *)
Lemma dec_year y :
  1000 <= y <= 9999 -> dec y = two_digits (y / 100) +:+ two_digits (y mod 100).
Proof.
  intros Hy.
  assert (H : Forall (fun y => dec y = two_digits (y / 100) +:+ two_digits (y mod 100))
                (seqZ 1000 9000)) by (apply (bool_decide_unpack _); by vm_compute).
  rewrite Forall_forall in H. apply H, elem_of_seqZ. lia.
Qed.

(** Two numbers below 100 compare as their two digits do. *)
Lemma compare_two_digits a b s1 s2 :
  0 <= a < 100 -> 0 <= b < 100 ->
  String.compare (two_digits a +:+ s1) (two_digits b +:+ s2)
  = match a ?= b with
    | Eq => String.compare s1 s2
    | c => c
    end.
Proof.
  intros Ha Hb.
  assert (H : Forall (fun a => Forall (fun b =>
                (a ?= b) = match Ascii.compare (digit (a / 10)) (digit (b / 10)) with
                           | Eq => Ascii.compare (digit (a mod 10)) (digit (b mod 10))
                           | c => c
                           end) (seqZ 0 100)) (seqZ 0 100))
    by (apply (bool_decide_unpack _); by vm_compute).
  rewrite Forall_forall in H. specialize (H a). rewrite Forall_forall in H.
  rewrite (H ltac:(apply elem_of_seqZ; lia) b ltac:(apply elem_of_seqZ; lia)).
  unfold two_digits. cbn [String.compare String.append].
  change (String (digit (a / 10)) (String (digit (a mod 10)) "") +:+ s1)
    with (String (digit (a / 10)) (String (digit (a mod 10)) s1)).
  change (String (digit (b / 10)) (String (digit (b mod 10)) "") +:+ s2)
    with (String (digit (b / 10)) (String (digit (b mod 10)) s2)).
  cbn [String.compare].
  destruct (Ascii.compare (digit (a / 10)) (digit (b / 10))); [|done..].
  by destruct (Ascii.compare (digit (a mod 10)) (digit (b mod 10))).
Qed.

Lemma compare_halves a b (c1 : comparison) :
  match a / 100 ?= b / 100 with
  | Eq => match a mod 100 ?= b mod 100 with Eq => c1 | Lt => Lt | Gt => Gt end
  | Lt => Lt
  | Gt => Gt
  end
  = match a ?= b with Eq => c1 | Lt => Lt | Gt => Gt end.
Proof.
  pose proof (Z.div_mod a 100 ltac:(lia)). pose proof (Z.div_mod b 100 ltac:(lia)).
  pose proof (Z.mod_pos_bound a 100 ltac:(lia)).
  pose proof (Z.mod_pos_bound b 100 ltac:(lia)).
  destruct (Z.compare_spec (a / 100) (b / 100)), (Z.compare_spec (a mod 100) (b mod 100)),
    (Z.compare_spec a b); try done; lia.
Qed.

Lemma compare_year y1 y2 s1 s2 :
  1000 <= y1 <= 9999 -> 1000 <= y2 <= 9999 ->
  String.compare (dec y1 +:+ s1) (dec y2 +:+ s2)
  = match y1 ?= y2 with
    | Eq => String.compare s1 s2
    | c => c
    end.
Proof.
  intros H1 H2. rewrite !dec_year, !str_app_assoc by done.
  pose proof (Z.div_mod y1 100 ltac:(lia)). pose proof (Z.div_mod y2 100 ltac:(lia)).
  pose proof (Z.mod_pos_bound y1 100 ltac:(lia)).
  pose proof (Z.mod_pos_bound y2 100 ltac:(lia)).
  rewrite !compare_two_digits by lia.
  rewrite <- (compare_halves y1 y2).
  by destruct (y1 / 100 ?= y2 / 100), (y1 mod 100 ?= y2 mod 100).
Qed.

Lemma compare_same_prefix p s1 s2 :
  String.compare (p +:+ s1) (p +:+ s2) = String.compare s1 s2.
Proof.
  induction p as [|c p IH]; [done|].
  rewrite !str_app_cons. cbn [String.compare].
  unfold Ascii.compare. by rewrite N.compare_refl.
Qed.

Lemma compare_same s : String.compare s s = Eq.
Proof. rewrite <- (str_app_nil_r s) at 1 2. by rewrite compare_same_prefix. Qed.

Lemma compare_padded a b s1 s2 :
  0 <= a < 100 -> 0 <= b < 100 ->
  String.compare (zfill 2 (dec a) +:+ s1) (zfill 2 (dec b) +:+ s2)
  = match a ?= b with
    | Eq => String.compare s1 s2
    | c => c
    end.
Proof. intros. rewrite !zfill_two_digits by done. by apply compare_two_digits. Qed.

(** The names of two exports compare as their times do, to the second. *)
Lemma export_path_sortable t1 t2 :
  wall_clock t1 -> wall_clock t2 ->
  String.compare (export_path t1) (export_path t2)
  = lex_compare (to_the_second t1) (to_the_second t2).
Proof.
  intros (Hy1 & Hm1 & Hd1 & Hh1 & Hmi1 & Hs1) (Hy2 & Hm2 & Hd2 & Hh2 & Hmi2 & Hs2).
  unfold export_path, Date.strftime. rewrite !str_app_assoc.
  rewrite compare_same_prefix, compare_same_prefix.
  rewrite compare_year by done.
  rewrite !compare_padded by lia.
  rewrite (compare_same_prefix "_").
  rewrite !compare_padded by lia.
  rewrite compare_same. cbn [lex_compare to_the_second].
  repeat match goal with |- context [?a ?= ?b] => destruct (a ?= b) end; done.
Qed.

Lemma strftime_length t : wall_clock t -> String.length (Date.strftime t) = 15%nat.
Proof.
  intros (Hy & Hm & Hd & Hh & Hmi & Hs). unfold Date.strftime.
  rewrite dec_year, !zfill_two_digits by lia. reflexivity.
Qed.

Lemma lex_compare_eq k1 k2 : lex_compare k1 k2 = Eq <-> k1 = k2.
Proof.
  revert k2. induction k1 as [|x k1 IH]; intros [|y k2]; cbn; try done.
  destruct (Z.compare_spec x y) as [->|?|?].
  - rewrite IH. split; [by intros ->|by intros [= ->]].
  - split; [done|intros [= ? ?]; lia].
  - split; [done|intros [= ? ?]; lia].
Qed.

(** C7, as amended: exporting no records raises no error: it prints that
    there is nothing to export, returns, and creates no file.  Exporting
    records writes one file, the header and
    then the records in their order (which read back as such when within
    the field limit of the reader), and leaves the other files alone.
    The name of the file holds the time of the clock in the form
    YYYYMMDD_HHMMSS: for clock times with a year of four digits it has
    15 characters, two names are in the order of their times to the
    second, and they are the same only for the same second. *)
Theorem export_rows_writes_timestamped_file (w : world) (rows : list (list string)) :
  export_rows [] w = (with_stdout (stdout w ++ [NothingToExport]) w, Ok tt)
  /\ (rows <> [] ->
      export_rows rows w
      = (mkWorld (stdin w)
           (stdout w ++ [Exported (length rows) (export_path (clock w))])
           (<[export_path (clock w) := writerow HEADERS +:+ writerows rows]> (files w))
           (clock w),
         Ok tt))
  /\ (Forall (Forall fits) rows ->
      reader (writerow HEADERS +:+ writerows rows) = Ok (HEADERS :: rows))
  /\ export_path (clock w)
     = "data/reports/" +:+ Date.strftime (clock w) +:+ "_export.csv"
  /\ (forall t1 t2,
        wall_clock t1 -> wall_clock t2 ->
        String.length (Date.strftime t1) = 15%nat
        /\ String.compare (export_path t1) (export_path t2)
           = lex_compare (to_the_second t1) (to_the_second t2)
        /\ (export_path t1 = export_path t2 <-> to_the_second t1 = to_the_second t2)).
Proof.
  split; [done|]. split; [by destruct rows|]. split.
  { intros Hfit. apply (reader_writerows (HEADERS :: rows)).
    constructor; [apply headers_fit|done]. }
  split; [done|].
  intros t1 t2 H1 H2. split; [by apply strftime_length|].
  split; [by apply export_path_sortable|].
  rewrite <- lex_compare_eq, <- export_path_sortable by done.
  split; [intros ->; apply compare_same|apply String.compare_eq_iff].
Qed.

Lemma export_rows_writes_timestamped_file_witness :
  String.compare
    (export_path (Date.mkDatetime (Date.mkDate 2025 12 31) 23 59 59 999999))
    (export_path (Date.mkDatetime (Date.mkDate 2026 1 1) 0 0 0 0))
  = Lt.
Proof.
  destruct (export_rows_writes_timestamped_file empty_world scenario)
    as (_ & _ & _ & _ & Hsort).
  destruct (Hsort (Date.mkDatetime (Date.mkDate 2025 12 31) 23 59 59 999999)
              (Date.mkDatetime (Date.mkDate 2026 1 1) 0 0 0 0)) as (_ & -> & _).
  - unfold wall_clock. cbn. lia.
  - unfold wall_clock. cbn. lia.
  - reflexivity.
Defined.

(** C7 as stated fails: exporting no records does not fail with an error;
    the function prints its message and returns as usual.  No file is
    created. *)
Lemma export_rows_nothing_returns_normally :
  (export_rows [] empty_world).2 = Ok tt
  /\ stdout (export_rows [] empty_world).1 = [NothingToExport]
  /\ files (export_rows [] empty_world).1 = ∅.
Proof. done. Qed.

(** * The amounts in the file *)

(** C8 fails on the code: [add_expense] hands the rounded float to the csv
    writer, which writes it with [str], so an amount typed as 12.5 is in
    the file as 12.5 and not as 12.50; [edit_by_index] formats the amount
    with two decimals and writes 12.50 for the same answer. *)
Theorem add_expense_writes_shortest_digits :
  files (add_expense
           (mkWorld ["2025-01-05"; "12.5"; "Food"; "lunch"] []
              {[CSV := writerow HEADERS]} noon)).1 !! CSV
  = Some (writerow HEADERS +:+ writerow ["2025-01-05"; "12.5"; "Food"; "lunch"])
  /\ files (edit_by_index (scenario_typing ["0"; ""; "12.5"; ""; ""])).1 !! CSV
     = Some (serialize [["2025-01-05"; "12.50"; "Food"; "lunch"]; bus_pass; snack]).
Proof. by vm_compute. Qed.

(** Both write an amount that is not a number of two decimals when the
    answer is [inf] or [nan], which [float] accepts. *)
Example amounts_that_are_not_finite :
  files (add_expense
           (mkWorld ["2025-01-05"; "nan"; "Food"; "lunch"] []
              {[CSV := writerow HEADERS]} noon)).1 !! CSV
  = Some (writerow HEADERS +:+ writerow ["2025-01-05"; "nan"; "Food"; "lunch"])
  /\ files (edit_by_index (scenario_typing ["0"; ""; "inf"; ""; ""])).1 !! CSV
     = Some (serialize [["2025-01-05"; "inf"; "Food"; "lunch"]; bus_pass; snack]).
Proof. by vm_compute. Qed.

(** * The prompts that ask again *)

Lemma retry_lines_skip {A} (body : string -> result A) msg bad : forall out line rest,
  Forall (fun l => body l = Raise ValueError) bad ->
  body line <> Raise ValueError ->
  retry_lines body msg (bad ++ line :: rest) out
  = (rest, out ++ replicate (length bad) msg, body line).
Proof.
  induction bad as [|b bad IH]; intros out line rest Hbad Hline; cbn.
  - rewrite app_nil_r. by destruct (body line) as [|[]].
  - apply Forall_cons in Hbad as [-> Hbad].
    rewrite IH by done. by rewrite <- app_assoc.
Qed.

Lemma retry_lines_eof {A} (body : string -> result A) msg lines : forall out,
  Forall (fun l => body l = Raise ValueError) lines ->
  retry_lines body msg lines out
  = ([], out ++ replicate (length lines) msg, Raise EOFError).
Proof.
  induction lines as [|b lines IH]; intros out Hbad; cbn.
  - by rewrite app_nil_r.
  - apply Forall_cons in Hbad as [-> Hbad].
    rewrite IH by done. by rewrite <- app_assoc.
Qed.

(** Every run of the loop is one of the two. *)
Lemma retry_lines_inv {A} (body : string -> result A) msg lines : forall out,
  (Forall (fun l => body l = Raise ValueError) lines
   /\ retry_lines body msg lines out
      = ([], out ++ replicate (length lines) msg, Raise EOFError))
  \/ exists bad line rest,
       lines = bad ++ line :: rest
       /\ Forall (fun l => body l = Raise ValueError) bad
       /\ body line <> Raise ValueError
       /\ retry_lines body msg lines out
          = (rest, out ++ replicate (length bad) msg, body line).
Proof.
  induction lines as [|l lines IH]; intros out.
  - left. split; [done|]. cbn. by rewrite app_nil_r.
  - assert (Hdec : body l = Raise ValueError \/ body l <> Raise ValueError)
      by (destruct (body l) as [|[]]; auto).
    destruct Hdec as [Hl|Hl].
    + destruct (IH (out ++ [msg])) as [[Hall Heq]|(bad & line & rest & -> & Hbad & Hline & Heq)].
      * left. split; [by constructor|]. cbn. rewrite Hl, Heq. by rewrite <- app_assoc.
      * right. exists (l :: bad), line, rest. repeat split; [by constructor|done|].
        cbn. rewrite Hl, Heq. by rewrite <- app_assoc.
    + right. exists [], l, lines. repeat split; [done..|].
      cbn. rewrite app_nil_r. by destruct (body l) as [|[]].
Qed.

Lemma ask_amount_eq w :
  ask_amount w
  = let '(rest, out, r) :=
      retry_lines (fun line => Float.round2 <$> Float.of_str (replace_comma (strip line)))
        BadAmount (stdin w) (stdout w) in
    (mkWorld rest out (files w) (clock w), r).
Proof. reflexivity. Qed.

Lemma fmap_raises {A B} (f : A -> B) (m : result A) e :
  f <$> m = Raise e <-> m = Raise e.
Proof. destruct m; cbn; split; congruence. Qed.

(** X8: [ask_amount] passes over the lines that are not numbers, with one
    message for each, and returns the first number typed, rounded to two
    decimals; when no line is a number it takes them all and ends with
    the end of the input. *)
Theorem ask_amount_first_number (w : world) (bad : list string) :
  Forall not_an_amount bad ->
  (forall line rest x,
     stdin w = bad ++ line :: rest ->
     Float.of_str (replace_comma (strip line)) = Ok x ->
     ask_amount w = (answered (length bad) BadAmount rest w, Ok (Float.round2 x)))
  /\ (stdin w = bad ->
      ask_amount w = (answered (length bad) BadAmount [] w, Raise EOFError)).
Proof.
  intros Hbad.
  assert (Hbody : Forall (fun l => Float.round2 <$> Float.of_str (replace_comma (strip l))
                                   = Raise ValueError) bad).
  { eapply Forall_impl; [done|]. intros l Hl. by apply fmap_raises. }
  split.
  - intros line rest x Hin Hx. rewrite ask_amount_eq, Hin.
    rewrite retry_lines_skip by (done || by rewrite Hx). by rewrite Hx.
  - intros Hin. rewrite ask_amount_eq, Hin. by rewrite retry_lines_eof.
Qed.

Lemma ask_amount_first_number_witness :
  ask_amount (mkWorld ["twelve"; "1,234.50"; " 12,5 "; "Food"] [] ∅ noon)
  = (mkWorld ["Food"] [BadAmount; BadAmount] ∅ noon,
     Ok (Float.round2 (S754_finite false 7036874417766400 (-49)))).
Proof.
  refine (proj1 (ask_amount_first_number
                   (mkWorld ["twelve"; "1,234.50"; " 12,5 "; "Food"] [] ∅ noon)
                   ["twelve"; "1,234.50"] _) " 12,5 " ["Food"] _ _ _).
  - repeat constructor; by vm_compute.
  - reflexivity.
  - by vm_compute.
Defined.

Lemma ask_date_eq w :
  ask_date true w
  = let '(rest, out, r) :=
      retry_lines (fun line =>
                     let raw := strip line in
                     if bool_decide (raw = "") && true
                     then Ok (Date.isoformat (Date.on (clock w)))
                     else Date.isoformat <$> parse_iso_date raw)
        BadDate (stdin w) (stdout w) in
    (mkWorld rest out (files w) (clock w), r).
Proof. reflexivity. Qed.

Lemma ask_optional_date_eq w :
  ask_optional_date w
  = let '(rest, out, r) :=
      retry_lines (fun line =>
                     let raw := strip line in
                     if bool_decide (raw = "") then Ok None
                     else (fun d => Some (Date.isoformat d)) <$> parse_iso_date raw)
        BadOptionalDate (stdin w) (stdout w) in
    (mkWorld rest out (files w) (clock w), r).
Proof. reflexivity. Qed.

Lemma parse_iso_date_empty : parse_iso_date "" = Raise ValueError.
Proof. reflexivity. Qed.

(** X6: [ask_date] passes over the lines that are neither blank nor a date,
    with one message for each; a blank line then gives the day of the
    clock, a date gives that date, both in the form of [isoformat]. *)
Theorem ask_date_first_date (w : world) (bad : list string) (line : string)
    (rest : list string) :
  stdin w = bad ++ line :: rest ->
  Forall not_a_date bad ->
  (strip line = "" ->
   ask_date true w
   = (answered (length bad) BadDate rest w, Ok (Date.isoformat (Date.on (clock w)))))
  /\ (forall d, parse_iso_date (strip line) = Ok d ->
      ask_date true w = (answered (length bad) BadDate rest w, Ok (Date.isoformat d))).
Proof.
  intros Hin Hbad.
  assert (Hbody : Forall (fun l =>
             (let raw := strip l in
              if bool_decide (raw = "") && true
              then Ok (Date.isoformat (Date.on (clock w)))
              else Date.isoformat <$> parse_iso_date raw) = Raise ValueError) bad).
  { eapply Forall_impl; [done|]. intros l [Hne Hl]. cbn zeta.
    rewrite bool_decide_false by done. cbn [andb]. by apply fmap_raises. }
  split.
  - intros Hblank. rewrite ask_date_eq, Hin.
    rewrite retry_lines_skip; [|done|]; cbn zeta; by rewrite Hblank.
  - intros d Hd. rewrite ask_date_eq, Hin.
    assert (Hne : strip line <> "").
    { intros Hblank. by rewrite Hblank, parse_iso_date_empty in Hd. }
    rewrite retry_lines_skip; [|done|]; cbn zeta;
      rewrite bool_decide_false by done; cbn [andb]; by rewrite Hd.
Qed.

Lemma ask_date_first_date_witness :
  ask_date true (mkWorld ["5 Jan"; "2025-02-30"; " 20250301 "; "9.99"] [] ∅ noon)
  = (mkWorld ["9.99"] [BadDate; BadDate] ∅ noon, Ok "2025-03-01").
Proof.
  refine (proj2 (ask_date_first_date
                   (mkWorld ["5 Jan"; "2025-02-30"; " 20250301 "; "9.99"] [] ∅ noon)
                   ["5 Jan"; "2025-02-30"] " 20250301 " ["9.99"] _ _)
                (Date.mkDate 2025 3 1) _).
  - reflexivity.
  - repeat constructor; by vm_compute.
  - by vm_compute.
Defined.

(** X7: [ask_optional_date] passes over the lines that are neither blank nor
    a date, with one message for each; a blank line then gives no date,
    a date gives that date in the form of [isoformat]. *)
Theorem ask_optional_date_first_date (w : world) (bad : list string) (line : string)
    (rest : list string) :
  stdin w = bad ++ line :: rest ->
  Forall not_a_date bad ->
  (strip line = "" ->
   ask_optional_date w = (answered (length bad) BadOptionalDate rest w, Ok None))
  /\ (forall d, parse_iso_date (strip line) = Ok d ->
      ask_optional_date w
      = (answered (length bad) BadOptionalDate rest w, Ok (Some (Date.isoformat d)))).
Proof.
  intros Hin Hbad.
  assert (Hbody : Forall (fun l =>
             (let raw := strip l in
              if bool_decide (raw = "") then Ok None
              else (fun d => Some (Date.isoformat d)) <$> parse_iso_date raw)
             = Raise ValueError) bad).
  { eapply Forall_impl; [done|]. intros l [Hne Hl]. cbn zeta.
    rewrite bool_decide_false by done. by apply fmap_raises. }
  split.
  - intros Hblank. rewrite ask_optional_date_eq, Hin.
    rewrite retry_lines_skip; [|done|]; cbn zeta; by rewrite Hblank.
  - intros d Hd. rewrite ask_optional_date_eq, Hin.
    assert (Hne : strip line <> "").
    { intros Hblank. by rewrite Hblank, parse_iso_date_empty in Hd. }
    rewrite retry_lines_skip; [|done|]; cbn zeta;
      rewrite bool_decide_false by done; by rewrite Hd.
Qed.

Lemma ask_optional_date_first_date_witness :
  ask_optional_date (mkWorld ["soon"; "  "; "lunch"] [] ∅ noon)
  = (mkWorld ["lunch"] [BadOptionalDate] ∅ noon, Ok None).
Proof.
  refine (proj1 (ask_optional_date_first_date
                   (mkWorld ["soon"; "  "; "lunch"] [] ∅ noon)
                   ["soon"] "  " ["lunch"] _ _) _).
  - reflexivity.
  - repeat constructor; by vm_compute.
  - by vm_compute.
Defined.

Lemma is_space_replace_comma c :
  is_space (if bool_decide (c = COMMA) then "."%char else c) = is_space c.
Proof. case_bool_decide; [by subst|done]. Qed.

Lemma lstrip_replace_comma s :
  lstrip is_space (replace_comma s) = replace_comma (lstrip is_space s).
Proof.
  induction s as [|c s IH]; [done|]. cbn [replace_comma lstrip].
  rewrite is_space_replace_comma. by destruct (is_space c).
Qed.

Lemma rstrip_replace_comma s :
  rstrip is_space (replace_comma s) = replace_comma (rstrip is_space s).
Proof.
  induction s as [|c s IH]; [done|]. cbn [replace_comma rstrip]. rewrite IH.
  destruct (rstrip is_space s) as [|c' t]; cbn [replace_comma].
  - rewrite is_space_replace_comma. by destruct (is_space c).
  - done.
Qed.

Lemma strip_replace_comma s : strip (replace_comma s) = replace_comma (strip s).
Proof.
  unfold strip, strip_with. by rewrite lstrip_replace_comma, rstrip_replace_comma.
Qed.

Lemma replace_comma_idem s : replace_comma (replace_comma s) = replace_comma s.
Proof.
  induction s as [|c s IH]; [done|]. cbn [replace_comma]. rewrite IH.
  by repeat case_bool_decide.
Qed.

Lemma retry_lines_fmap {A} (body : string -> result A) (f : string -> string) msg lines :
  forall out,
  (forall l, body (f l) = body l) ->
  retry_lines body msg (f <$> lines) out
  = let '(rest, out', r) := retry_lines body msg lines out in (f <$> rest, out', r).
Proof.
  induction lines as [|l lines IH]; intros out Hf; [done|].
  cbn [fmap list_fmap retry_lines]. rewrite Hf.
  destruct (body l) as [a|[]]; try done. by apply IH.
Qed.

(** X30: A comma typed for the decimal point is read as the point: with
    the commas of every line typed replaced by points, [ask_amount]
    turns down the same lines, prints the same, and returns the same
    amount. *)
Theorem ask_amount_comma_is_point (w : world) :
  ask_amount (mkWorld (replace_comma <$> stdin w) (stdout w) (files w) (clock w))
  = (mkWorld (replace_comma <$> stdin (ask_amount w).1) (stdout (ask_amount w).1)
       (files w) (clock w),
     (ask_amount w).2).
Proof.
  rewrite !ask_amount_eq. cbn [stdin stdout files clock].
  rewrite retry_lines_fmap.
  - by destruct (retry_lines _ _ _ _) as [[rest out] r].
  - intros l. by rewrite strip_replace_comma, replace_comma_idem.
Qed.

(** * Dates in the form of [isoformat] *)

Lemma digit_is_digit k :
  0 <= k <= 9 ->
  Float.is_digit (digit k) = true /\ Float.digit_val (digit k) = k
  /\ (N_of_ascii (digit k) <? 128)%N = true /\ digit k <> "W"%char /\ digit k <> "-"%char.
Proof.
  intros Hk.
  assert (H : Forall (fun k => Float.is_digit (digit k) = true
                               /\ Float.digit_val (digit k) = k
                               /\ (N_of_ascii (digit k) <? 128)%N = true
                               /\ digit k <> "W"%char /\ digit k <> "-"%char) (seqZ 0 10))
    by (repeat constructor; by vm_compute).
  rewrite Forall_forall in H. apply H, elem_of_seqZ. lia.
Qed.

Lemma two_digits_app n rest :
  two_digits n +:+ rest = String (digit (n / 10)) (String (digit (n mod 10)) rest).
Proof. reflexivity. Qed.

Lemma parse_two_digits n acc rest :
  0 <= n < 100 ->
  Date.parse_digits 2 acc (two_digits n +:+ rest) = Some (100 * acc + n, rest).
Proof.
  intros Hn. rewrite two_digits_app.
  pose proof (Z.div_mod n 10 ltac:(lia)). pose proof (Z.mod_pos_bound n 10 ltac:(lia)).
  destruct (digit_is_digit (n / 10)) as (Ha & Hva & _); [lia|].
  destruct (digit_is_digit (n mod 10)) as (Hb & Hvb & _); [lia|].
  cbn [Date.parse_digits]. rewrite Ha, Hb, Hva, Hvb.
  by replace (10 * (10 * acc + n / 10) + n mod 10) with (100 * acc + n) by lia.
Qed.

Lemma parse_four_digits a b rest :
  0 <= a < 100 -> 0 <= b < 100 ->
  Date.parse_digits 4 0 (two_digits a +:+ two_digits b +:+ rest) = Some (100 * a + b, rest).
Proof.
  intros Ha Hb. rewrite !two_digits_app.
  pose proof (Z.div_mod a 10 ltac:(lia)). pose proof (Z.mod_pos_bound a 10 ltac:(lia)).
  pose proof (Z.div_mod b 10 ltac:(lia)). pose proof (Z.mod_pos_bound b 10 ltac:(lia)).
  destruct (digit_is_digit (a / 10)) as (Ha1 & Hva1 & _); [lia|].
  destruct (digit_is_digit (a mod 10)) as (Ha0 & Hva0 & _); [lia|].
  destruct (digit_is_digit (b / 10)) as (Hb1 & Hvb1 & _); [lia|].
  destruct (digit_is_digit (b mod 10)) as (Hb0 & Hvb0 & _); [lia|].
  cbn [Date.parse_digits]. rewrite Ha1, Ha0, Hb1, Hb0, Hva1, Hva0, Hvb1, Hvb0.
  by replace (10 * (10 * (10 * (10 * 0 + a / 10) + a mod 10) + b / 10) + b mod 10)
    with (100 * a + b) by lia.
Qed.

Lemma utf8_len_two_digits n rest :
  0 <= n < 100 -> Date.utf8_len (two_digits n +:+ rest) = 2 + Date.utf8_len rest.
Proof.
  intros Hn. rewrite two_digits_app.
  pose proof (Z.div_mod n 10 ltac:(lia)). pose proof (Z.mod_pos_bound n 10 ltac:(lia)).
  destruct (digit_is_digit (n / 10)) as (_ & _ & Ha & _); [lia|].
  destruct (digit_is_digit (n mod 10)) as (_ & _ & Hb & _); [lia|].
  cbn [Date.utf8_len]. rewrite Ha, Hb. lia.
Qed.

Lemma utf8_len_dash rest : Date.utf8_len (String "-" rest) = 1 + Date.utf8_len rest.
Proof. reflexivity. Qed.

(** A year is written with four digits. *)
Lemma zfill_year y :
  0 <= y <= 9999 -> zfill 4 (dec y) = two_digits (y / 100) +:+ two_digits (y mod 100).
Proof.
  intros Hy.
  assert (H : Forall (fun y => zfill 4 (dec y)
                               = two_digits (y / 100) +:+ two_digits (y mod 100))
                (seqZ 0 10000)) by (apply (bool_decide_unpack _); by vm_compute).
  rewrite Forall_forall in H. apply H, elem_of_seqZ. lia.
Qed.

Lemma isoformat_digits y m d :
  0 <= y <= 9999 -> 0 <= m < 100 -> 0 <= d < 100 ->
  Date.isoformat (Date.mkDate y m d)
  = two_digits (y / 100) +:+ two_digits (y mod 100) +:+ String "-" (two_digits m
      +:+ String "-" (two_digits d +:+ "")).
Proof.
  intros Hy Hm Hd. unfold Date.isoformat. cbn [Date.year Date.month Date.day].
  rewrite zfill_year, !zfill_two_digits by done.
  rewrite !str_app_assoc. by rewrite str_app_nil_r.
Qed.

Lemma days_in_month_bound y m : 28 <= Date.days_in_month y m <= 31.
Proof.
  unfold Date.days_in_month.
  destruct (m =? 2); [destruct (Date.is_leap y); lia|]. destruct (_ || _); lia.
Qed.

Lemma valid_date_bounds d :
  valid_date d ->
  1 <= Date.year d <= 9999 /\ 1 <= Date.month d <= 12
  /\ 1 <= Date.day d <= Date.days_in_month (Date.year d) (Date.month d).
Proof.
  unfold valid_date, Date.check_date.
  destruct (_ && _) eqn:H; [|done]. intros _.
  repeat (apply andb_prop in H as [H ?]). lia.
Qed.

Lemma fromisoformat_valid s d : Date.fromisoformat s = Ok d -> valid_date d.
Proof.
  unfold Date.fromisoformat. destruct (_ || _); [|done].
  destruct (Date.parse_isoformat_date s) as [d'|]; [|done]. cbn.
  destruct (Date.check_date d') as [d''|] eqn:Hcheck; [|done].
  intros [= <-]. unfold valid_date.
  unfold Date.check_date in Hcheck |- *. destruct (_ && _) eqn:H; [|done].
  injection Hcheck as <-. by rewrite H.
Qed.

Lemma fromisoformat_isoformat d :
  valid_date d -> Date.fromisoformat (Date.isoformat d) = Ok d.
Proof.
  intros Hvalid. pose proof (valid_date_bounds d Hvalid) as (Hy & Hm & Hd).
  pose proof (days_in_month_bound (Date.year d) (Date.month d)).
  destruct d as [y m dd]. cbn [Date.year Date.month Date.day] in *.
  rewrite isoformat_digits by lia.
  pose proof (Z.div_mod y 100 ltac:(lia)). pose proof (Z.mod_pos_bound y 100 ltac:(lia)).
  assert (Hlen : Date.utf8_len
            (two_digits (y / 100) +:+ two_digits (y mod 100) +:+ String "-" (two_digits m
               +:+ String "-" (two_digits dd +:+ ""))) = 10).
  { repeat first [rewrite utf8_len_two_digits by lia | rewrite utf8_len_dash].
    reflexivity. }
  unfold Date.fromisoformat. rewrite Hlen. cbn [Z.eqb Pos.eqb orb].
  unfold Date.parse_isoformat_date.
  rewrite parse_four_digits by lia.
  cbn [mbind option_bind]. rewrite <- H0.
  assert (Hday : Date.parse_digits 2 0 (two_digits dd +:+ "") = Some (dd, ""))
    by (rewrite parse_two_digits by lia; do 2 f_equal; lia).
  assert (Hmon : Date.parse_digits 2 0 (two_digits m +:+ String "-" (two_digits dd +:+ ""))
                 = Some (m, String "-" (two_digits dd +:+ "")))
    by (rewrite parse_two_digits by lia; do 2 f_equal; lia).
  assert (Hc : m = 1 \/ m = 2 \/ m = 3 \/ m = 4 \/ m = 5 \/ m = 6 \/ m = 7 \/ m = 8
               \/ m = 9 \/ m = 10 \/ m = 11 \/ m = 12) by lia.
  clear Hlen. repeat (destruct Hc as [Hc|Hc]); subst m.
  all: rewrite (two_digits_app _ (String "-" _)) in *.
  all: match goal with
       | |- context [digit ?k] =>
           let c := eval vm_compute in (digit k) in change (digit k) with c in *
       end.
  all: match goal with
       | |- context [digit ?k] =>
           let c := eval vm_compute in (digit k) in change (digit k) with c in *
       end.
  all: cbv beta iota. 
  all: rewrite Hmon; cbn [mbind option_bind Date.skip_dash].
  all: rewrite Hday; cbn [mbind option_bind].
  all: unfold valid_date in Hvalid; by rewrite Hvalid.
Qed.

(** X5: A date [parse_iso_date] takes, in whichever of its forms, is written
    by [isoformat] with ten characters, and [parse_iso_date] takes what
    is written as the same date. *)
Theorem parse_iso_date_isoformat (s : string) (d : Date.date) :
  parse_iso_date s = Ok d ->
  parse_iso_date (Date.isoformat d) = Ok d
  /\ String.length (Date.isoformat d) = 10%nat.
Proof.
  intros Hs. apply fromisoformat_valid in Hs.
  split; [by apply fromisoformat_isoformat|].
  pose proof (valid_date_bounds d Hs) as (Hy & Hm & Hd).
  pose proof (days_in_month_bound (Date.year d) (Date.month d)).
  destruct d as [y m dd]. cbn [Date.year Date.month Date.day] in *.
  by rewrite isoformat_digits by lia.
Qed.

Lemma parse_iso_date_isoformat_witness :
  parse_iso_date (Date.isoformat (Date.mkDate 2025 1 5)) = Ok (Date.mkDate 2025 1 5)
  /\ String.length (Date.isoformat (Date.mkDate 2025 1 5)) = 10%nat.
Proof.
  apply (parse_iso_date_isoformat "2025-W01-7" (Date.mkDate 2025 1 5)).
  by vm_compute.
Defined.

(** * The store under [ensure_dirs_and_csv], [add_expense] and [delete_last_entry] *)

Lemma ensure_dirs_and_csv_eq w :
  ensure_dirs_and_csv w = (with_files (ensured (files w)) w, Ok tt).
Proof.
  destruct w as [i o fs c]. unfold ensure_dirs_and_csv, ensured, write_file, with_files.
  cbn [files stdin stdout clock].
  by destruct (fs !! CSV) as [[|a content]|].
Qed.

(** X1: After [ensure_dirs_and_csv] the file of the store is there and is
    not empty.  A file that was missing or empty holds the header line;
    a file that held anything is left as it was, with or without a
    header.  No other file is touched, and running it again changes
    nothing. *)
Theorem ensure_dirs_and_csv_header (w : world) :
  (exists c rest, files (ensure_dirs_and_csv w).1 !! CSV = Some (String c rest))
  /\ (files w !! CSV = None \/ files w !! CSV = Some "" ->
      ensure_dirs_and_csv w
      = (with_files (<[CSV := "Date,Amount,Category,Description" +:+ lineterminator]>
                       (files w)) w, Ok tt))
  /\ (forall c rest, files w !! CSV = Some (String c rest) ->
      ensure_dirs_and_csv w = (w, Ok tt))
  /\ (forall path, path <> CSV ->
      files (ensure_dirs_and_csv w).1 !! path = files w !! path)
  /\ ensure_dirs_and_csv (ensure_dirs_and_csv w).1 = ensure_dirs_and_csv w.
Proof.
  rewrite !ensure_dirs_and_csv_eq. cbn [fst files with_files].
  split; [apply ensured_lookup|]. split; [|split; [|split]].
  - unfold ensured. by intros [-> | ->].
  - intros c rest H. unfold ensured. rewrite H. by destruct w.
  - intros path Hpath. unfold ensured.
    destruct (files w !! CSV) as [[|? ?]|]; try done; by rewrite lookup_insert_ne.
  - unfold with_files. cbn [files stdin stdout clock]. by rewrite ensured_idem.
Qed.

Lemma ensure_dirs_and_csv_header_witness :
  ensure_dirs_and_csv empty_world
  = (with_files (<[CSV := "Date,Amount,Category,Description" +:+ lineterminator]> ∅)
       empty_world, Ok tt).
Proof.
  destruct (ensure_dirs_and_csv_header empty_world) as (_ & Hfresh & _).
  apply Hfresh. by left.
Defined.

Lemma read_rows_true_eq w :
  read_rows true w
  = (with_files (ensured (files w)) w,
     match ensured (files w) !! CSV with
     | Some content => reader content
     | None => Raise FileNotFoundError
     end).
Proof.
  unfold read_rows, bind. rewrite ensure_dirs_and_csv_eq.
  unfold read_file, lift, ret. cbn [files with_files stdin stdout clock].
  destruct (ensured (files w) !! CSV) as [content|]; [|done].
  by destruct (reader content) as [[|r0 rest]|].
Qed.

Lemma stored_ensured rows fs : stored rows fs -> ensured fs = fs.
Proof. unfold stored, ensured. by intros ->. Qed.

Lemma stored_loaded rows fs :
  stored rows fs -> Forall (Forall fits) rows -> loaded fs = Ok rows.
Proof.
  intros Hst Hfit. rewrite <- (insert_id fs CSV (serialize rows)) by done.
  by apply loaded_written.
Qed.

Lemma with_files_same w : with_files (files w) w = w.
Proof. by destruct w. Qed.

(** X2: On a store whose file is missing or empty, [read_rows] writes the
    header line and returns no record; with [include_header] it returns
    the header alone. *)
Theorem read_rows_fresh_store (w : world) :
  files w !! CSV = None \/ files w !! CSV = Some "" ->
  read_rows false w = (with_files (<[CSV := serialize []]> (files w)) w, Ok [])
  /\ read_rows true w = (with_files (<[CSV := serialize []]> (files w)) w, Ok [HEADERS])
  /\ serialize [] = "Date,Amount,Category,Description" +:+ lineterminator.
Proof.
  intros Hfresh.
  assert (Hens : ensured (files w) = <[CSV := serialize []]> (files w)).
  { unfold ensured. by destruct Hfresh as [-> | ->]. }
  split; [|split; [|done]].
  - rewrite read_rows_eq, Hens. f_equal. unfold loaded. rewrite Hens.
    by rewrite lookup_insert_eq.
  - rewrite read_rows_true_eq, Hens. f_equal. by rewrite lookup_insert_eq.
Qed.

Lemma read_rows_fresh_store_witness :
  read_rows false empty_world = (with_files (<[CSV := serialize []]> ∅) empty_world, Ok []).
Proof.
  destruct (read_rows_fresh_store empty_world) as (H & _); [by left|]. exact H.
Defined.

(** X3: A store that holds the header and records, as [write_rows] writes
    them, is left as it is by [read_rows], which returns the records,
    and with [include_header] the header before them; only the first row
    is taken for the header, a record that reads like it is kept. *)
Theorem read_rows_written_store (w : world) (rows : list (list string)) :
  stored rows (files w) ->
  Forall (Forall fits) rows ->
  read_rows false w = (w, Ok rows)
  /\ read_rows true w = (w, Ok (HEADERS :: rows)).
Proof.
  intros Hst Hfit. rewrite read_rows_eq, read_rows_true_eq.
  rewrite (stored_ensured rows) by done. rewrite with_files_same.
  split; [by rewrite (stored_loaded rows)|].
  rewrite Hst, serialize_writerows, reader_writerows; [done|].
  constructor; [apply headers_fit|done].
Qed.

Lemma read_rows_written_store_witness :
  read_rows false (write_rows [HEADERS; lunch] empty_world).1
  = ((write_rows [HEADERS; lunch] empty_world).1, Ok [HEADERS; lunch]).
Proof.
  destruct (read_rows_written_store (write_rows [HEADERS; lunch] empty_world).1
              [HEADERS; lunch]) as (H & _).
  - reflexivity.
  - repeat constructor; by vm_compute.
  - exact H.
Defined.

Lemma retry_lines_ext {A} (f g : string -> result A) msg lines : forall out,
  (forall l, f l = g l) -> retry_lines f msg lines out = retry_lines g msg lines out.
Proof.
  induction lines as [|l lines IH]; intros out Hfg; [done|].
  cbn. rewrite Hfg. destruct (g l) as [|[]]; try done. by apply IH.
Qed.

Lemma ask_date_retry w : ask_date true w = retry (date_taken (clock w)) BadDate w.
Proof.
  unfold ask_date, retry. erewrite retry_lines_ext; [done|].
  intros l. unfold date_taken. cbn zeta. by rewrite andb_true_r.
Qed.

Lemma not_a_date_taken t l : date_taken t l = Raise ValueError <-> not_a_date l.
Proof.
  unfold date_taken, not_a_date. case_bool_decide as Hl.
  - split; [done|]. by intros [? _].
  - rewrite fmap_raises. split; [done|]. by intros [_ ?].
Qed.

Lemma date_taken_raises t l e : date_taken t l = Raise e -> e = ValueError.
Proof.
  unfold date_taken. case_bool_decide; [done|]. rewrite fmap_raises.
  unfold parse_iso_date, Date.fromisoformat. destruct (_ || _); [|congruence].
  destruct (_ ≫= _); congruence.
Qed.

(** Every run of [add_expense]: the input ends before the four answers
    are in, and no file is written; or lines are turned down, four
    answers are taken, and one record goes to the end of the file. *)
Lemma add_expense_inv w :
  ((add_expense w).2 = Raise EOFError /\ files (add_expense w).1 = files w
   /\ stdin (add_expense w).1 = [])
  \/ exists bad1 l1 bad2 l2 l3 l4 rest date x,
       stdin w = bad1 ++ l1 :: bad2 ++ l2 :: l3 :: l4 :: rest
       /\ Forall not_a_date bad1 /\ date_taken (clock w) l1 = Ok date
       /\ Forall not_an_amount bad2 /\ Float.of_str (replace_comma (strip l2)) = Ok x
       /\ add_expense w
          = (mkWorld rest
               (stdout w ++ replicate (length bad1) BadDate
                  ++ replicate (length bad2) BadAmount ++ [Saved])
               (<[CSV := default "" (files w !! CSV) +:+ writerow (added date x l3 l4)]>
                  (files w))
               (clock w),
             Ok tt).
Proof.
  remember (add_expense w) as run eqn:Hrun.
  unfold add_expense, bind at 1 in Hrun. rewrite ask_date_retry in Hrun.
  unfold retry at 1 in Hrun.
  destruct (retry_lines_inv (date_taken (clock w)) BadDate (stdin w) (stdout w))
    as [[_ Heq]|(bad1 & l1 & rest1 & Hin & Hbad1 & Hl1 & Heq)];
    rewrite Heq in Hrun; clear Heq; [subst run; by left|].
  destruct (date_taken (clock w) l1) as [date|e] eqn:Hdate.
  2:{ apply date_taken_raises in Hdate as ->. done. }
  unfold bind at 1 in Hrun. rewrite ask_amount_eq in Hrun.
  cbn [stdin stdout files clock] in Hrun.
  destruct (retry_lines_inv
              (fun line => Float.round2 <$> Float.of_str (replace_comma (strip line)))
              BadAmount rest1 (stdout w ++ replicate (length bad1) BadDate))
    as [[_ Heq]|(bad2 & l2 & rest2 & -> & Hbad2 & Hl2 & Heq)];
    rewrite Heq in Hrun; clear Heq; [subst run; by left|].
  destruct (Float.of_str (replace_comma (strip l2))) as [x|e] eqn:Hamt.
  2:{ apply of_str_raises in Hamt as ->. done. }
  cbn [fmap result_fmap] in Hrun. unfold bind, input in Hrun.
  cbn [stdin stdout files clock] in Hrun.
  destruct rest2 as [|l3 rest3]; [subst run; by left|].
  cbn [stdin stdout files clock] in Hrun.
  destruct rest3 as [|l4 rest4]; [subst run; by left|].
  cbn [stdin stdout files clock] in Hrun.
  right. exists bad1, l1, bad2, l2, l3, l4, rest4, date, x.
  split; [done|]. split.
  { eapply Forall_impl; [done|]. intros l. by apply not_a_date_taken. }
  split; [done|]. split.
  { eapply Forall_impl; [done|]. intros l Hl. by apply fmap_raises in Hl. }
  split; [done|]. subst run.
  unfold append_file, print, added, category_taken. cbn [stdin stdout files clock].
  by rewrite <- !app_assoc.
Qed.




Lemma writerows_snoc rows r : writerows (rows ++ [r]) = writerows rows +:+ writerow r.
Proof.
  induction rows as [|r0 rows IH]; cbn [app writerows].
  - by rewrite str_app_nil_r.
  - by rewrite IH, str_app_assoc.
Qed.

Lemma serialize_snoc rows r : serialize (rows ++ [r]) = serialize rows +:+ writerow r.
Proof.
  rewrite !serialize_writerows. change (HEADERS :: rows ++ [r]) with ((HEADERS :: rows) ++ [r]).
  apply writerows_snoc.
Qed.

(** X10: On a store that holds the header and [rows], a run of [add_expense]
    that saves leaves the header, [rows] and after them one new record
    of four fields; [read_rows] then returns [rows] with the new record
    at the end, when the fields are within the field limit of the
    reader. *)
Theorem add_expense_appends (w : world) (rows : list (list string)) :
  stored rows (files w) ->
  (add_expense w).2 = Ok tt ->
  exists r,
    length r = 4%nat
    /\ stored (rows ++ [r]) (files (add_expense w).1)
    /\ (forall path, path <> CSV -> files (add_expense w).1 !! path = files w !! path)
    /\ (Forall (Forall fits) (rows ++ [r]) ->
        (read_rows false (add_expense w).1).2 = Ok (rows ++ [r])).
Proof.
  intros Hst Hok.
  destruct (add_expense_inv w)
    as [(Hr & _)|(bad1 & l1 & bad2 & l2 & l3 & l4 & rest & date & x
                  & Hin & Hbad1 & Hdate & Hbad2 & Hx & Hrun)]; [congruence|].
  exists (added date x l3 l4). rewrite Hrun. cbn [fst files].
  rewrite Hst. unfold default. cbn [from_option id]. rewrite <- serialize_snoc.
  split; [done|]. split; [|split].
  - unfold stored. by rewrite lookup_insert_eq.
  - intros path Hpath. by rewrite lookup_insert_ne.
  - intros Hfit. rewrite read_rows_result. cbn [files]. by apply loaded_written.
Qed.

Lemma add_expense_appends_witness :
  exists r,
    length r = 4%nat
    /\ stored (scenario ++ [r])
         (files (add_expense (scenario_typing ["2025-02-02"; "3,5"; ""; "coffee"])).1)
    /\ (forall path, path <> CSV ->
        files (add_expense (scenario_typing ["2025-02-02"; "3,5"; ""; "coffee"])).1 !! path
        = files (scenario_typing ["2025-02-02"; "3,5"; ""; "coffee"]) !! path)
    /\ (Forall (Forall fits) (scenario ++ [r]) ->
        (read_rows false
           (add_expense (scenario_typing ["2025-02-02"; "3,5"; ""; "coffee"])).1).2
        = Ok (scenario ++ [r])).
Proof.
  apply (add_expense_appends (scenario_typing ["2025-02-02"; "3,5"; ""; "coffee"]) scenario).
  - reflexivity.
  - by vm_compute.
Defined.

Lemma delete_last_entry_eq w :
  delete_last_entry w
  = match loaded (files w) with
    | Ok rows =>
        match last rows with
        | None => (with_stdout (stdout w ++ [NoExpensesToDelete]) (opened w), Ok tt)
        | Some l =>
            (mkWorld (stdin w) (stdout w ++ [DeletedLast l])
               (<[CSV := serialize (removelast rows)]> (ensured (files w))) (clock w),
             Ok tt)
        end
    | Raise e => (opened w, Raise e)
    end.
Proof.
  unfold delete_last_entry, bind. rewrite read_rows_eq.
  destruct (loaded (files w)) as [rows|e]; [|done].
  by destruct (last rows).
Qed.

(** X11: [delete_last_entry] on a store of records takes the last one away:
    the file then holds the records before it, in their order, which is
    what [read_rows] returns next, and the record is printed as deleted.
    On a store without records it prints that there is nothing to delete
    and leaves the file as it was read. *)
Theorem delete_last_entry_removes_last (w : world) :
  (forall rows l,
     (read_rows false w).2 = Ok (rows ++ [l]) ->
     delete_last_entry w
     = (mkWorld (stdin w) (stdout w ++ [DeletedLast l])
          (<[CSV := serialize rows]> (files (read_rows false w).1)) (clock w),
        Ok tt)
     /\ (read_rows false (delete_last_entry w).1).2 = Ok rows)
  /\ ((read_rows false w).2 = Ok [] ->
      delete_last_entry w
      = (with_stdout (stdout w ++ [NoExpensesToDelete]) (read_rows false w).1, Ok tt)).
Proof.
  rewrite read_rows_result, read_rows_files. split.
  - intros rows l Hload. rewrite delete_last_entry_eq, Hload.
    rewrite last_snoc, removelast_last. split; [done|].
    rewrite read_rows_result. cbn [fst files]. apply loaded_written.
    apply loaded_fits in Hload. by apply Forall_app in Hload as [? _].
  - intros Hload. rewrite delete_last_entry_eq, Hload. cbn [last].
    by rewrite read_rows_eq.
Qed.

Lemma delete_last_entry_removes_last_witness :
  delete_last_entry (scenario_typing [])
  = (mkWorld [] [DeletedLast snack]
       (<[CSV := serialize [lunch; bus_pass]]> (files (read_rows false (scenario_typing [])).1))
       noon,
     Ok tt)
  /\ (read_rows false (delete_last_entry (scenario_typing [])).1).2 = Ok [lunch; bus_pass].
Proof.
  destruct (delete_last_entry_removes_last (scenario_typing [])) as [H _].
  apply (H [lunch; bus_pass] snack). by vm_compute.
Defined.

(** X12: [delete_last_entry] undoes [add_expense]: on a store that holds the
    header and [rows], a run of [add_expense] that saves, followed by
    [delete_last_entry], leaves every file as it was before the two, when
    the fields are within the field limit of the reader; the record
    printed as deleted is the one that was added. *)
Theorem delete_last_entry_undoes_add_expense (w : world) (rows : list (list string)) :
  stored rows (files w) ->
  Forall (Forall fits) rows ->
  (add_expense w).2 = Ok tt ->
  exists r,
    stored (rows ++ [r]) (files (add_expense w).1)
    /\ (Forall fits r ->
        files ((add_expense ;; delete_last_entry) w).1 = files w
        /\ ((add_expense ;; delete_last_entry) w).2 = Ok tt
        /\ last (stdout ((add_expense ;; delete_last_entry) w).1) = Some (DeletedLast r)).
Proof.
  intros Hst Hfit Hok.
  destruct (add_expense_inv w)
    as [(Hr & _)|(bad1 & l1 & bad2 & l2 & l3 & l4 & rest & date & x
                  & Hin & Hbad1 & Hdate & Hbad2 & Hx & Hrun)]; [congruence|].
  exists (added date x l3 l4). unfold bind. rewrite Hrun. cbn [fst files].
  rewrite Hst. unfold default. cbn [from_option id]. rewrite <- serialize_snoc.
  split; [unfold stored; by rewrite lookup_insert_eq|].
  intros Hr. rewrite delete_last_entry_eq. cbn [files stdin stdout clock].
  rewrite loaded_written by (apply Forall_app; split; [done|by constructor]).
  rewrite last_snoc, removelast_last, ensured_written, insert_insert_eq.
  cbn [fst snd files stdout]. split; [|split; [done|by rewrite last_snoc]].
  by apply insert_id.
Qed.

Lemma delete_last_entry_undoes_add_expense_witness :
  exists r,
    stored (scenario ++ [r])
      (files (add_expense (scenario_typing ["2025-02-02"; "3,5"; ""; "coffee"])).1)
    /\ (Forall fits r ->
        files ((add_expense ;; delete_last_entry)
                 (scenario_typing ["2025-02-02"; "3,5"; ""; "coffee"])).1
        = files (scenario_typing ["2025-02-02"; "3,5"; ""; "coffee"])
        /\ ((add_expense ;; delete_last_entry)
              (scenario_typing ["2025-02-02"; "3,5"; ""; "coffee"])).2 = Ok tt
        /\ last (stdout ((add_expense ;; delete_last_entry)
                           (scenario_typing ["2025-02-02"; "3,5"; ""; "coffee"])).1)
           = Some (DeletedLast r)).
Proof.
  apply (delete_last_entry_undoes_add_expense
           (scenario_typing ["2025-02-02"; "3,5"; ""; "coffee"]) scenario).
  - reflexivity.
  - repeat constructor; by vm_compute.
  - by vm_compute.
Defined.

(** * More on deleting and editing by index *)

(** With an answer that is not a whole number no index is taken. *)
Lemma not_a_number_keeps_files w rows table line rest action :
  loaded (files w) = Ok rows -> rows <> [] ->
  format_expense_table rows true = Ok table ->
  stdin w = line :: rest ->
  int_of_str (strip line) = Raise ValueError ->
  action ∈ [edit_by_index; delete_by_index] ->
  action w
  = (mkWorld rest (stdout w ++ [Text table; EnterANumber]) (ensured (files w)) (clock w),
     Ok tt).
Proof.
  intros Hload Hne Htable Hin Hint Haction.
  destruct rows as [|r rows'] eqn:Hrows; [done|]. rewrite <- Hrows in *.
  repeat (apply elem_of_cons in Haction as [-> | Haction]);
    [| |by apply elem_of_nil in Haction].
  - unfold edit_by_index, bind. rewrite read_rows_eq, Hload, Hrows. rewrite <- Hrows.
    unfold lift. rewrite Htable. unfold print at 1.
    cbn [stdin stdout files clock with_files].
    rewrite ask_index_eq. cbn [stdin stdout files clock]. rewrite Hin, Hint.
    unfold typed, with_stdout, ret. cbn [stdin stdout files clock]. by rewrite <- app_assoc.
  - unfold delete_by_index, bind. rewrite read_rows_eq, Hload, Hrows. rewrite <- Hrows.
    unfold lift. rewrite Htable. unfold print at 1.
    cbn [stdin stdout files clock with_files].
    rewrite ask_index_eq. cbn [stdin stdout files clock]. rewrite Hin, Hint.
    unfold typed, with_stdout, ret. cbn [stdin stdout files clock]. by rewrite <- app_assoc.
Qed.

(** X13: When the answer to the prompt for the index is not a whole number,
    [edit_by_index] and [delete_by_index] print the table and the
    message that asks for a number, take no further line, and return;
    the file stays as it was read and the same records are read next. *)
Theorem index_not_a_number (w : world) (rows : list (list string)) (line : string)
    (rest : list string) (action : io unit) :
  (read_rows false w).2 = Ok rows ->
  rows <> [] ->
  Forall two_cells rows ->
  stdin w = line :: rest ->
  int_of_str (strip line) = Raise ValueError ->
  action ∈ [edit_by_index; delete_by_index] ->
  exists table,
    format_expense_table rows true = Ok table
    /\ action w
       = (mkWorld rest (stdout w ++ [Text table; EnterANumber])
            (files (read_rows false w).1) (clock w),
          Ok tt)
    /\ (read_rows false (action w).1).2 = Ok rows.
Proof.
  intros Hload Hne Hcells Hin Hint Haction.
  rewrite read_rows_result in Hload. rewrite read_rows_files.
  destruct (format_expense_table_ok rows Hcells) as [table Htable].
  exists table. split; [done|].
  rewrite (not_a_number_keeps_files w rows table line rest action) by done.
  split; [done|]. rewrite read_rows_result. cbn [fst files].
  by rewrite loaded_ensured.
Qed.

Lemma index_not_a_number_witness :
  exists table,
    format_expense_table scenario true = Ok table
    /\ delete_by_index (scenario_typing ["1.0"; "2"])
       = (mkWorld ["2"] ([] ++ [Text table; EnterANumber])
            (files (read_rows false (scenario_typing ["1.0"; "2"])).1) noon,
          Ok tt)
    /\ (read_rows false (delete_by_index (scenario_typing ["1.0"; "2"])).1).2 = Ok scenario.
Proof.
  apply (index_not_a_number (scenario_typing ["1.0"; "2"]) scenario "1.0" ["2"]
           delete_by_index).
  - by vm_compute.
  - done.
  - repeat constructor; unfold two_cells; cbn; lia.
  - reflexivity.
  - by vm_compute.
  - repeat constructor.
Defined.

Lemma retry_lines_ok {A} (body : string -> result A) msg lines out rest out' a :
  retry_lines body msg lines out = (rest, out', Ok a) -> exists line, body line = Ok a.
Proof.
  destruct (retry_lines_inv body msg lines out)
    as [[_ ->]|(bad & line & rest0 & _ & _ & _ & ->)]; [done|].
  intros [= _ _ H]. by exists line.
Qed.

Lemma with_sign_app s a b : Float.with_sign s (a +:+ b) = Float.with_sign s a +:+ b.
Proof. by destruct s. Qed.

(** The [.2f] format of a number: two digits after the point. *)
Lemma format_2f_two_decimals x :
  x = S754_nan \/ (exists s, x = S754_infinity s) \/ two_decimals (Float.format_2f x).
Proof.
  destruct x as [s|s| |s m e]; [|by right; left; eexists|by left|]; right; right.
  - exists (Float.with_sign s "0"), 0. split; [lia|]. by destruct s.
  - unfold Float.format_2f.
    set (i := Float.round_half_even _).
    exists (Float.with_sign s (dec (i / 100))), (i mod 100).
    pose proof (Z.mod_pos_bound i 100 ltac:(lia)). split; [done|].
    rewrite with_sign_app. by rewrite zfill_two_digits.
Qed.

Lemma with_default_nonempty default line : default <> "" -> with_default default line <> "".
Proof. intros Hd. unfold with_default. cbn zeta. by case_bool_decide. Qed.

(** X14: Whatever is typed, [edit_by_index] writes nothing, or it writes the
    records with one of them replaced by a record of four fields: a date
    that [parse_iso_date] takes, as it was typed or kept; an amount in
    the [.2f] format, with two digits after the point unless it is
    infinite or not a number; a category that is not empty; and the
    description. *)
Theorem edit_by_index_writes_checked_record (w : world) (rows : list (list string)) :
  (read_rows false w).2 = Ok rows ->
  files (edit_by_index w).1 = files (read_rows false w).1
  \/ exists i date x cat desc d,
       (i < length rows)%nat
       /\ (edit_by_index w).2 = Ok tt
       /\ files (edit_by_index w).1
          = <[CSV := serialize (<[i := [date; Float.format_2f x; cat; desc]]> rows)]>
              (files (read_rows false w).1)
       /\ parse_iso_date date = Ok d
       /\ (x = S754_nan \/ (exists s, x = S754_infinity s)
           \/ two_decimals (Float.format_2f x))
       /\ cat <> "".
Proof.
  rewrite read_rows_result, read_rows_files.
  intros Hload. remember (edit_by_index w) as run eqn:Hrun.
  unfold edit_by_index, bind in Hrun. rewrite read_rows_eq, Hload in Hrun.
  destruct rows as [|r rows']; [subst run; by left|]. set (rows := r :: rows') in *.
  unfold lift in Hrun.
  destruct (format_expense_table rows true) as [table|]; [|subst run; by left].
  unfold print at 1 in Hrun. cbn [stdin stdout files clock with_files] in Hrun.
  rewrite ask_index_eq in Hrun. cbn [stdin stdout files clock] in Hrun.
  destruct (stdin w) as [|line rest]; [subst run; by left|].
  destruct (int_of_str (strip line)) as [idx|[]]; try (subst run; by left).
  destruct (_ || _) eqn:Hrange; [subst run; by left|].
  apply orb_false_elim in Hrange as [Hneg%Z.ltb_ge Hlen%Z.leb_gt].
  destruct (rows !! Z.to_nat idx) as [[|date [|amt [|cat [|desc [|? ?]]]]]|] eqn:Hi;
    try (subst run; by left).
  unfold retry, typed in Hrun. cbn [stdin stdout files clock] in Hrun.
  destruct (retry_lines _ BadDateEdit rest _) as [[rest1 out1] [new_date|]] eqn:Hdate;
    [|subst run; by left].
  cbn [stdin stdout files clock] in Hrun.
  destruct (retry_lines _ BadAmountEdit rest1 _) as [[rest2 out2] [new_amt|]] eqn:Hamt;
    [|subst run; by left].
  unfold input_with_default, bind, input, ret in Hrun.
  cbn [stdin stdout files clock] in Hrun.
  destruct rest2 as [|c rest3]; [subst run; by left|].
  cbn [stdin stdout files clock] in Hrun.
  destruct rest3 as [|e rest4]; [subst run; by left|].
  apply retry_lines_ok in Hdate as [l1 Hl1]. apply retry_lines_ok in Hamt as [l2 Hl2].
  cbn zeta in Hl1, Hl2.
  destruct (parse_iso_date (with_default date l1)) as [d|] eqn:Hd; [|done].
  injection Hl1 as <-.
  destruct (Float.of_str _) as [x|] eqn:Hx; [|done]. injection Hl2 as <-.
  subst run. right.
  exists (Z.to_nat idx), (with_default date l1), (Float.round2 x),
    (with_default (if bool_decide (cat = "") then "General" else cat) c),
    (with_default desc e), d.
  split; [lia|]. split; [done|]. split; [done|]. split; [done|].
  split; [apply format_2f_two_decimals|].
  apply with_default_nonempty. by case_bool_decide.
Qed.

Lemma edit_by_index_writes_checked_record_witness :
  files (edit_by_index (scenario_typing ["2"; "2025-02-03"; "10,5"; ""; ""])).1
  = files (read_rows false (scenario_typing ["2"; "2025-02-03"; "10,5"; ""; ""])).1
  \/ exists i date x cat desc d,
       (i < length scenario)%nat
       /\ (edit_by_index (scenario_typing ["2"; "2025-02-03"; "10,5"; ""; ""])).2 = Ok tt
       /\ files (edit_by_index (scenario_typing ["2"; "2025-02-03"; "10,5"; ""; ""])).1
          = <[CSV := serialize (<[i := [date; Float.format_2f x; cat; desc]]> scenario)]>
              (files (read_rows false (scenario_typing ["2"; "2025-02-03"; "10,5"; ""; ""])).1)
       /\ parse_iso_date date = Ok d
       /\ (x = S754_nan \/ (exists s, x = S754_infinity s)
           \/ two_decimals (Float.format_2f x))
       /\ cat <> "".
Proof.
  apply (edit_by_index_writes_checked_record
           (scenario_typing ["2"; "2025-02-03"; "10,5"; ""; ""]) scenario).
  by vm_compute.
Defined.

(** * The tables *)

Lemma length_str_app (s t : string) :
  String.length (s +:+ t) = (String.length s + String.length t)%nat.
Proof. induction s as [|c s IH]; [done|]. rewrite str_app_cons. cbn. by rewrite IH. Qed.

Lemma ljust_length w s : (String.length s <= w)%nat -> String.length (ljust w s) = w.
Proof.
  intros Hs. unfold ljust. rewrite length_str_app, length_str_of, length_replicate. lia.
Qed.

Lemma str_join_length sep l :
  String.length (str_join sep l) = join_width (String.length sep) (String.length <$> l).
Proof.
  induction l as [|s l IH]; [done|]. destruct l as [|s' l]; [done|].
  cbn [str_join fmap list_fmap join_width] in *.
  rewrite !length_str_app, IH. lia.
Qed.

Lemma within_cons c row w widths :
  within (c :: row) (w :: widths) <-> (String.length c <= w)%nat /\ within row widths.
Proof.
  unfold within. split.
  - intros H. split.
    + destruct (H 0%nat w eq_refl) as (c' & [= <-] & Hc). done.
    + intros j w' Hj. by destruct (H (S j) w' Hj) as (c' & Hc' & Hle); eauto.
  - intros [Hc H] [|j] w' Hj; cbn in *.
    + injection Hj as <-. eauto.
    + by apply H.
Qed.

Lemma within_nil_inv w widths : ~ within [] (w :: widths).
Proof. intros H. by destruct (H 0%nat w eq_refl) as (c & Hc & _). Qed.

(** Padded to the widths, the cells have the widths. *)
Lemma padded_lengths (widths : list nat) : forall row : list string,
  within row widths ->
  String.length <$> zip_with (fun c w => ljust w c) row widths = widths.
Proof.
  induction widths as [|w widths IH]; intros row Hrow.
  - by destruct row.
  - destruct row as [|c row]; [by apply within_nil_inv in Hrow|].
    apply within_cons in Hrow as [Hc Hrow]. cbn. by rewrite ljust_length, IH.
Qed.

Lemma rule_lengths (widths : list nat) :
  String.length <$> ((fun w => str_of (replicate w "-"%char)) <$> widths) = widths.
Proof.
  induction widths as [|w widths IH]; [done|]. cbn.
  by rewrite length_str_of, length_replicate, IH.
Qed.

Lemma col_widths_cons r r' rs :
  col_widths (r :: r' :: rs) = zip_with Nat.max (String.length <$> r) (col_widths (r' :: rs)).
Proof. reflexivity. Qed.

(** The columns are as wide as their widest cell. *)
Lemma col_widths_within all_rows :
  Forall (fun r => within r (col_widths all_rows)) all_rows.
Proof.
  induction all_rows as [|r rs IH]; [done|]. destruct rs as [|r' rs].
  - constructor; [|done]. intros j w Hj. cbn in Hj.
    rewrite list_lookup_fmap in Hj. destruct (r !! j) as [c|]; [|done].
    injection Hj as <-. eauto.
  - rewrite col_widths_cons. constructor.
    + intros j w Hj. apply lookup_zip_with_Some in Hj as (a & b & -> & Ha & Hb).
      rewrite list_lookup_fmap in Ha. destruct (r !! j) as [c|]; [|done].
      injection Ha as <-. exists c. split; [done|]. lia.
    + eapply Forall_impl; [exact IH|]. intros r0 Hr0 j w Hj.
      apply lookup_zip_with_Some in Hj as (a & b & -> & Ha & Hb).
      destruct (Hr0 j b Hb) as (c & Hc & Hle). exists c. split; [done|]. lia.
Qed.

(** The table has the columns of its shortest row. *)
Lemma col_widths_shortest all_rows :
  all_rows <> [] -> Exists (fun r => length r = length (col_widths all_rows)) all_rows.
Proof.
  induction all_rows as [|r rs IH]; [done|]. intros _. destruct rs as [|r' rs].
  - left. cbn. by rewrite length_fmap.
  - rewrite col_widths_cons.
    destruct (decide (length r <= length (col_widths (r' :: rs)))%nat) as [Hle|Hgt].
    + left. rewrite length_zip_with, length_fmap. lia.
    + right. eapply Exists_impl; [by apply IH|]. intros r0 Hr0. cbn beta in *.
      rewrite length_zip_with, length_fmap. lia.
Qed.

(** X16: The lines of a table are equally long: the header, the rule under
    it, and one line for each further row, each cell padded to the width
    of its column, the widest cell in it; a table has as many columns as
    its shortest row, and the cells beyond are left out. *)
Theorem table_lines_equally_long (all_rows : list (list string)) :
  all_rows <> [] ->
  exists lines,
    _format_table_generic all_rows = str_join (String LF "") lines
    /\ length lines = S (length all_rows)
    /\ Forall (fun l => String.length l = join_width 3 (col_widths all_rows)) lines
    /\ Forall (fun r => (length (col_widths all_rows) <= length r)%nat) all_rows
    /\ Exists (fun r => length r = length (col_widths all_rows)) all_rows.
Proof.
  intros Hne. destruct all_rows as [|r0 rs]; [done|].
  pose proof (col_widths_within (r0 :: rs)) as Hwithin.
  set (widths := col_widths (r0 :: rs)) in *.
  set (fmt_row := fun row : list string =>
                    str_join " | " (zip_with (fun c w => ljust w c) row widths)).
  exists (fmt_row r0 :: str_join "-+-" ((fun w => str_of (replicate w "-"%char)) <$> widths)
          :: (fmt_row <$> rs)).
  split; [done|]. split; [cbn; by rewrite length_fmap|]. split; [|split].
  - assert (Hrow : forall r, within r widths ->
                     String.length (fmt_row r) = join_width 3 widths).
    { intros r Hr. unfold fmt_row. by rewrite str_join_length, padded_lengths. }
    apply Forall_cons in Hwithin as [H0 Hrs].
    constructor; [by apply Hrow|]. constructor.
    + by rewrite str_join_length, rule_lengths.
    + apply Forall_fmap. eapply Forall_impl; [exact Hrs|]. intros r Hr. by apply Hrow.
  - eapply Forall_impl; [exact Hwithin|]. intros r Hr.
    destruct (decide (length widths <= length r)%nat) as [|Hlt]; [done|].
    destruct (lookup_lt_is_Some_2 widths (length r)) as [w Hw]; [lia|].
    destruct (Hr _ _ Hw) as (c & Hc & _). apply lookup_lt_Some in Hc. lia.
  - by apply col_widths_shortest.
Qed.

Lemma table_lines_equally_long_witness :
  exists lines,
    _format_table_generic [["Category"; "Total"]; ["Food"; "22.49"]; ["Transport"; "40.00"]]
    = str_join (String LF "") lines
    /\ length lines = 4%nat
    /\ Forall (fun l => String.length l
                        = join_width 3 (col_widths [["Category"; "Total"]; ["Food"; "22.49"];
                                                    ["Transport"; "40.00"]])) lines
    /\ Forall (fun r => (length (col_widths [["Category"; "Total"]; ["Food"; "22.49"];
                                             ["Transport"; "40.00"]]) <= length r)%nat)
         [["Category"; "Total"]; ["Food"; "22.49"]; ["Transport"; "40.00"]]
    /\ Exists (fun r => length r
                        = length (col_widths [["Category"; "Total"]; ["Food"; "22.49"];
                                              ["Transport"; "40.00"]]))
         [["Category"; "Total"]; ["Food"; "22.49"]; ["Transport"; "40.00"]].
Proof.
  apply (table_lines_equally_long
           [["Category"; "Total"]; ["Food"; "22.49"]; ["Transport"; "40.00"]]).
  done.
Defined.

Lemma mapM_raises {A B} (f : A -> result B) (l : list A) e :
  mapM f l = Raise e -> exists x, x ∈ l /\ f x = Raise e.
Proof.
  induction l as [|x l IH]; [done|]. cbn.
  destruct (f x) as [y|e'] eqn:Hx; cbn.
  - destruct (mapM f l) as [ys|e'] eqn:Hl; [done|]. cbn. intros [= ->].
    destruct IH as (x' & Hin & Hx'); [done|]. exists x'. split; [by right|done].
  - intros [= ->]. exists x. split; [by left|done].
Qed.

Lemma mapM_ok_inv {A B} (f : A -> result B) (l : list A) ys :
  mapM f l = Ok ys -> Forall (fun x => exists y, f x = Ok y) l.
Proof.
  revert ys. induction l as [|x l IH]; intros ys; [done|]. cbn.
  destruct (f x) as [y|e'] eqn:Hx; [|done]. cbn.
  destruct (mapM f l) as [ys'|e'] eqn:Hl; [|done]. intros _.
  constructor; [by eexists|]. by eapply IH.
Qed.

Lemma money_row_inv r :
  (two_cells r /\ exists r', money_row r = Ok r' /\ length r' = length r)
  \/ (~ two_cells r /\ money_row r = Raise IndexError).
Proof.
  unfold two_cells, money_row. destruct r as [|d [|amt r]]; cbn.
  - right. split; [lia|done].
  - right. split; [lia|done].
  - left. split; [lia|]. by eexists.
Qed.

(** X15: [format_expense_table] needs an amount in every row: with a row of
    fewer than two cells, as a blank line of the file is read, it raises
    [IndexError]; otherwise it returns a table, for no rows the text
    that there are no expenses. *)
Theorem format_expense_table_needs_amounts (rows : list (list string)) (show_index : bool) :
  (Forall two_cells rows -> exists table, format_expense_table rows show_index = Ok table)
  /\ (~ Forall two_cells rows -> format_expense_table rows show_index = Raise IndexError)
  /\ format_expense_table [] show_index = Ok "No expenses yet.".
Proof.
  split; [|split; [|done]].
  - intros Hrows. unfold format_expense_table. destruct rows as [|r rows]; [by eexists|].
    destruct (mapM_ok
      (fun '(idx, r) =>
         r' ← money_row r; Ok ((if show_index then [dec (Z.of_nat idx)] else []) ++ r'))
      (zip (seq 0 (length (r :: rows))) (r :: rows))) as [body Hbody].
    + apply Forall_forall. intros [idx r0] Hin. apply elem_of_zip_r in Hin.
      destruct (money_row_inv r0) as [(_ & r' & -> & _)|[Hr0 _]]; [by eexists|].
      rewrite Forall_forall in Hrows. by destruct Hr0; apply Hrows.
    + rewrite Hbody. by eexists.
  - intros Hrows. unfold format_expense_table.
    destruct rows as [|r rows]; [by destruct Hrows|].
    destruct (mapM _ _) as [body|e] eqn:Hbody; cbn.
    + destruct Hrows. apply mapM_ok_inv in Hbody. apply Forall_forall. intros r0 Hr0.
      apply list_elem_of_lookup in Hr0 as [i Hi].
      rewrite Forall_forall in Hbody.
      destruct (Hbody (i, r0)) as [y Hy].
      { apply list_elem_of_lookup. exists i. apply lookup_zip_with_Some.
        exists i, r0. split; [done|]. split; [|done].
        apply lookup_seq. split; [done|]. by apply lookup_lt_Some in Hi. }
      cbn in Hy. by destruct (money_row_inv r0) as [[? _]|[_ Hr]]; [|rewrite Hr in Hy].
    + apply mapM_raises in Hbody as ([idx r0] & _ & Hr0). cbn in Hr0.
      destruct (money_row_inv r0) as [(_ & r' & Hr' & _)|[_ Hr]].
      * by rewrite Hr' in Hr0.
      * rewrite Hr in Hr0. by injection Hr0 as <-.
Qed.

Lemma format_expense_table_needs_amounts_witness :
  format_expense_table [lunch; []] true = Raise IndexError.
Proof.
  destruct (format_expense_table_needs_amounts [lunch; []] true) as (_ & H & _).
  apply H. intros Hrows. apply Forall_cons in Hrows as [_ Hrows].
  apply Forall_cons in Hrows as [Hrow _]. unfold two_cells in Hrow. cbn in Hrow. lia.
Defined.

(** * More on the filter *)

Lemma satisfies_split c s e t r :
  satisfies c s e t r
  = satisfies c None None None r && satisfies None s e None r && satisfies None None None t r.
Proof.
  unfold satisfies, satisfies_stated.
  destruct r as [|d [|amt [|cat [|desc [|? ?]]]]]; try done.
  cbn [mbind option_bind].
  destruct (c ≫= or_none), s, e, t; cbn [andb];
    repeat match goal with |- context [if ?b then _ else _] => destruct b end;
    repeat (destruct (bool_decide _) || destruct (String.leb _ _) || destruct (contains _ _));
    done.
Qed.

Lemma satisfies_none r : four_cells r -> satisfies None None None None r = true.
Proof. by intros (d & amt & cat & desc & ->)%four_cells_inv. Qed.

Lemma four_cells_filter (P : list string -> Prop) `{!forall r, Decision (P r)} rows :
  Forall four_cells rows -> Forall four_cells (filter P rows).
Proof.
  rewrite !Forall_forall. intros Hrows r Hr.
  apply list_elem_of_filter in Hr as [_ Hr]. by apply Hrows.
Qed.

Lemma filter_rows_no_criteria rows :
  Forall four_cells rows -> filter_rows rows None None None None = Ok rows.
Proof.
  intros Hrows. rewrite filter_rows_filter by done. f_equal.
  induction Hrows as [|r rows Hr Hrows IH]; [done|].
  rewrite filter_cons, decide_True by (by rewrite satisfies_none). by rewrite IH.
Qed.

(** X17: On records of four fields: without criteria [filter_rows] returns
    its input; filtering what was filtered, by the same criteria, changes
    nothing; and filtering by the category, then by the dates, then by
    the text, gives what filtering by all of them at once gives. *)
Theorem filter_rows_in_steps (rows : list (list string))
    (category start_date end_date text : option string) :
  Forall four_cells rows ->
  filter_rows rows None None None None = Ok rows
  /\ (forall out, filter_rows rows category start_date end_date text = Ok out ->
      filter_rows out category start_date end_date text = Ok out)
  /\ (by_cat ← filter_rows rows category None None None;
      by_date ← filter_rows by_cat None start_date end_date None;
      filter_rows by_date None None None text)
     = filter_rows rows category start_date end_date text.
Proof.
  intros Hrows. split; [by apply filter_rows_no_criteria|split].
  - intros out. rewrite filter_rows_filter by done. intros [= <-].
    rewrite filter_rows_filter by (by apply four_cells_filter).
    f_equal. rewrite list_filter_filter. apply list_filter_iff. tauto.
  - rewrite (filter_rows_filter rows category None None None) by done.
    cbn [mbind result_bind]. rewrite filter_rows_filter by (by apply four_cells_filter).
    cbn [mbind result_bind].
    rewrite filter_rows_filter by (by do 2 apply four_cells_filter).
    rewrite filter_rows_filter by done. f_equal.
    rewrite !list_filter_filter. apply list_filter_iff. intros r.
    rewrite (satisfies_split category start_date end_date text r).
    rewrite !andb_True. tauto.
Qed.

Lemma filter_rows_in_steps_witness :
  filter_rows scenario None None None None = Ok scenario
  /\ (forall out, filter_rows scenario (Some "food") None (Some "2025-01-31") (Some "LUNCH")
                  = Ok out ->
      filter_rows out (Some "food") None (Some "2025-01-31") (Some "LUNCH") = Ok out)
  /\ (by_cat ← filter_rows scenario (Some "food") None None None;
      by_date ← filter_rows by_cat None None (Some "2025-01-31") None;
      filter_rows by_date None None None (Some "LUNCH"))
     = filter_rows scenario (Some "food") None (Some "2025-01-31") (Some "LUNCH").
Proof.
  apply (filter_rows_in_steps scenario (Some "food") None (Some "2025-01-31") (Some "LUNCH")).
  repeat constructor.
Defined.

Lemma truthy_lower a b : lower a = lower b -> truthy (Some a) = truthy (Some b).
Proof.
  intros Hab. cbn [truthy]. do 2 case_bool_decide; try done; subst.
  - by apply eq_sym, lower_empty in Hab.
  - by apply lower_empty in Hab.
Qed.

(** X18: The category and the text are compared without regard to case: two
    categories, or two texts, that differ only in the case of their
    letters select the same records, and fail on the same rows. *)
Theorem filter_rows_ignores_case (rows : list (list string)) (c1 c2 t1 t2 : string)
    (start_date end_date : option string) :
  lower c1 = lower c2 ->
  lower t1 = lower t2 ->
  filter_rows rows (Some c1) start_date end_date (Some t1)
  = filter_rows rows (Some c2) start_date end_date (Some t2).
Proof.
  intros Hc Ht. induction rows as [|r rows IH]; [done|].
  cbn [filter_rows]. destruct r as [|d [|amt [|cat [|desc [|? ?]]]]]; try done.
  rewrite (truthy_lower c1 c2), (truthy_lower t1 t2) by done.
  cbn [default from_option id]. unfold default. cbn [from_option id].
  by rewrite Hc, Ht, IH.
Qed.

Lemma filter_rows_ignores_case_witness :
  filter_rows scenario (Some "FOOD") None None (Some "Lunch")
  = filter_rows scenario (Some "food") None None (Some "lUNCH").
Proof.
  apply (filter_rows_ignores_case scenario "FOOD" "food" "Lunch" "lUNCH" None None);
    reflexivity.
Defined.

Lemma str_cons_app (c : ascii) (s : string) : String c s = String c "" +:+ s.
Proof. reflexivity. Qed.

(** Two dates in the form of [isoformat] compare as strings the way
    their years, months and days compare. *)
Lemma isoformat_compare a b :
  valid_date a -> valid_date b ->
  String.compare (Date.isoformat a) (Date.isoformat b)
  = lex_compare [Date.year a; Date.month a; Date.day a]
      [Date.year b; Date.month b; Date.day b].
Proof.
  intros Ha Hb.
  pose proof (valid_date_bounds a Ha) as (Hya & Hma & Hda).
  pose proof (valid_date_bounds b Hb) as (Hyb & Hmb & Hdb).
  pose proof (days_in_month_bound (Date.year a) (Date.month a)).
  pose proof (days_in_month_bound (Date.year b) (Date.month b)).
  destruct a as [y1 m1 d1], b as [y2 m2 d2]. cbn [Date.year Date.month Date.day] in *.
  rewrite !isoformat_digits by lia.
  pose proof (Z.div_mod y1 100 ltac:(lia)). pose proof (Z.div_mod y2 100 ltac:(lia)).
  pose proof (Z.mod_pos_bound y1 100 ltac:(lia)).
  pose proof (Z.mod_pos_bound y2 100 ltac:(lia)).
  rewrite !compare_two_digits by lia.
  rewrite (str_cons_app "-" (two_digits m1 +:+ _)), (str_cons_app "-" (two_digits m2 +:+ _)).
  rewrite compare_same_prefix, compare_two_digits by lia.
  rewrite (str_cons_app "-" (two_digits d1 +:+ _)), (str_cons_app "-" (two_digits d2 +:+ _)).
  rewrite compare_same_prefix, compare_two_digits by lia.
  cbn [String.compare lex_compare].
  rewrite <- (compare_halves y1 y2).
  by destruct (y1 / 100 ?= y2 / 100), (y1 mod 100 ?= y2 mod 100), (m1 ?= m2), (d1 ?= d2).
Qed.

Lemma isoformat_leb a b :
  valid_date a -> valid_date b ->
  String.leb (Date.isoformat a) (Date.isoformat b) = true <-> on_or_before a b.
Proof.
  intros Ha Hb. unfold String.leb. rewrite isoformat_compare by done.
  unfold on_or_before. cbn [lex_compare].
  destruct (Z.compare_spec (Date.year a) (Date.year b)),
    (Z.compare_spec (Date.month a) (Date.month b)),
    (Z.compare_spec (Date.day a) (Date.day b)); split; (done || lia).
Qed.

(** X19: On dates in the form of [isoformat], as [ask_date] and
    [ask_optional_date] give them, the comparison of strings in
    [in_range] is the comparison of dates: a date is in the range when
    it is not before the start and not after the end. *)
Theorem in_range_by_date (d : Date.date) (start_date end_date : option Date.date) :
  valid_date d ->
  from_option valid_date True start_date ->
  from_option valid_date True end_date ->
  in_range (Date.isoformat <$> start_date) (Date.isoformat <$> end_date) (Date.isoformat d)
  = true
  <-> from_option (fun s => on_or_before s d) True start_date
      /\ from_option (fun e => on_or_before d e) True end_date.
Proof.
  intros Hd Hs He. unfold in_range.
  destruct start_date as [s|], end_date as [e|]; cbn [fmap option_fmap option_map from_option] in *.
  - rewrite andb_true_iff, !isoformat_leb by done. done.
  - rewrite andb_true_r, isoformat_leb by done. tauto.
  - cbn [andb]. rewrite isoformat_leb by done. tauto.
  - done.
Qed.

Lemma in_range_by_date_witness :
  in_range (Date.isoformat <$> Some (Date.mkDate 2024 12 31))
    (Date.isoformat <$> Some (Date.mkDate 2025 1 31)) (Date.isoformat (Date.mkDate 2025 1 5))
  = true
  <-> from_option (fun s => on_or_before s (Date.mkDate 2025 1 5)) True
        (Some (Date.mkDate 2024 12 31))
      /\ from_option (fun e => on_or_before (Date.mkDate 2025 1 5) e) True
           (Some (Date.mkDate 2025 1 31)).
Proof.
  apply (in_range_by_date (Date.mkDate 2025 1 5) (Some (Date.mkDate 2024 12 31))
           (Some (Date.mkDate 2025 1 31))); reflexivity.
Defined.

Lemma leb_trans (a b c : string) :
  String.leb a b = true -> String.leb b c = true -> String.leb a c = true.
Proof.
  intros Hab Hbc. apply Is_true_true. apply Is_true_true in Hab, Hbc.
  change (String.le a c). by etrans.
Qed.

(** X20: A range of dates whose end is before its start, as strings, selects
    no record; nothing is raised for it. *)
Theorem filter_rows_empty_range (rows : list (list string)) (start_date end_date : string)
    (category text : option string) :
  Forall four_cells rows ->
  String.leb start_date end_date = false ->
  filter_rows rows category (Some start_date) (Some end_date) text = Ok [].
Proof.
  intros Hrows Hrange. rewrite filter_rows_filter by done. f_equal.
  induction Hrows as [|r rows Hr Hrows IH]; [done|].
  rewrite filter_cons_False; [done|].
  destruct (four_cells_inv r Hr) as (d & amt & cat & desc & ->).
  unfold satisfies, satisfies_stated. intros Hsat.
  apply Is_true_true in Hsat. rewrite !andb_true_iff in Hsat.
  destruct Hsat as [[[_ Hs] He] _].
  by rewrite (leb_trans start_date d end_date) in Hrange.
Qed.

Lemma filter_rows_empty_range_witness :
  filter_rows scenario None (Some "2025-02-01") (Some "2025-01-01") None = Ok [].
Proof.
  apply (filter_rows_empty_range scenario "2025-02-01" "2025-01-01" None None).
  - repeat constructor.
  - reflexivity.
Defined.

(** * The view *)

Lemma ask_optional_date_retry w :
  ask_optional_date w = retry optional_date_taken BadOptionalDate w.
Proof. reflexivity. Qed.

Lemma optional_date_taken_raises l e : optional_date_taken l = Raise e -> e = ValueError.
Proof.
  unfold optional_date_taken. case_bool_decide; [done|]. rewrite fmap_raises.
  unfold parse_iso_date, Date.fromisoformat. destruct (_ || _); [|congruence].
  destruct (_ ≫= _); congruence.
Qed.

Lemma retry_taken {A} (body : string -> result A) msg w line rest a :
  stdin w = line :: rest -> body line = Ok a ->
  retry body msg w = (typed rest w, Ok a).
Proof. intros Hin Ha. unfold retry. rewrite Hin. cbn. by rewrite Ha. Qed.

Lemma view_expenses_files w : files (view_expenses w).1 = ensured (files w).
Proof.
  unfold view_expenses, bind. rewrite read_rows_eq.
  destruct (loaded (files w)) as [[|r rows]|]; try done.
  unfold input. cbn [stdin stdout files clock with_files].
  destruct (stdin w) as [|yn rest]; [done|]. cbn [stdin stdout files clock].
  case_bool_decide.
  - destruct rest as [|c rest]; [done|]. cbn [stdin stdout files clock].
    rewrite ask_optional_date_retry. unfold retry at 1. cbn [stdin stdout files clock].
    destruct (retry_lines _ _ rest _) as [[rest1 out1] [sdate|]]; [|done].
    rewrite ask_optional_date_retry. unfold retry at 1. cbn [stdin stdout files clock].
    destruct (retry_lines _ _ rest1 _) as [[rest2 out2] [edate|]]; [|done].
    cbn [stdin stdout files clock].
    destruct rest2 as [|t rest2]; [done|]. unfold ret, lift. cbn [stdin stdout files clock].
    destruct (filter_rows _ _ _ _ _) as [[|r' out]|]; try done.
    by destruct (format_expense_table _ _).
  - unfold ret, lift. cbn [stdin stdout files clock].
    destruct (filter_rows _ _ _ _ _) as [[|r' out]|]; try done.
    by destruct (format_expense_table _ _).
Qed.

Lemma summarize_files key header w : files (summarize key header w).1 = ensured (files w).
Proof. rewrite summarize_eq. by destruct (_ ≫= _). Qed.

Lemma show_total_files w : files (show_total w).1 = ensured (files w).
Proof. rewrite show_total_eq. by destruct (_ ≫= _). Qed.

(** X22: The view, the three summaries and the total only read the store:
    whatever is typed, and also when they fail, every file is left as
    [read_rows] leaves it, and the same records are read next. *)
Theorem viewing_reads_only (w : world) :
  Forall (fun after : world =>
            files after = files (read_rows false w).1
            /\ (read_rows false after).2 = (read_rows false w).2)
    [(view_expenses w).1; (summarize_by_category w).1; (summarize_by_date w).1;
     (summarize_by_month w).1; (show_total w).1].
Proof.
  assert (H : forall after : world,
             files after = ensured (files w) ->
             files after = files (read_rows false w).1
             /\ (read_rows false after).2 = (read_rows false w).2).
  { intros after Hafter. rewrite !read_rows_result, read_rows_files, Hafter.
    by rewrite loaded_ensured. }
  repeat apply Forall_cons_2; [..|apply Forall_nil_2]; apply H;
    [apply view_expenses_files|apply (summarize_files by_category)
    |apply (summarize_files by_date)|apply (summarize_files by_month)
    |apply show_total_files].
Qed.

(** X21: On a store of records of four fields, [view_expenses] prints and
    returns all of them when the answer to the first question is not
    [y]; when it is, and the two dates are taken at once, it returns the
    records [filter_rows] selects by the four answers, a blank answer
    standing for no criterion, and prints them, or prints that none
    matches and returns the empty list. *)
Theorem view_expenses_shows_filtered (w : world) (rows : list (list string)) :
  (read_rows false w).2 = Ok rows ->
  rows <> [] ->
  Forall four_cells rows ->
  (forall yn rest,
     stdin w = yn :: rest ->
     lower (strip yn) <> "y" ->
     exists table,
       format_expense_table rows true = Ok table
       /\ view_expenses w
          = (mkWorld rest (stdout w ++ [Text table; Blank]) (files (read_rows false w).1)
               (clock w),
             Ok rows))
  /\ (forall yn c s e t rest sdate edate,
        stdin w = yn :: c :: s :: e :: t :: rest ->
        lower (strip yn) = "y" ->
        optional_date_taken s = Ok sdate ->
        optional_date_taken e = Ok edate ->
        exists out,
          filter_rows rows (or_none (strip c)) sdate edate (or_none (strip t)) = Ok out
          /\ (out = [] ->
              view_expenses w
              = (mkWorld rest (stdout w ++ [NoMatchingExpenses])
                   (files (read_rows false w).1) (clock w),
                 Ok []))
          /\ (out <> [] ->
              exists table,
                format_expense_table out true = Ok table
                /\ view_expenses w
                   = (mkWorld rest (stdout w ++ [Text table; Blank])
                        (files (read_rows false w).1) (clock w),
                      Ok out))).
Proof.
  rewrite read_rows_result, read_rows_files. intros Hload Hne Hrows.
  assert (Htwo : forall out, Forall four_cells out -> Forall two_cells out).
  { intros out Hout. eapply Forall_impl; [exact Hout|].
    unfold four_cells, two_cells. lia. }
  split.
  - intros yn rest Hin Hyn.
    destruct (format_expense_table_ok rows (Htwo _ Hrows)) as [table Htable].
    exists table. split; [done|].
    unfold view_expenses, bind. rewrite read_rows_eq, Hload.
    destruct rows as [|r rows']; [done|]. set (rows := r :: rows') in *.
    unfold input. cbn [stdin stdout files clock with_files]. rewrite Hin.
    cbn [stdin stdout files clock]. rewrite bool_decide_false by done.
    unfold ret, lift. cbn [stdin stdout files clock].
    rewrite filter_rows_no_criteria by done. rewrite Htable. unfold print. subst rows.
    cbn [stdin stdout files clock]. by rewrite <- app_assoc.
  - intros yn c s e t rest sdate edate Hin Hyn Hs He.
    rewrite filter_rows_filter by done. eexists. split; [done|].
    set (out := filter _ rows).
    assert (Hrun : view_expenses w
                   = match out with
                     | [] => (mkWorld rest (stdout w ++ [NoMatchingExpenses])
                                (ensured (files w)) (clock w), Ok [])
                     | _ => bind (lift (format_expense_table out true))
                              (fun table => bind (print (Text table))
                                 (fun _ => bind (print Blank) (fun _ => ret out)))
                              (mkWorld rest (stdout w) (ensured (files w)) (clock w))
                     end).
    { unfold view_expenses, bind at 1. rewrite read_rows_eq, Hload.
      destruct rows as [|r rows']; [done|]. set (rows := r :: rows') in *.
      unfold bind at 1, input at 1. cbn [stdin stdout files clock with_files].
      rewrite Hin. cbn [stdin stdout files clock]. rewrite bool_decide_true by done.
      unfold bind at 1. unfold bind at 1, input at 1. cbn [stdin stdout files clock].
      unfold bind at 1. rewrite ask_optional_date_retry.
      erewrite retry_taken; [|reflexivity|exact Hs].
      unfold bind at 1. rewrite ask_optional_date_retry.
      erewrite retry_taken; [|reflexivity|exact He].
      unfold bind at 1, input at 1, typed. cbn [stdin stdout files clock].
      unfold ret at 1. unfold bind at 1, lift at 1.
      rewrite filter_rows_filter by done. fold out. by destruct out. }
    split.
    + intros Hout. by rewrite Hrun, Hout.
    + intros Hout.
      destruct (format_expense_table_ok out) as [table Htable].
      { apply Htwo. by apply four_cells_filter. }
      exists table. split; [done|]. rewrite Hrun.
      destruct out as [|r' out']; [done|].
      unfold bind, lift. rewrite Htable. unfold print, ret.
      cbn [stdin stdout files clock]. by rewrite <- app_assoc.
Qed.

Lemma view_expenses_shows_filtered_witness :
  (view_expenses (scenario_typing ["Y"; "food"; " "; "2025-01-31"; " "])).2 = Ok [lunch].
Proof.
  destruct (view_expenses_shows_filtered
              (scenario_typing ["Y"; "food"; " "; "2025-01-31"; " "]) scenario)
    as [_ H].
  - by vm_compute.
  - done.
  - repeat constructor.
  - destruct (H "Y" "food" " " "2025-01-31" " " [] None (Some "2025-01-31")
                eq_refl eq_refl eq_refl eq_refl) as (out & Hout & _ & Hsome).
    vm_compute in Hout. injection Hout as <-.
    destruct Hsome as (table & _ & ->); done.
Defined.

(** * More on the summaries *)

(** The total of a group grows as the grand total of its rows does. *)
Lemma group_totals_by_group key k rows : forall t0 t1,
  group_totals key t0 rows = Ok t1 ->
  grand_total (default Float.zero (t0 !! k)) (filter (in_group key k) rows)
  = Ok (default Float.zero (t1 !! k)).
Proof.
  induction rows as [|r rows IH]; intros t0 t1 Hrun.
  - by injection Hrun as <-.
  - destruct r as [|d [|amt [|cat [|desc [|? ?]]]]]; try done.
    rewrite group_totals_cons in Hrun.
    destruct (decide (key d cat = k)) as [Hk|Hk].
    + rewrite filter_cons_True by done. rewrite grand_total_cons.
      destruct (Float.of_str amt) as [x|] eqn:Hx.
      * rewrite <- (IH _ _ Hrun). by rewrite Hk, lookup_insert_eq.
      * by apply IH.
    + rewrite filter_cons_False by done.
      destruct (Float.of_str amt) as [x|] eqn:Hx.
      * rewrite <- (IH _ _ Hrun). by rewrite lookup_insert_ne.
      * by apply IH.
Qed.

(** A group has a total when one of its rows has an amount that parses. *)
Lemma group_totals_keys key k rows : forall t0 t1,
  group_totals key t0 rows = Ok t1 ->
  is_Some (t1 !! k)
  <-> is_Some (t0 !! k) \/ exists r, r ∈ rows /\ in_group key k r /\ amount_parses r.
Proof.
  induction rows as [|r rows IH]; intros t0 t1 Hrun.
  - injection Hrun as <-. split; [by left|]. intros [?|(r & Hr & _)]; [done|].
    by apply elem_of_nil in Hr.
  - destruct r as [|d [|amt [|cat [|desc [|? ?]]]]]; try done.
    rewrite group_totals_cons in Hrun.
    destruct (Float.of_str amt) as [x|] eqn:Hx.
    + rewrite (IH _ _ Hrun). destruct (decide (key d cat = k)) as [Hk|Hk].
      * rewrite Hk, lookup_insert_eq. split; [|by eauto].
        intros _. right. exists [d; amt; cat; desc].
        split; [by left|]. split; [done|]. cbn. by rewrite Hx.
      * rewrite lookup_insert_ne by done. split.
        -- intros [?|(r & Hr & Hg & Hp)]; [by left|]. right. exists r.
           split; [by right|done].
        -- intros [?|(r & Hr & Hg & Hp)]; [by left|].
           apply elem_of_cons in Hr as [->|Hr]; [done|]. right. by exists r.
    + rewrite (IH _ _ Hrun). split.
      * intros [?|(r & Hr & Hg & Hp)]; [by left|]. right. exists r.
        split; [by right|done].
      * intros [?|(r & Hr & Hg & Hp)]; [by left|].
        apply elem_of_cons in Hr as [->|Hr]; [|right; by exists r].
        cbn in Hp. by rewrite Hx in Hp.
Qed.

(** X23: In each of the three summaries, the total of a group is the grand
    total, as [show_total] adds it up, of the rows of that group, and a
    group has a total exactly when one of its rows has an amount that
    parses.  The groups are told apart by their exact text, so two
    categories that differ in case are two groups. *)
Theorem group_total_is_total_of_group (key : string -> string -> string)
    (rows : list (list string)) (totals : gmap string Float.float) (k : string) :
  group_totals key ∅ rows = Ok totals ->
  grand_total Float.zero (filter (in_group key k) rows)
  = Ok (default Float.zero (totals !! k))
  /\ (is_Some (totals !! k)
      <-> exists r, r ∈ rows /\ in_group key k r /\ amount_parses r).
Proof.
  intros Hrun. split.
  - by rewrite <- (group_totals_by_group key k rows ∅ totals Hrun), lookup_empty.
  - rewrite (group_totals_keys key k rows ∅ totals Hrun), lookup_empty.
    split; [intros [[? ?]|?]; done|by right].
Qed.

Lemma group_total_is_total_of_group_witness :
  exists totals,
    group_totals by_category ∅ scenario = Ok totals
    /\ grand_total Float.zero (filter (in_group by_category "Food") scenario)
       = Ok (default Float.zero (totals !! "Food")).
Proof.
  destruct (group_totals by_category ∅ scenario) as [totals|] eqn:H;
    [|by vm_compute in H].
  exists totals. split; [done|].
  by destruct (group_total_is_total_of_group by_category scenario totals "Food" H).
Defined.

Lemma line_key_total_lines totals :
  line_key <$> total_lines totals = merge_sort String.le (map_to_list totals).*1.
Proof.
  unfold total_lines. rewrite <- list_fmap_compose.
  rewrite <- (list_fmap_id (merge_sort _ _)) at 2. by apply list_fmap_ext.
Qed.

(** X24: A summary has one line for each group that has a total, with the
    key of the group and its total in the [.2f] format, and the lines
    are in the ascending order of the keys as strings. *)
Theorem total_lines_sorted (totals : gmap string Float.float) :
  StronglySorted String.le (line_key <$> total_lines totals)
  /\ NoDup (line_key <$> total_lines totals)
  /\ (forall k, k ∈ line_key <$> total_lines totals <-> is_Some (totals !! k))
  /\ Forall (fun line => exists k x, totals !! k = Some x /\ line = [k; Float.format_2f x])
       (total_lines totals).
Proof.
  rewrite line_key_total_lines.
  pose proof (merge_sort_Permutation String.le (map_to_list totals).*1) as Hperm.
  split; [apply StronglySorted_merge_sort; apply _|]. split; [|split].
  - rewrite Hperm. apply NoDup_fst_map_to_list.
  - intros k. rewrite Hperm, list_elem_of_fmap. split.
    + intros ([k' x] & -> & Hin). apply elem_of_map_to_list in Hin. by eexists.
    + intros [x Hx]. exists (k, x). split; [done|]. by apply elem_of_map_to_list.
  - unfold total_lines. apply Forall_fmap, Forall_forall. intros k Hk.
    rewrite Hperm in Hk. apply list_elem_of_fmap in Hk as ([k' x] & -> & Hin).
    apply elem_of_map_to_list in Hin. exists k', x. cbn. by rewrite Hin.
Qed.

Lemma by_month_isoformat d cat :
  valid_date d ->
  by_month (Date.isoformat d) cat
  = two_digits (Date.year d / 100) +:+ two_digits (Date.year d mod 100)
    +:+ String "-" (two_digits (Date.month d) +:+ "").
Proof.
  intros Hd. pose proof (valid_date_bounds d Hd) as (Hy & Hm & Hday).
  pose proof (days_in_month_bound (Date.year d) (Date.month d)).
  destruct d as [y m dd]. cbn [Date.year Date.month Date.day] in *.
  unfold by_month. by rewrite isoformat_digits by lia.
Qed.

(** X25: For dates in the form of [isoformat], as [add_expense] writes them,
    the key of the summary by month is the year and the month, seven
    characters: two dates are of one group exactly when they are of the
    same month of the same year. *)
Theorem by_month_groups_by_month (a b : Date.date) (cat1 cat2 : string) :
  valid_date a -> valid_date b ->
  String.length (by_month (Date.isoformat a) cat1) = 7%nat
  /\ (by_month (Date.isoformat a) cat1 = by_month (Date.isoformat b) cat2
      <-> Date.year a = Date.year b /\ Date.month a = Date.month b).
Proof.
  intros Ha Hb. rewrite !by_month_isoformat by done. split; [done|].
  pose proof (valid_date_bounds a Ha) as (Hya & Hma & _).
  pose proof (valid_date_bounds b Hb) as (Hyb & Hmb & _).
  split; [|by intros [-> ->]].
  intros Heq.
  assert (Hcmp : String.compare
            (two_digits (Date.year a / 100) +:+ two_digits (Date.year a mod 100)
             +:+ String "-" (two_digits (Date.month a) +:+ ""))
            (two_digits (Date.year b / 100) +:+ two_digits (Date.year b mod 100)
             +:+ String "-" (two_digits (Date.month b) +:+ "")) = Eq)
    by (rewrite Heq; apply compare_same).
  pose proof (Z.div_mod (Date.year a) 100 ltac:(lia)).
  pose proof (Z.div_mod (Date.year b) 100 ltac:(lia)).
  pose proof (Z.mod_pos_bound (Date.year a) 100 ltac:(lia)).
  pose proof (Z.mod_pos_bound (Date.year b) 100 ltac:(lia)).
  rewrite !compare_two_digits in Hcmp by lia.
  rewrite (str_cons_app "-" (two_digits (Date.month a) +:+ _)),
    (str_cons_app "-" (two_digits (Date.month b) +:+ _)) in Hcmp.
  rewrite compare_same_prefix, compare_two_digits in Hcmp by lia.
  destruct (Z.compare_spec (Date.year a / 100) (Date.year b / 100)); try done.
  destruct (Z.compare_spec (Date.year a mod 100) (Date.year b mod 100)); try done.
  destruct (Z.compare_spec (Date.month a) (Date.month b)); try done.
  split; [lia|done].
Qed.

Lemma by_month_groups_by_month_witness :
  String.length (by_month (Date.isoformat (Date.mkDate 2025 1 5)) "Food") = 7%nat
  /\ (by_month (Date.isoformat (Date.mkDate 2025 1 5)) "Food"
      = by_month (Date.isoformat (Date.mkDate 2025 1 20)) "Transport"
      <-> 2025 = 2025 /\ 1 = 1).
Proof.
  apply (by_month_groups_by_month (Date.mkDate 2025 1 5) (Date.mkDate 2025 1 20)
           "Food" "Transport"); reflexivity.
Defined.

(** * The menu loop *)

Lemma reads_on_ret {A} (a : A) : reads_on (ret a).
Proof. by intros w. Qed.

Lemma reads_on_raise {A} e : reads_on (@raise A e).
Proof. by intros w. Qed.

Lemma reads_on_lift {A} (r : result A) : reads_on (lift r).
Proof. by intros w. Qed.

Lemma reads_on_print p : reads_on (print p).
Proof. by intros w. Qed.

Lemma reads_on_now : reads_on now.
Proof. by intros w. Qed.

Lemma reads_on_write_file path content : reads_on (write_file path content).
Proof. by intros w. Qed.

Lemma reads_on_append_file path content : reads_on (append_file path content).
Proof. by intros w. Qed.

Lemma reads_on_read_file path : reads_on (read_file path).
Proof. intros w. unfold read_file. by destruct (files w !! path). Qed.

Lemma reads_on_input : reads_on input.
Proof.
  intros [[|l ls] o f c]; unfold input; cbn; [done|]. by apply suffix_cons_r.
Qed.

Lemma reads_on_bind {A B} (m : io A) (k : A -> io B) :
  reads_on m -> (forall a, reads_on (k a)) -> reads_on (bind m k).
Proof.
  intros Hm Hk w. unfold bind. specialize (Hm w).
  destruct (m w) as [w' [a|e]]; [|done]. etrans; [apply Hk|done].
Qed.

Lemma retry_lines_suffix {A} (body : string -> result A) msg lines : forall out,
  (retry_lines body msg lines out).1.1 `suffix_of` lines.
Proof.
  induction lines as [|l lines IH]; intros out; [done|]. cbn.
  destruct (body l) as [a|[]]; cbn; apply suffix_cons_r; done || apply IH.
Qed.

Lemma reads_on_retry {A} (body : string -> result A) msg : reads_on (retry body msg).
Proof.
  intros w. unfold retry.
  pose proof (retry_lines_suffix body msg (stdin w) (stdout w)) as H.
  by destruct (retry_lines _ _ _ _) as [[rest out] r].
Qed.

Lemma reads_on_ensure : reads_on ensure_dirs_and_csv.
Proof. intros w. by rewrite ensure_dirs_and_csv_eq. Qed.

Lemma reads_on_read_rows b : reads_on (read_rows b).
Proof.
  unfold read_rows.
  repeat first [apply reads_on_bind; [|intros ?] | apply reads_on_ensure
               | apply reads_on_read_file | apply reads_on_lift | apply reads_on_ret].
Qed.

Lemma reads_on_ask_date b : reads_on (ask_date b).
Proof. intros w. unfold ask_date. apply reads_on_retry. Qed.

(** The steps that make up the actions take lines and put none back. *)
Ltac reads_on :=
  repeat first
    [ apply reads_on_bind; [|intros ?]
    | apply reads_on_ret | apply reads_on_raise | apply reads_on_lift
    | apply reads_on_print | apply reads_on_now | apply reads_on_input
    | apply reads_on_write_file | apply reads_on_append_file | apply reads_on_read_file
    | apply reads_on_retry | apply reads_on_ensure | apply reads_on_read_rows
    | apply reads_on_ask_date
    | match goal with
      | |- reads_on (match ?x with _ => _ end) => destruct x
      | |- reads_on (let '(_, _) := ?x in _) => destruct x
      end ].

Lemma reads_on_add_expense : reads_on add_expense.
Proof. unfold add_expense, ask_amount. reads_on. Qed.

Lemma reads_on_delete_last_entry : reads_on delete_last_entry.
Proof. unfold delete_last_entry, write_rows. reads_on. Qed.

Lemma reads_on_ask_index len : reads_on (ask_index len).
Proof. unfold ask_index. reads_on. Qed.

Lemma reads_on_delete_by_index : reads_on delete_by_index.
Proof.
  unfold delete_by_index, write_rows. reads_on; try apply reads_on_ask_index; reads_on.
Qed.

Lemma reads_on_edit_by_index : reads_on edit_by_index.
Proof.
  unfold edit_by_index, write_rows, input_with_default.
  reads_on; try apply reads_on_ask_index; reads_on.
Qed.

Lemma reads_on_view_expenses : reads_on view_expenses.
Proof. unfold view_expenses, ask_optional_date. reads_on. Qed.

Lemma reads_on_summarize key header : reads_on (summarize key header).
Proof. unfold summarize. reads_on. Qed.

Lemma reads_on_show_total : reads_on show_total.
Proof. unfold show_total. reads_on. Qed.

Lemma reads_on_export_rows rows : reads_on (export_rows rows).
Proof. unfold export_rows. reads_on. Qed.

Lemma reads_on_print_lines lines : reads_on (print_lines lines).
Proof. induction lines; cbn [print_lines]; reads_on. done. Qed.

Lemma print_lines_eq lines w :
  print_lines lines w = (with_stdout (stdout w ++ (Text <$> lines)) w, Ok tt).
Proof.
  revert w. induction lines as [|l lines IH]; intros w.
  - cbn. unfold ret, with_stdout. rewrite app_nil_r. by destruct w.
  - cbn [print_lines]. unfold bind, print. rewrite IH. unfold with_stdout.
    cbn [stdin stdout files clock fmap list_fmap]. by rewrite <- app_assoc.
Qed.

(** The world when the menu is printed and the choice is typed. *)
Lemma turn_eq last_view w :
  turn last_view w
  = match stdin w with
    | [] => (with_stdout (stdout w ++ (Text <$> MENU)) w, Raise EOFError)
    | line :: rest =>
        let w1 := mkWorld rest (stdout w ++ (Text <$> MENU)) (files w) (clock w) in
        let choice := strip line in
        let go (act : io unit) :=
          match act w1 with
          | (w', Ok _) => (w', Ok (Some last_view))
          | (w', Raise e) => (w', Raise e)
          end in
        if bool_decide (choice = "1") then go add_expense
        else if bool_decide (choice = "2") then
          match view_expenses w1 with
          | (w', Ok rows) => (w', Ok (Some rows))
          | (w', Raise e) => (w', Raise e)
          end
        else if bool_decide (choice = "3") then go summarize_by_category
        else if bool_decide (choice = "4") then go summarize_by_date
        else if bool_decide (choice = "5") then go summarize_by_month
        else if bool_decide (choice = "6") then go show_total
        else if bool_decide (choice = "7") then go edit_by_index
        else if bool_decide (choice = "8") then go delete_by_index
        else if bool_decide (choice = "9") then go delete_last_entry
        else if bool_decide (choice = "10") then
          go ((match last_view with [] => print (Text TIP) | _ => ret tt end) ;;
              export_rows last_view)
        else if bool_decide (choice = "11") then (w1, Ok None)
        else go (print (Text TRY_AGAIN))
    end.
Proof.
  unfold turn, bind at 1. rewrite print_lines_eq. unfold bind at 1, input.
  cbn [stdin stdout files clock with_stdout].
  destruct (stdin w) as [|line rest]; [done|]. cbn zeta.
  set (w1 := mkWorld rest _ _ _).
  repeat (case_bool_decide; [unfold bind, ret;
    repeat match goal with |- context [match ?act w1 with _ => _ end] =>
      destruct (act w1) as [? [?|?]] end; done|]).
  unfold bind, ret, print. done.
Qed.

Lemma reads_on_turn last_view : reads_on (turn last_view).
Proof.
  unfold turn.
  repeat (reads_on;
          first [apply reads_on_print_lines | apply reads_on_add_expense
                | apply reads_on_view_expenses | apply reads_on_summarize
                | apply reads_on_show_total | apply reads_on_edit_by_index
                | apply reads_on_delete_by_index | apply reads_on_delete_last_entry
                | apply reads_on_export_rows]).
Qed.

(** A turn that does not fail has taken the line of the choice, and
    ends the loop only for the choice 11. *)
Lemma turn_progress last_view w w' r :
  turn last_view w = (w', Ok r) ->
  exists line rest,
    stdin w = line :: rest /\ stdin w' `suffix_of` rest
    /\ (r = None -> strip line = "11").
Proof.
  intros Hturn. pose proof (reads_on_turn last_view) as Hreads.
  rewrite turn_eq in Hturn. destruct (stdin w) as [|line rest] eqn:Hin; [done|].
  exists line, rest. split; [done|]. cbn zeta in Hturn.
  set (w1 := mkWorld rest _ _ _) in *.
  assert (Hgo : forall act : io unit, reads_on act ->
            match act w1 with
            | (w'', Ok _) => (w'', Ok (Some last_view))
            | (w'', Raise e) => (w'', Raise e)
            end = (w', Ok r) ->
            stdin w' `suffix_of` rest /\ (r = None -> strip line = "11")).
  { intros act Hact Heq. specialize (Hact w1).
    destruct (act w1) as [w'' [?|?]]; [|done]. by injection Heq as <- <-. }
  repeat (case_bool_decide;
    [first [ eapply Hgo; [|exact Hturn];
             first [apply reads_on_add_expense | apply reads_on_summarize
                   | apply reads_on_show_total | apply reads_on_edit_by_index
                   | apply reads_on_delete_by_index | apply reads_on_delete_last_entry
                   | reads_on; apply reads_on_export_rows ]
           | idtac ]|]).
  - pose proof (reads_on_view_expenses w1) as Hview.
    destruct (view_expenses w1) as [w'' [rows|?]]; [|done]. by injection Hturn as <- <-.
  - by injection Hturn as <- <-.
  - apply (Hgo (print (Text TRY_AGAIN))); [reads_on|exact Hturn].
Qed.

Lemma main_loop_some turns : forall last_view w,
  (length (stdin w) < turns)%nat -> is_Some (main_loop turns last_view w).
Proof.
  induction turns as [|turns IH]; intros last_view w Hlen; [lia|].
  cbn [main_loop]. destruct (turn last_view w) as [w' [[lv|]|e]] eqn:Hturn; [|done..].
  apply turn_progress in Hturn as (line & rest & Hin & Hsuf & _).
  apply IH. apply suffix_length in Hsuf. rewrite Hin in Hlen. cbn in Hlen. lia.
Qed.

Lemma main_loop_more turns : forall last_view w out more,
  main_loop turns last_view w = Some out ->
  main_loop (turns + more) last_view w = Some out.
Proof.
  induction turns as [|turns IH]; intros last_view w out more; [done|].
  cbn [main_loop Nat.add]. destruct (turn last_view w) as [w' [[lv|]|e]]; [|done..].
  apply IH.
Qed.

(** The loop ends without failure only when the choice 11 was typed. *)
Lemma main_loop_quit turns : forall last_view w w',
  main_loop turns last_view w = Some (w', Ok tt) ->
  exists line, line ∈ stdin w /\ strip line = "11".
Proof.
  induction turns as [|turns IH]; intros last_view w w'; [done|].
  cbn [main_loop]. destruct (turn last_view w) as [w1 [[lv|]|e]] eqn:Hturn; [| |done].
  - intros Hloop. apply IH in Hloop as (line & Hline & Hquit).
    apply turn_progress in Hturn as (l0 & rest & Hin & Hsuf & _).
    exists line. split; [|done]. rewrite Hin. right.
    destruct Hsuf as [pre ->]. apply elem_of_app. by right.
  - intros _. apply turn_progress in Hturn as (l0 & rest & Hin & _ & Hnone).
    exists l0. split; [rewrite Hin; by left|by apply Hnone].
Qed.

(** X28: [main] ends on every input: after at most one turn for each line to
    come and one more, more turns change nothing.  It returns only when
    the choice 11 was typed; when the input ends before that it fails,
    with [EOFError] when nothing was typed at all. *)
Theorem main_ends (w : world) :
  exists w' r,
    main w = Some (w', r)
    /\ (forall more,
          main_loop (S (length (stdin w)) + more) [] (ensure_dirs_and_csv w).1
          = Some (w', r))
    /\ (r = Ok tt -> exists line, line ∈ stdin w /\ strip line = "11")
    /\ (stdin w = [] -> r = Raise EOFError).
Proof.
  unfold main. rewrite ensure_dirs_and_csv_eq. cbn [fst].
  set (w0 := with_files (ensured (files w)) w).
  change (stdin w) with (stdin w0).
  destruct (main_loop_some (S (length (stdin w0))) [] w0) as [[w' r] Hrun]; [lia|].
  exists w', r. split; [done|]. split; [|split].
  - intros more. by apply main_loop_more.
  - intros ->. by eapply main_loop_quit.
  - intros Hin. cbn [main_loop] in Hrun. rewrite turn_eq, Hin in Hrun.
    by injection Hrun as <- <-.
Qed.

Lemma main_ends_witness :
  exists w' r,
    main (scenario_typing ["6"; "x"; "11"; "1"]) = Some (w', r)
    /\ (forall more,
          main_loop (S (length (stdin (scenario_typing ["6"; "x"; "11"; "1"]))) + more) []
            (ensure_dirs_and_csv (scenario_typing ["6"; "x"; "11"; "1"])).1
          = Some (w', r))
    /\ (r = Ok tt ->
        exists line, line ∈ stdin (scenario_typing ["6"; "x"; "11"; "1"])
                     /\ strip line = "11")
    /\ (stdin (scenario_typing ["6"; "x"; "11"; "1"]) = [] -> r = Raise EOFError).
Proof. exact (main_ends (scenario_typing ["6"; "x"; "11"; "1"])). Defined.

(** X26: The choice 10 exports the rows of the last view as they were viewed,
    whatever the store holds by then; before any view, or after a view
    that showed nothing, it prints the tip and then that there is nothing
    to export, and writes no file. *)
Theorem turn_exports_last_view (w : world) (line : string) (rest : list string) :
  stdin w = line :: rest ->
  strip line = "10" ->
  turn [] w
  = (mkWorld rest (stdout w ++ (Text <$> MENU) ++ [Text TIP; NothingToExport]) (files w)
       (clock w),
     Ok (Some []))
  /\ (forall last_view,
        last_view <> [] ->
        turn last_view w
        = (mkWorld rest
             (stdout w ++ (Text <$> MENU)
                ++ [Exported (length last_view) (export_path (clock w))])
             (<[export_path (clock w) := serialize last_view]> (files w)) (clock w),
           Ok (Some last_view))).
Proof.
  intros Hin Hchoice. split.
  - rewrite turn_eq, Hin. cbn zeta. rewrite Hchoice. cbn [bool_decide decide_rel].
    unfold bind, print, export_rows, print. cbn [stdin stdout files clock].
    by rewrite <- !app_assoc.
  - intros last_view Hne. rewrite turn_eq, Hin. cbn zeta. rewrite Hchoice.
    destruct last_view as [|r lv]; [done|].
    unfold bind, ret, export_rows, bind, now, write_file, print.
    cbn [stdin stdout files clock]. by rewrite <- !app_assoc.
Qed.

Lemma turn_exports_last_view_witness :
  turn [] (scenario_typing [" 10 "; "11"])
  = (mkWorld ["11"] ([] ++ (Text <$> MENU) ++ [Text TIP; NothingToExport])
       (files (scenario_typing [" 10 "; "11"])) noon,
     Ok (Some [])).
Proof.
  destruct (turn_exports_last_view (scenario_typing [" 10 "; "11"]) " 10 " ["11"])
    as [H _]; [reflexivity|by vm_compute|exact H].
Defined.

(** X27: The last view is what [view_expenses] returned last: a turn with
    any other choice leaves it as it was.  A line that is no choice of
    the menu changes nothing but the output, where the hint follows the
    menu. *)
Theorem turn_keeps_last_view (w : world) (last_view : list (list string)) (line : string)
    (rest : list string) :
  stdin w = line :: rest ->
  (forall w' last_view',
     turn last_view w = (w', Ok (Some last_view')) ->
     strip line <> "2" -> last_view' = last_view)
  /\ (forall w' last_view',
        turn last_view w = (w', Ok (Some last_view')) ->
        strip line = "2" ->
        view_expenses (mkWorld rest (stdout w ++ (Text <$> MENU)) (files w) (clock w))
        = (w', Ok last_view'))
  /\ (strip line ∉ choices ->
      turn last_view w
      = (mkWorld rest (stdout w ++ (Text <$> MENU) ++ [Text TRY_AGAIN]) (files w) (clock w),
         Ok (Some last_view))).
Proof.
  intros Hin. rewrite turn_eq, Hin. cbn zeta.
  set (w1 := mkWorld rest _ _ _). split; [|split].
  - intros w' lv' Hturn Hnot2.
    repeat (case_bool_decide;
      [try done;
       match type of Hturn with
       | context [match ?act w1 with _ => _ end] =>
           destruct (act w1) as [? [?|?]]; [|done]
       end; by injection Hturn as _ <-|]).
    cbn in Hturn. by injection Hturn as _ <-.
  - intros w' lv' Hturn H2. rewrite H2 in Hturn. cbn [bool_decide decide_rel] in Hturn.
    destruct (view_expenses w1) as [w'' [rows|?]]; [|done]. by injection Hturn as <- <-.
  - intros Hnot. unfold choices in Hnot.
    repeat (case_bool_decide;
      [exfalso; apply Hnot;
       match goal with H : strip line = _ |- _ => rewrite H end; repeat constructor|]).
    unfold print, w1. cbn [stdin stdout files clock]. by rewrite <- app_assoc.
Qed.

Lemma turn_keeps_last_view_witness :
  turn [lunch] (scenario_typing ["0"; "11"])
  = (mkWorld ["11"] ([] ++ (Text <$> MENU) ++ [Text TRY_AGAIN])
       (files (scenario_typing ["0"; "11"])) noon,
     Ok (Some [lunch])).
Proof.
  destruct (turn_keeps_last_view (scenario_typing ["0"; "11"]) [lunch] "0" ["11"])
    as (_ & _ & H); [reflexivity|]. apply H.
  apply (bool_decide_unpack _). by vm_compute.
Defined.

(** * Fields beyond the limit of the reader *)

Lemma parse_add_char_full r c :
  field_len r = N.of_nat (length (field r)) ->
  (field_limit <= N.of_nat (length (field r)))%N ->
  parse_add_char r c = Raise CsvError.
Proof.
  intros Hlen Hfull. unfold parse_add_char. rewrite Hlen.
  by destruct (N.leb_spec field_limit (N.of_nat (length (field r)))); [|lia].
Qed.

(** Characters that need no quotes, more of them than a field takes. *)
Lemma scan_plain_long f : forall buf fs rest,
  needs_quotes f = false ->
  (N.of_nat (length buf) <= field_limit)%N ->
  (field_limit < N.of_nat (length buf + String.length f))%N ->
  rest <> "" ->
  scan (mkReader IN_FIELD buf (N.of_nat (length buf)) fs) (f +:+ rest) = Raise CsvError.
Proof.
  induction f as [|c f IH]; intros buf fs rest Hq Hbuf Hlong Hrest.
  - cbn in Hlong. lia.
  - unfold needs_quotes in Hq. cbn in Hq. apply orb_false_elim in Hq as [Hc Hq].
    apply special_false in Hc as (Hnl & Hdq & Hco).
    rewrite str_app_cons, scan_cons.
    unfold parse_process_char. cbn [state]. rewrite Hnl, Hco.
    destruct (decide (field_limit <= N.of_nat (length buf))%N) as [Hfull|Hroom].
    + by rewrite parse_add_char_full.
    + rewrite parse_add_char_ok by (cbn in *; lia).
      cbn [mbind result_bind state field fields].
      rewrite line_ends_plain; [|done|by destruct f].
      apply IH; [done|cbn in *; lia|cbn in *; lia|done].
Qed.

(** The inside of a quoted field that is longer than a field may be. *)
Lemma scan_quoted_long f : forall buf fs rest,
  (N.of_nat (length buf) <= field_limit)%N ->
  (field_limit < N.of_nat (length buf + String.length f))%N ->
  rest <> "" ->
  scan (mkReader IN_QUOTED_FIELD buf (N.of_nat (length buf)) fs)
       (escape f +:+ String DQUOTE rest) = Raise CsvError.
Proof.
  induction f as [|c f IH]; intros buf fs rest Hbuf Hlong Hrest.
  - cbn in Hlong. lia.
  - cbn [escape].
    destruct (decide (field_limit <= N.of_nat (length buf))%N) as [Hfull|Hroom].
    + case_bool_decide as Hdq.
      * subst c. rewrite !str_app_cons, scan_cons, step_quoted_close.
        cbn [mbind result_bind]. rewrite line_ends_plain by done.
        rewrite scan_cons. unfold parse_process_char. cbn [state].
        rewrite bool_decide_true by done. by rewrite parse_add_char_full.
      * rewrite str_app_cons, scan_cons. unfold parse_process_char. cbn [state].
        rewrite bool_decide_false by done. by rewrite parse_add_char_full.
    + case_bool_decide as Hdq.
      * subst c. rewrite !str_app_cons, scan_cons, step_quoted_close.
        cbn [mbind result_bind]. rewrite line_ends_plain by done.
        rewrite scan_cons, step_quoted_quote by (cbn in *; lia).
        cbn [mbind result_bind].
        rewrite line_ends_plain; [|done|by destruct (escape f)].
        apply IH; [cbn in *; lia|cbn in *; lia|done].
      * rewrite str_app_cons, scan_cons, step_quoted_char by (done || cbn in *; lia).
        cbn [mbind result_bind].
        rewrite after_line_quoted, if_same. apply IH; [cbn in *; lia|cbn in *; lia|done].
Qed.

(** A field beyond the limit, as the writer wrote it, stops the reader. *)
Lemma scan_field_long f st fs rest :
  st = START_RECORD \/ st = START_FIELD ->
  ~ fits f -> rest <> "" ->
  scan (mkReader st [] 0 fs) (join_append f +:+ rest) = Raise CsvError.
Proof.
  intros Hst Hlong Hrest. unfold join_append, fits in *.
  assert (Hlimit : (0 < field_limit)%N) by done.
  destruct (needs_quotes f) eqn:Hq.
  - rewrite str_app_cons, scan_cons.
    assert (parse_process_char (mkReader st [] 0 fs) (Some DQUOTE)
            = Ok (mkReader IN_QUOTED_FIELD [] (N.of_nat (length (@nil ascii))) fs)) as ->
      by (by destruct Hst as [-> | ->]).
    cbn [mbind result_bind]. rewrite line_ends_plain; [|done|by destruct (escape f)].
    rewrite str_app_assoc, str_app_cons, str_app_nil_l.
    apply scan_quoted_long; [cbn; lia|cbn; lia|done].
  - destruct f as [|c f]; [cbn in Hlong; lia|].
    pose proof Hq as Hq'. unfold needs_quotes in Hq'. cbn in Hq'.
    apply orb_false_elim in Hq' as [Hc Hq'].
    apply special_false in Hc as (Hnl & Hdq & Hco).
    rewrite str_app_cons, scan_cons.
    assert (parse_process_char (mkReader st [] 0 fs) (Some c)
            = Ok (mkReader IN_FIELD [c] (N.of_nat (length [c])) fs)) as ->.
    { destruct Hst as [-> | ->]; unfold parse_process_char, start_field;
        cbn [state set_state]; rewrite ?Hnl, ?Hdq, ?Hco; reflexivity. }
    cbn [mbind result_bind]. rewrite line_ends_plain; [|done|by destruct f].
    apply scan_plain_long; [done|cbn; lia|cbn in *; lia|done].
Qed.

Lemma fits_dec f : fits f \/ ~ fits f.
Proof. unfold fits. lia. Qed.

Lemma Forall_fits_dec row : Forall fits row \/ ~ Forall fits row.
Proof.
  induction row as [|f row [IH|IH]]; [by left| |].
  - destruct (fits_dec f); [left; by constructor|right].
    by intros [? _]%Forall_cons.
  - right. by intros [_ ?]%Forall_cons.
Qed.

Lemma scan_tail_long row : forall r f fs rest,
  holds r f fs -> ~ Forall fits row ->
  scan r (tail_text row +:+ rest) = Raise CsvError.
Proof.
  induction row as [|g row IH]; intros r f fs rest Hr Hlong; [by destruct Hlong|].
  cbn [tail_text]. rewrite str_app_cons, scan_cons, (step_comma r f fs) by done.
  cbn [mbind result_bind]. rewrite str_app_assoc.
  rewrite line_ends_plain; [|done|apply str_app_nonempty_r, tail_text_nonempty].
  destruct (fits_dec g) as [Hg|Hg].
  - destruct (scan_field g START_FIELD (f :: fs) (tail_text row +:+ rest))
      as (r' & -> & Hr' & _); [by right|done|apply tail_text_nonempty|].
    apply (IH r' g (f :: fs)); [done|]. intros Hrow. apply Hlong. by constructor.
  - apply scan_field_long; [by right|done|apply tail_text_nonempty].
Qed.

Lemma scan_row_long row rest :
  ~ Forall fits row -> scan parse_reset (writerow row +:+ rest) = Raise CsvError.
Proof.
  intros Hlong. destruct row as [|f row]; [by destruct Hlong|].
  assert (Hne : f <> "" \/ row <> []).
  { destruct f, row; auto. destruct Hlong. by repeat constructor. }
  assert (writerow (f :: row) = join_append f +:+ tail_text row) as ->.
  { rewrite <- join_tail_text. destruct Hne as [Hne|Hne].
    - by destruct f.
    - destruct f, row; done. }
  rewrite str_app_assoc. destruct (fits_dec f) as [Hf|Hf].
  - destruct (scan_field f START_RECORD [] (tail_text row +:+ rest))
      as (r' & Hscan & Hr' & _); [by left|done|apply tail_text_nonempty|].
    unfold parse_reset. rewrite Hscan.
    apply (scan_tail_long row r' f []); [done|].
    intros Hrow. apply Hlong. by constructor.
  - apply scan_field_long; [by left|done|apply tail_text_nonempty].
Qed.

(** What the writer wrote is read back as it was, unless a field is
    beyond the limit of the reader. *)
Lemma reader_writerows_any rows :
  reader (writerows rows) = Ok rows \/ reader (writerows rows) = Raise CsvError.
Proof.
  rewrite reader_scan. induction rows as [|row rows IH]; [by left|].
  cbn [writerows]. destruct (Forall_fits_dec row) as [Hrow|Hrow].
  - rewrite scan_row by done. destruct IH as [-> | ->]; [by left|by right].
  - right. by apply scan_row_long.
Qed.

Lemma stored_loaded_any rows fs :
  stored rows fs -> loaded fs = Ok rows \/ loaded fs = Raise CsvError.
Proof.
  intros Hst. unfold loaded. rewrite (stored_ensured rows) by done. rewrite Hst.
  rewrite serialize_writerows.
  destruct (reader_writerows_any (HEADERS :: rows)) as [-> | ->]; [left|by right].
  cbn. by rewrite bool_decide_true.
Qed.

Lemma reader_writerows_long rows :
  ~ Forall (Forall fits) rows -> reader (writerows rows) = Raise CsvError.
Proof.
  rewrite reader_scan. induction rows as [|row rows IH]; intros Hlong.
  - by destruct Hlong.
  - cbn [writerows]. destruct (Forall_fits_dec row) as [Hrow|Hrow].
    + rewrite scan_row by done. rewrite IH; [done|].
      intros Hrows. apply Hlong. by constructor.
    + by apply scan_row_long.
Qed.

(** X4: The field limit of the reader is exactly where reading the store
    stops: a store that holds the header and [rows] is read as [rows]
    when every field is at most 131072 characters long, and when one
    field is longer [read_rows] raises the error of the csv reader,
    whatever the other records. *)
Theorem read_rows_field_limit (w : world) (rows : list (list string)) :
  stored rows (files w) ->
  (Forall (Forall fits) rows -> (read_rows false w).2 = Ok rows)
  /\ (~ Forall (Forall fits) rows -> (read_rows false w).2 = Raise CsvError)
  /\ field_limit = 131072%N.
Proof.
  intros Hst. rewrite read_rows_result. split; [|split; [|done]].
  - by apply stored_loaded.
  - intros Hlong. unfold loaded. rewrite (stored_ensured rows) by done. rewrite Hst.
    rewrite serialize_writerows, reader_writerows_long; [done|].
    intros [_ ?]%Forall_cons. done.
Qed.

Lemma read_rows_field_limit_witness :
  (read_rows false (scenario_typing [])).2 = Ok scenario.
Proof.
  destruct (read_rows_field_limit (scenario_typing []) scenario) as (H & _).
  - reflexivity.
  - apply H. repeat constructor; by vm_compute.
Defined.

(** * The store stays well-formed *)

Lemma keeps_store_bind {A B} (m : io A) (k : A -> io B) :
  keeps_store m -> (forall a, keeps_store (k a)) -> keeps_store (bind m k).
Proof.
  intros Hm Hk w Hw. unfold bind. destruct (Hm w Hw) as [Hw' Hr].
  destruct (m w) as [w' [a|e]]; [|done]. by apply Hk.
Qed.

Lemma keeps_store_ret {A} (a : A) : keeps_store (ret a).
Proof. by intros w Hw. Qed.

Lemma keeps_store_print p : keeps_store (print p).
Proof. by intros w Hw. Qed.

Lemma keeps_store_input : keeps_store input.
Proof.
  intros w Hw. unfold input. destruct (stdin w); cbn; [|done]. split; [done|by left].
Qed.

Lemma keeps_store_print_lines lines : keeps_store (print_lines lines).
Proof. intros w Hw. by rewrite print_lines_eq. Qed.

Lemma four_cells_added date x c d : four_cells (added date x c d).
Proof. reflexivity. Qed.

Lemma keeps_store_add_expense : keeps_store add_expense.
Proof.
  intros w (rows & Hst & Hrows).
  destruct (add_expense_inv w)
    as [(-> & -> & _)|(bad1 & l1 & bad2 & l2 & l3 & l4 & rest & date & x
                       & Hin & Hbad1 & Hdate & Hbad2 & Hx & ->)].
  - split; [by exists rows|by left].
  - split; [|done]. exists (rows ++ [added date x l3 l4]). cbn [fst files]. split.
    + rewrite Hst. unfold default. cbn [from_option id]. rewrite <- serialize_snoc.
      unfold stored. by rewrite lookup_insert_eq.
    + apply Forall_app. split; [done|]. by repeat constructor.
Qed.

Lemma keeps_store_summarize key header : keeps_store (summarize key header).
Proof.
  intros w (rows & Hst & Hrows). rewrite summarize_eq.
  rewrite (stored_ensured rows) by done. rewrite with_files_same.
  destruct (stored_loaded_any rows (files w) Hst) as [-> | ->];
    [|split; [by exists rows|by right]].
  cbn [mbind result_bind]. unfold summary_output.
  destruct rows as [|r rows']; [split; [by exists []|done]|].
  destruct (group_totals_sound key (r :: rows') ∅ Hrows) as (m & -> & _).
  split; [by exists (r :: rows')|done].
Qed.

Lemma keeps_store_show_total : keeps_store show_total.
Proof.
  intros w (rows & Hst & Hrows). rewrite show_total_eq.
  rewrite (stored_ensured rows) by done. rewrite with_files_same.
  destruct (stored_loaded_any rows (files w) Hst) as [-> | ->];
    [|split; [by exists rows|by right]].
  cbn [mbind result_bind]. unfold total_output.
  destruct rows as [|r rows']; [split; [by exists []|done]|].
  destruct (grand_total_sound (r :: rows') Float.zero Hrows) as (m & -> & _).
  split; [by exists (r :: rows')|done].
Qed.

Lemma keeps_store_delete_last_entry : keeps_store delete_last_entry.
Proof.
  intros w (rows & Hst & Hrows). rewrite delete_last_entry_eq.
  rewrite (stored_ensured rows) by done.
  destruct (stored_loaded_any rows (files w) Hst) as [-> | ->].
  - destruct (last rows) as [l|] eqn:Hlast.
    + split; [|done]. exists (removelast rows). cbn [fst files]. split.
      * unfold stored. by rewrite lookup_insert_eq.
      * apply last_Some in Hlast as [rows' ->]. rewrite removelast_last.
        by apply Forall_app in Hrows as [? _].
    + split; [|done]. exists rows. unfold opened, with_stdout, with_files.
      cbn [fst files]. by rewrite (stored_ensured rows).
  - split; [|by right]. exists rows. unfold opened, with_files. cbn [fst files].
    by rewrite (stored_ensured rows).
Qed.

Lemma export_path_not_store t : export_path t <> CSV.
Proof. done. Qed.

Lemma keeps_store_export_rows rows : keeps_store (export_rows rows).
Proof.
  intros w (stored_rows & Hst & Hrows). unfold export_rows.
  destruct rows as [|r rows']; [split; [by exists stored_rows|done]|].
  unfold bind, now, write_file, print. cbn [fst snd stdin stdout files clock].
  split; [|done]. exists stored_rows. split; [|done].
  unfold stored. rewrite lookup_insert_ne; [done|apply export_path_not_store].
Qed.

Lemma keeps_store_lift {A} (r : result A) : harmless r -> keeps_store (lift r).
Proof. by intros Hr w Hw. Qed.

Lemma keeps_store_bind_ok {A B} (a : A) (k : A -> io B) :
  keeps_store (k a) -> keeps_store (bind (lift (Ok a)) k).
Proof. done. Qed.

Lemma keeps_store_retry {A} (body : string -> result A) msg :
  (forall l e, body l = Raise e -> e = ValueError) -> keeps_store (retry body msg).
Proof.
  intros Hbody w Hw. unfold retry.
  destruct (retry_lines_inv body msg (stdin w) (stdout w))
    as [[_ ->]|(bad & line & rest & _ & _ & Hline & ->)]; cbn [fst snd files].
  - split; [done|by left].
  - split; [done|]. destruct (body line) as [a|e] eqn:He; [done|].
    by apply Hbody in He as ->.
Qed.

Lemma int_of_str_raises s e : int_of_str s = Raise e -> e = ValueError.
Proof.
  unfold int_of_str.
  repeat match goal with
         | |- context [match ?x with _ => _ end] => destruct x
         end; congruence.
Qed.

Lemma keeps_store_ask_index len : keeps_store (ask_index len).
Proof.
  intros w Hw. rewrite ask_index_eq. destruct (stdin w) as [|line rest].
  - split; [done|by left].
  - destruct (int_of_str (strip line)) as [idx|e] eqn:Hidx.
    + by destruct (_ || _).
    + apply int_of_str_raises in Hidx as ->. done.
Qed.

(** The steps that keep the store well-formed. *)
Ltac keeps_store :=
  repeat first
    [ apply keeps_store_bind; [|intros ?]
    | apply keeps_store_ret | apply keeps_store_print | apply keeps_store_input
    | apply keeps_store_print_lines | apply keeps_store_ask_index
    | apply keeps_store_retry; first [apply optional_date_taken_raises | idtac]
    | match goal with
      | |- keeps_store (match ?x with _ => _ end) => destruct x
      | |- keeps_store (let '(_, _) := ?x in _) => destruct x
      end ].

Lemma four_cells_two_cells rows : Forall four_cells rows -> Forall two_cells rows.
Proof. intros H. eapply Forall_impl; [exact H|]. unfold four_cells, two_cells. lia. Qed.

Lemma keeps_store_view_expenses : keeps_store view_expenses.
Proof.
  intros w (rows & Hst & Hrows).
  assert (Hw : well_formed (files w)) by (by exists rows).
  remember (view_expenses w) as run eqn:Hrun.
  unfold view_expenses, bind at 1 in Hrun.
  rewrite read_rows_eq, (stored_ensured rows), with_files_same in Hrun by done.
  destruct (stored_loaded_any rows (files w) Hst) as [Hl|Hl]; rewrite Hl in Hrun;
    [|subst run; split; [done|by right]].
  destruct rows as [|r rows']; [subst run; by apply keeps_store_bind; keeps_store|].
  cbv beta iota in Hrun. subst run.
  match goal with
  | |- well_formed (files (?m w).1) /\ _ =>
      cut (keeps_store m); [intros Hm; exact (Hm w Hw)|]
  end.
  apply keeps_store_bind; [apply keeps_store_input|intros yn].
  apply keeps_store_bind.
  { unfold ask_optional_date. keeps_store. }
  intros [[[cat sdate] edate] text].
  rewrite filter_rows_filter by done. apply keeps_store_bind_ok.
  set (out := filter _ (r :: rows')).
  destruct (format_expense_table_ok out) as [table Htable].
  { apply four_cells_two_cells. by apply four_cells_filter. }
  destruct out as [|r0 out']; [keeps_store|]. rewrite Htable.
  apply keeps_store_bind_ok. keeps_store.
Qed.

Lemma keeps_store_write_rows rows :
  Forall four_cells rows -> keeps_store (write_rows rows).
Proof.
  intros Hrows w Hw. rewrite write_rows_eq. split; [|done].
  exists rows. split; [|done]. unfold stored. cbn [fst files with_files].
  by rewrite lookup_insert_eq.
Qed.

Lemma parse_iso_date_raises s e : parse_iso_date s = Raise e -> e = ValueError.
Proof.
  unfold parse_iso_date, Date.fromisoformat. destruct (_ || _); [|congruence].
  destruct (_ ≫= _); congruence.
Qed.

Lemma keeps_store_delete_by_index : keeps_store delete_by_index.
Proof.
  intros w (rows & Hst & Hrows).
  assert (Hw : well_formed (files w)) by (by exists rows).
  remember (delete_by_index w) as run eqn:Hrun.
  unfold delete_by_index, bind at 1 in Hrun.
  rewrite read_rows_eq, (stored_ensured rows), with_files_same in Hrun by done.
  destruct (stored_loaded_any rows (files w) Hst) as [Hl|Hl]; rewrite Hl in Hrun;
    [|subst run; split; [done|by right]].
  destruct (format_expense_table_ok rows (four_cells_two_cells rows Hrows))
    as [table Htable].
  destruct rows as [|r rows']; [subst run; by apply keeps_store_print|].
  set (rows := r :: rows') in *. cbv beta iota in Hrun.
  unfold bind at 1, lift at 1 in Hrun. rewrite Htable in Hrun.
  unfold bind at 1, print at 1 in Hrun. unfold bind at 1 in Hrun.
  rewrite ask_index_eq in Hrun. cbn [stdin stdout files clock] in Hrun.
  destruct (stdin w) as [|line rest]; [subst run; split; [done|by left]|].
  destruct (int_of_str (strip line)) as [idx|e] eqn:Hidx.
  2:{ apply int_of_str_raises in Hidx as ->. by subst run. }
  destruct (_ || _) eqn:Hrange; [by subst run|].
  apply orb_false_elim in Hrange as [Hneg%Z.ltb_ge Hlen%Z.leb_gt].
  destruct (lookup_lt_is_Some_2 rows (Z.to_nat idx)) as [deleted Hdel]; [lia|].
  rewrite Hdel in Hrun. subst run.
  cut (keeps_store (write_rows (delete (Z.to_nat idx) rows) ;; print (Deleted deleted))).
  { intros Hm. apply (Hm (typed rest (with_stdout (stdout w ++ [Text table]) w))). done. }
  apply keeps_store_bind; [|intros ?; apply keeps_store_print].
  apply keeps_store_write_rows. by apply Forall_delete.
Qed.

Lemma keeps_store_edit_by_index : keeps_store edit_by_index.
Proof.
  intros w (rows & Hst & Hrows).
  assert (Hw : well_formed (files w)) by (by exists rows).
  remember (edit_by_index w) as run eqn:Hrun.
  unfold edit_by_index, bind at 1 in Hrun.
  rewrite read_rows_eq, (stored_ensured rows), with_files_same in Hrun by done.
  destruct (stored_loaded_any rows (files w) Hst) as [Hl|Hl]; rewrite Hl in Hrun;
    [|subst run; split; [done|by right]].
  destruct (format_expense_table_ok rows (four_cells_two_cells rows Hrows))
    as [table Htable].
  destruct rows as [|r rows']; [subst run; by apply keeps_store_print|].
  set (rows := r :: rows') in *. cbv beta iota in Hrun.
  unfold bind at 1, lift at 1 in Hrun. rewrite Htable in Hrun.
  unfold bind at 1, print at 1 in Hrun. unfold bind at 1 in Hrun.
  rewrite ask_index_eq in Hrun. cbn [stdin stdout files clock] in Hrun.
  destruct (stdin w) as [|line rest]; [subst run; split; [done|by left]|].
  destruct (int_of_str (strip line)) as [idx|e] eqn:Hidx.
  2:{ apply int_of_str_raises in Hidx as ->. by subst run. }
  destruct (_ || _) eqn:Hrange; [by subst run|].
  apply orb_false_elim in Hrange as [Hneg%Z.ltb_ge Hlen%Z.leb_gt].
  destruct (lookup_lt_is_Some_2 rows (Z.to_nat idx)) as [old Hold]; [lia|].
  rewrite Hold in Hrun.
  destruct (four_cells_inv old) as (date & amt & cat & desc & ->).
  { rewrite Forall_forall in Hrows. eapply Hrows, list_elem_of_lookup_2, Hold. }
  subst run.
  match goal with
  | |- well_formed (files (?m ?w1).1) /\ _ =>
      cut (keeps_store m); [intros Hm; by apply (Hm w1)|]
  end.
  apply keeps_store_bind; [|intros new_date].
  { apply keeps_store_retry. intros l e. cbn zeta.
    destruct (parse_iso_date _) eqn:Hd; [done|]. cbn. intros [= <-].
    by eapply parse_iso_date_raises. }
  apply keeps_store_bind; [|intros new_amt].
  { apply keeps_store_retry. intros l e. cbn zeta. rewrite fmap_raises.
    apply of_str_raises. }
  unfold input_with_default. keeps_store.
  apply keeps_store_write_rows. apply Forall_insert; [done|reflexivity].
Qed.

Lemma keeps_store_turn last_view : keeps_store (turn last_view).
Proof.
  unfold turn.
  repeat match goal with
         | |- keeps_store add_expense => apply keeps_store_add_expense
         | |- keeps_store view_expenses => apply keeps_store_view_expenses
         | |- keeps_store summarize_by_category => apply (keeps_store_summarize by_category)
         | |- keeps_store summarize_by_date => apply (keeps_store_summarize by_date)
         | |- keeps_store summarize_by_month => apply (keeps_store_summarize by_month)
         | |- keeps_store show_total => apply keeps_store_show_total
         | |- keeps_store edit_by_index => apply keeps_store_edit_by_index
         | |- keeps_store delete_by_index => apply keeps_store_delete_by_index
         | |- keeps_store delete_last_entry => apply keeps_store_delete_last_entry
         | |- keeps_store (export_rows _) => apply keeps_store_export_rows
         | |- keeps_store (print_lines _) => apply keeps_store_print_lines
         | |- keeps_store input => apply keeps_store_input
         | |- keeps_store (ret _) => apply keeps_store_ret
         | |- keeps_store (print _) => apply keeps_store_print
         | |- keeps_store (bind _ _) => apply keeps_store_bind; [|intros ?]
         | |- keeps_store (match ?x with _ => _ end) => destruct x
         end.
Qed.

Lemma main_loop_keeps_store turns : forall last_view w w' r,
  well_formed (files w) ->
  main_loop turns last_view w = Some (w', r) ->
  well_formed (files w') /\ harmless r.
Proof.
  induction turns as [|turns IH]; intros last_view w w' r Hw; [done|].
  cbn [main_loop]. destruct (keeps_store_turn last_view w Hw) as [Hw1 Hr].
  destruct (turn last_view w) as [w1 [[lv|]|e]].
  - by apply IH.
  - by intros [= <- <-].
  - by intros [= <- <-].
Qed.

Lemma well_formed_fresh fs :
  fs !! CSV = None \/ fs !! CSV = Some "" -> well_formed (ensured fs).
Proof.
  intros Hfresh. exists []. split; [|done]. unfold stored, ensured.
  destruct Hfresh as [-> | ->]; by rewrite lookup_insert_eq.
Qed.

(** X29: On a store that is missing or empty, or holds the header and
    records of four fields as the program writes them, [main] ends with
    such a store again, whatever is typed: every action of the menu
    leaves the file of the store with the header and records of four
    fields.  It returns, or it fails with the end of the input or with
    the error of the csv reader for a field beyond its limit; it never
    fails for the shape of a row, an index or a missing file. *)
Theorem main_keeps_store_well_formed (w : world) :
  files w !! CSV = None \/ files w !! CSV = Some "" \/ well_formed (files w) ->
  exists w' r,
    main w = Some (w', r)
    /\ well_formed (files w')
    /\ (r = Ok tt \/ r = Raise EOFError \/ r = Raise CsvError).
Proof.
  intros Hstore. unfold main. rewrite ensure_dirs_and_csv_eq.
  set (w0 := with_files (ensured (files w)) w).
  assert (Hw0 : well_formed (files w0)).
  { destruct Hstore as [?|[?|Hw]]; [apply well_formed_fresh; auto..|].
    destruct Hw as (rows & Hst & Hrows). exists rows. split; [|done].
    unfold w0. cbn [files with_files]. by rewrite (stored_ensured rows). }
  destruct (main_loop_some (S (length (stdin w0))) [] w0) as [[w' r] Hrun]; [lia|].
  exists w', r. split; [done|].
  destruct (main_loop_keeps_store _ _ _ _ _ Hw0 Hrun) as [Hw' Hr].
  split; [done|]. destruct r as [[]|e]; [by left|]. destruct Hr as [-> | ->]; auto.
Qed.

Lemma main_keeps_store_well_formed_witness :
  exists w' r,
    main (mkWorld ["1"; ""; "12,5"; "Food"; "lunch"; "9"; "7"; "11"] [] ∅ noon)
    = Some (w', r)
    /\ well_formed (files w')
    /\ (r = Ok tt \/ r = Raise EOFError \/ r = Raise CsvError).
Proof.
  apply (main_keeps_store_well_formed
           (mkWorld ["1"; ""; "12,5"; "Food"; "lunch"; "9"; "7"; "11"] [] ∅ noon)).
  by left.
Defined.
